(** * MalcolmX: the NetBox seeding script and the Raspberry Pi recipe generator

    A shallow embedding of [src/netbox/scripts/netbox_init.py] and
    [src/sensor-raspi/generate-recipe.py], and the properties of the
    specification settled against it.

    Text is modelled over the code points U+0000 to U+00FF: a Python [str]
    is a [string], a character is an [ascii] read as its code point. *)

From Stdlib Require Import List String Ascii ZArith Bool Arith Lia.
From Stdlib Require Import Sorting.Sorted Sorting.Permutation.
From Stdlib Require Import Floats.SpecFloat DecimalString.
Import ListNotations.
Open Scope string_scope.

(** ** Characters and lines (the parts of Python's [str] and [re] in use) *)

Module Text.

Definition LF : ascii := "010"%char.
Definition CR : ascii := "013"%char.

Definition between (lo hi : nat) (c : ascii) : bool :=
  let n := nat_of_ascii c in ((lo <=? n) && (n <=? hi))%nat.

(** [\s] of a [str] pattern, i.e. [str.isspace] on one character:
    TAB LF VT FF CR, FS GS RS US, SPACE, NEL and NBSP. *)
Definition isspace (c : ascii) : bool :=
  between 9 13 c || between 28 32 c || between 133 133 c || between 160 160 c.

(** The line boundaries of [str.splitlines]: LF VT FF CR, FS GS RS, NEL
    (CR LF counts once, see [splitlines_from]). *)
Definition is_linebreak (c : ascii) : bool :=
  between 10 13 c || between 28 30 c || between 133 133 c.

Definition snoc (s : string) (c : ascii) : string := s ++ String c "".

(** [splitlines_from acc s]: the lines of [acc ++ s], where [acc] is the
    beginning of the current line and holds no line boundary. *)
Fixpoint splitlines_from (acc s : string) : list string :=
  match s with
  | "" => if (acc =? "")%string then [] else [acc]
  | String c rest =>
      if is_linebreak c then
        match rest with
        | String c2 rest2 =>
            if Ascii.eqb c CR && Ascii.eqb c2 LF
            then acc :: splitlines_from "" rest2
            else acc :: splitlines_from "" rest
        | "" => acc :: splitlines_from "" rest
        end
      else splitlines_from (snoc acc c) rest
  end.

(** [str.splitlines()] *)
Definition splitlines (s : string) : list string := splitlines_from "" s.

(** ['\n'.join(lines)] *)
Fixpoint join_lines (lines : list string) : string :=
  match lines with
  | [] => ""
  | [l] => l
  | l :: rest => l ++ String LF (join_lines rest)
  end.

(** [all(isspace(c) for c in s)] *)
Fixpoint all_space (s : string) : bool :=
  match s with
  | "" => true
  | String c rest => isspace c && all_space rest
  end.

(** [s.startswith(p)] *)
Definition startswith (p s : string) : bool := String.prefix p s.

(** [str.lower] on the code points below U+0100: A-Z, and the Latin-1
    capitals U+00C0 to U+00DE without the multiplication sign U+00D7. *)
Definition lower_char (c : ascii) : ascii :=
  let n := nat_of_ascii c in
  if between 65 90 c || (between 192 222 c && negb (n =? 215)%nat)
  then ascii_of_nat (n + 32) else c.

Fixpoint lower (s : string) : string :=
  match s with
  | "" => ""
  | String c rest => String (lower_char c) (lower rest)
  end.

(** [sep in s] for a one-character [sep] *)
Fixpoint contains_char (sep : ascii) (s : string) : bool :=
  match s with
  | "" => false
  | String c rest => Ascii.eqb c sep || contains_char sep rest
  end.

(** [s.split(sep)] for a one-character [sep]: never empty, [[""]] on the
    empty string. *)
Fixpoint split_from (sep : ascii) (acc s : string) : list string :=
  match s with
  | "" => [acc]
  | String c rest =>
      if Ascii.eqb c sep then acc :: split_from sep "" rest
      else split_from sep (snoc acc c) rest
  end.

Definition split (sep : ascii) (s : string) : list string := split_from sep "" s.

End Text.

(** ** generate-recipe.py *)

Module Recipe.
Import Text.

(** A character that a regular expression takes as it is, and that is no
    white space: a letter, a digit or the underscore. *)
Definition is_word (c : ascii) : bool :=
  between 48 57 c || between 65 90 c || between 97 122 c || Ascii.eqb c "_"%char.

(** A pattern in which every character stands for itself.  The three
    placeholders that the script passes to [align_replace] are such
    patterns. *)
Fixpoint literal (pattern : string) : bool :=
  match pattern with
  | "" => true
  | String c rest => is_word c && literal rest
  end.

(** The white space that a line begins with. *)
Fixpoint leading_space (line : string) : string :=
  match line with
  | String c rest => if isspace c then String c (leading_space rest) else ""
  | "" => ""
  end.

(** [re.match(r'^(\s+)%s' % pattern, line)], for a [literal] pattern: the
    script puts [pattern] into the regular expression as it is, so that a
    pattern with an operator of regular expressions would match other lines;
    the properties below take a [literal] one.  [Some indent] with
    [indent = m.group(1)].  [\s+] is greedy: the longest run of white space is
    tried first and given back one character at a time. *)
Fixpoint re_match_indent (pattern line : string) : option string :=
  match line with
  | "" => None
  | String c rest =>
      if isspace c then
        match re_match_indent pattern rest with
        | Some indent => Some (String c indent)
        | None => if startswith pattern rest then Some (String c "") else None
        end
      else None
  end.

(** The [for i, line in enumerate(lines)] loop up to its [break]: the index
    and the indentation of the first line that matches. *)
Fixpoint first_match (pattern : string) (lines : list string) (i : nat)
  : option (nat * string) :=
  match lines with
  | [] => None
  | line :: rest =>
      match re_match_indent pattern line with
      | Some indent => Some (i, indent)
      | None => first_match pattern rest (S i)
      end
  end.

(** [del lines[i]] *)
Definition list_del {A} (i : nat) (l : list A) : list A :=
  firstn i l ++ skipn (S i) l.

(** [lines.insert(i, x)]; past the end Python appends. *)
Definition list_insert {A} (i : nat) (x : A) (l : list A) : list A :=
  firstn i l ++ x :: skipn i l.

(** [for r in replacement: lines.insert(i, indent + r); i = i + 1] *)
Fixpoint insert_each (indent : string) (replacement : list string)
         (i : nat) (lines : list string) : list string :=
  match replacement with
  | [] => lines
  | r :: rs => insert_each indent rs (S i) (list_insert i (indent ++ r) lines)
  end.

Definition replace_lines (pattern : string) (replacement lines : list string)
  : list string :=
  match first_match pattern lines 0 with
  | Some (i, indent) => insert_each indent replacement i (list_del i lines)
  | None => lines
  end.

Definition align_replace (text pattern : string) (replacement : list string)
  : string :=
  join_lines (replace_lines pattern replacement (splitlines text)) ++ String LF "".

(** [re.match(r'^\s+$', x)]: [$] also matches before a final LF, which is
    white space itself. *)
Definition re_blank (x : string) : bool :=
  negb (x =? "")%string && all_space x.

(** what follows [^\s+] in [r'^\s+-\s*$'] once the white space is consumed *)
Definition dash_then_space (x : string) : bool :=
  match x with
  | String c rest => Ascii.eqb c "-"%char && all_space rest
  | "" => false
  end.

(** [re.match(r'^\s+-\s*$', x)]: a dash is no white space, so the greedy
    [\s+] stops at the first character that is none. *)
Fixpoint re_empty_item_from (seen_space : bool) (x : string) : bool :=
  match x with
  | "" => false
  | String c rest =>
      if isspace c then re_empty_item_from true rest
      else seen_space && dash_then_space x
  end.

Definition re_empty_item (x : string) : bool := re_empty_item_from false x.

Definition keep_line (x : string) : bool :=
  negb (re_blank x) && negb (re_empty_item x).

(** [filtered = [x for x in out_text.splitlines() if not ... and not ...]] *)
Definition filtered (out_text : string) : list string :=
  filter keep_line (splitlines out_text).

(** what [out_file.write] receives *)
Definition written (out_text : string) : string :=
  join_lines (filtered out_text) ++ String LF "".

(** The three block replacements and the filter, lines 190 to 197. *)
Definition render_blocks (out_text : string)
           (extra_root_shell_cmds extra_chroot_shell_cmds backports : list string)
  : string :=
  let t1 := align_replace out_text "__EXTRA_ROOT_SHELL_CMDS__" extra_root_shell_cmds in
  let t2 := align_replace t1 "__EXTRA_CHROOT_SHELL_CMDS__" extra_chroot_shell_cmds in
  let t3 := align_replace t2 "__BACKPORTS__" backports in
  written t3.

End Recipe.

(** ** The [ipaddress] module of Python's standard library

    [netbox_init.py] decides what an address is with [ipaddress.ip_address],
    [IPv4Address], [IPv6Address] and [ipaddress.ip_network].  The module is not
    part of the repository; its parsers for textual addresses are modelled here
    after CPython 3.11.  A parser returns the integer value of the address,
    [None] where the library raises [AddressValueError] or [NetmaskValueError]
    (or [ValueError] for host bits). *)

Module Ipaddress.
Import Text.

Definition is_digit (c : ascii) : bool := between 48 57 c.

(** [_HEX_DIGITS = frozenset('0123456789ABCDEFabcdef')] *)
Definition is_hex_digit (c : ascii) : bool :=
  is_digit c || between 65 70 c || between 97 102 c.

Fixpoint all_chars (p : ascii -> bool) (s : string) : bool :=
  match s with
  | "" => true
  | String c rest => p c && all_chars p rest
  end.

Definition hex_value (c : ascii) : N :=
  let n := N_of_ascii c in
  if is_digit c then n - 48 else if between 65 70 c then n - 55 else n - 87.

(** [int(s, base)] on a string of digits of that base *)
Fixpoint int_from (base acc : N) (s : string) : N :=
  match s with
  | "" => acc
  | String c rest => int_from base (acc * base + hex_value c) rest
  end.

Definition int_of (base : N) (s : string) : N := int_from base 0 s.

Definition first_char_is (c : ascii) (s : string) : bool :=
  match s with
  | String c0 _ => Ascii.eqb c0 c
  | "" => false
  end.

(** [IPv4Address._parse_octet] *)
Definition parse_octet (octet_str : string) : option N :=
  if (octet_str =? "")%string then None
  else if negb (all_chars is_digit octet_str) then None
  else if (3 <? String.length octet_str)%nat then None
  else if negb (octet_str =? "0")%string && first_char_is "0"%char octet_str then None
  else let octet_int := int_of 10 octet_str in
       if (255 <? octet_int)%N then None else Some octet_int.

(** [int.from_bytes(octets, 'big')] *)
Definition from_octets (a b c d : N) : N := ((a * 256 + b) * 256 + c) * 256 + d.

(** [IPv4Address._ip_int_from_str] *)
Definition ipv4_int_from_str (ip_str : string) : option N :=
  if (ip_str =? "")%string then None
  else match split "."%char ip_str with
       | [o1; o2; o3; o4] =>
           match parse_octet o1, parse_octet o2, parse_octet o3, parse_octet o4 with
           | Some a, Some b, Some c, Some d => Some (from_octets a b c d)
           | _, _, _, _ => None
           end
       | _ => None
       end.

(** [IPv4Address(address)] for a [str] *)
Definition IPv4Address (address : string) : option N :=
  if contains_char "/"%char address then None else ipv4_int_from_str address.

(** [IPv6Address._parse_hextet]; [int('', 16)] raises [ValueError]. *)
Definition parse_hextet (hextet_str : string) : option N :=
  if negb (all_chars is_hex_digit hextet_str) then None
  else if (4 <? String.length hextet_str)%nat then None
  else if (hextet_str =? "")%string then None
  else Some (int_of 16 hextet_str).

Definition hex_digit_char (d : N) : ascii :=
  if (d <? 10)%N then ascii_of_N (48 + d) else ascii_of_N (87 + d).

Fixpoint strip_zeros (s : string) : string :=
  match s with
  | String c (String _ _ as rest) => if Ascii.eqb c "0"%char then strip_zeros rest else s
  | _ => s
  end.

(** ['%x' % n] for [n] below 65536 *)
Definition format_x (n : N) : string :=
  strip_zeros
    (String (hex_digit_char (n / 4096 mod 16))
       (String (hex_digit_char (n / 256 mod 16))
          (String (hex_digit_char (n / 16 mod 16))
             (String (hex_digit_char (n mod 16)) "")))).

(** [for h in hextets: ip_int <<= 16; ip_int |= _parse_hextet(h)] *)
Fixpoint shift_in (ip_int : N) (hextets : list string) : option N :=
  match hextets with
  | [] => Some ip_int
  | h :: rest =>
      match parse_hextet h with
      | Some v => shift_in (N.lor (N.shiftl ip_int 16) v) rest
      | None => None
      end
  end.

(** The indices [i] in [range(1, len(parts) - 1)] with [not parts[i]], for
    [parts_from_1 = parts[1:]] and [i] the index of its head. *)
Fixpoint empty_middle (i : nat) (parts_from_1 : list string) : list nat :=
  match parts_from_1 with
  | p :: (_ :: _) as rest =>
      if (p =? "")%string then i :: empty_middle (S i) rest else empty_middle (S i) rest
  | _ => []
  end.

(** [parts.pop()] followed by the two [parts.append('%x' % ...)] *)
Definition expand_ipv4_suffix (parts : list string) : option (list string) :=
  let last_part := last parts "" in
  if contains_char "."%char last_part then
    match IPv4Address last_part with
    | Some ipv4_int =>
        Some (removelast parts
                ++ [format_x (N.land (N.shiftr ipv4_int 16) 65535);
                    format_x (N.land ipv4_int 65535)])%list
    | None => None
    end
  else Some parts.

(** The hextets before and after the skipped run, and its length, once the
    parts are counted; [_HEXTET_COUNT = 8]. *)
Definition hextet_layout (parts : list string) : option (nat * nat * nat) :=
  let n := List.length parts in
  let first_empty := (hd "" parts =? "")%string in
  let last_empty := (last parts "" =? "")%string in
  match empty_middle 1 (tl parts) with
  | _ :: _ :: _ => None
  | [skip_index] =>
      let parts_hi := if first_empty then skip_index - 1 else skip_index in
      let parts_lo := if last_empty then n - skip_index - 1 - 1 else n - skip_index - 1 in
      if first_empty && negb (parts_hi =? 0)%nat then None
      else if last_empty && negb (parts_lo =? 0)%nat then None
      else if (8 - (parts_hi + parts_lo) <? 1)%nat then None
      else Some (parts_hi, parts_lo, 8 - (parts_hi + parts_lo))
  | [] =>
      if negb (n =? 8)%nat then None
      else if first_empty then None
      else if last_empty then None
      else Some (n, 0, 0)
  end%nat.

(** [IPv6Address._ip_int_from_str] *)
Definition ipv6_int_from_str (ip_str : string) : option N :=
  if (ip_str =? "")%string then None
  else
    let parts := split ":"%char ip_str in
    if (List.length parts <? 3)%nat then None
    else match expand_ipv4_suffix parts with
         | None => None
         | Some parts =>
             if (9 <? List.length parts)%nat then None
             else match hextet_layout parts with
                  | None => None
                  | Some (parts_hi, parts_lo, parts_skipped) =>
                      match shift_in 0 (firstn parts_hi parts) with
                      | None => None
                      | Some hi =>
                          shift_in (N.shiftl hi (N.of_nat (16 * parts_skipped)))
                                   (skipn (List.length parts - parts_lo) parts)
                      end
                  end
         end.

(** [ip_str.partition('%')]: the text before the first ['%'] and, when there
    is one, the text after it. *)
Fixpoint partition_from (sep : ascii) (acc s : string) : string * option string :=
  match s with
  | "" => (acc, None)
  | String c rest =>
      if Ascii.eqb c sep then (acc, Some rest) else partition_from sep (snoc acc c) rest
  end.

(** [IPv6Address._split_scope_id]: the address part, [None] on an empty
    scope or a second ['%']. *)
Definition split_scope_id (ip_str : string) : option string :=
  match partition_from "%"%char "" ip_str with
  | (addr, None) => Some addr
  | (addr, Some scope_id) =>
      if (scope_id =? "")%string || contains_char "%"%char scope_id then None
      else Some addr
  end.

(** [IPv6Address(address)] for a [str] *)
Definition IPv6Address (address : string) : option N :=
  if contains_char "/"%char address then None
  else match split_scope_id address with
       | Some addr_str => ipv6_int_from_str addr_str
       | None => None
       end.

Definition is_some {A} (o : option A) : bool :=
  match o with Some _ => true | None => false end.

(** [ipaddress.ip_address(address)] returns, for a [str] *)
Definition ip_address_ok (address : string) : bool :=
  is_some (IPv4Address address) || is_some (IPv6Address address).

(** [_BaseNetwork._prefix_from_prefix_string] *)
Definition prefix_from_prefix_string (max_prefixlen : N) (prefixlen_str : string)
  : option N :=
  if negb (all_chars is_digit prefixlen_str) || (prefixlen_str =? "")%string then None
  else let prefixlen := int_of 10 prefixlen_str in
       if (max_prefixlen <? prefixlen)%N then None else Some prefixlen.

Fixpoint trailing_zeros (p : positive) : N :=
  match p with
  | xO p' => N.succ (trailing_zeros p')
  | _ => 0%N
  end.

(** [_count_righthand_zero_bits(number, bits)] *)
Definition count_righthand_zero_bits (number bits : N) : N :=
  match number with
  | N0 => bits
  | Npos p => N.min bits (trailing_zeros p)
  end.

(** [_prefix_from_ip_int] for [_max_prefixlen = 32] *)
Definition prefix_from_ip_int (ip_int : N) : option N :=
  let trailing_zeroes := count_righthand_zero_bits ip_int 32 in
  let prefixlen := (32 - trailing_zeroes)%N in
  let leading_ones := N.shiftr ip_int trailing_zeroes in
  let all_ones := (N.shiftl 1 prefixlen - 1)%N in
  if (leading_ones =? all_ones)%N then Some prefixlen else None.

Definition ALL_ONES4 : N := 4294967295.

(** [_prefix_from_ip_string]: a netmask, or else a hostmask *)
Definition prefix_from_ip_string (ip_str : string) : option N :=
  match ipv4_int_from_str ip_str with
  | None => None
  | Some ip_int =>
      match prefix_from_ip_int ip_int with
      | Some prefixlen => Some prefixlen
      | None => prefix_from_ip_int (N.lxor ip_int ALL_ONES4)
      end
  end.

(** [IPv4Network._make_netmask] on the text after the slash *)
Definition make_netmask4 (arg : string) : option N :=
  match prefix_from_prefix_string 32 arg with
  | Some prefixlen => Some prefixlen
  | None => prefix_from_ip_string arg
  end.

(** [_ip_int_from_prefix]: [ALL_ONES ^ (ALL_ONES >> prefixlen)] *)
Definition ip_int_from_prefix (all_ones prefixlen : N) : N :=
  N.lxor all_ones (N.shiftr all_ones prefixlen).

(** [packed & int(netmask) != packed] raises under [strict] *)
Definition no_host_bits (all_ones packed prefixlen : N) : bool :=
  (N.land packed (ip_int_from_prefix all_ones prefixlen) =? packed)%N.

(** [IPv4Network(address, strict=True)] returns, for a [str] *)
Definition IPv4Network_ok (address : string) : bool :=
  match split "/"%char address with
  | [addr] => is_some (IPv4Address addr)
  | [addr; mask] =>
      match IPv4Address addr, make_netmask4 mask with
      | Some packed, Some prefixlen => no_host_bits ALL_ONES4 packed prefixlen
      | _, _ => false
      end
  | _ => false
  end.

Definition ALL_ONES6 : N := 340282366920938463463374607431768211455.

(** [IPv6Network(address, strict=True)] returns, for a [str] *)
Definition IPv6Network_ok (address : string) : bool :=
  match split "/"%char address with
  | [addr] => is_some (IPv6Address addr)
  | [addr; mask] =>
      match IPv6Address addr, prefix_from_prefix_string 128 mask with
      | Some packed, Some prefixlen => no_host_bits ALL_ONES6 packed prefixlen
      | _, _ => false
      end
  | _ => false
  end.

(** [ipaddress.ip_network(address)] returns, for a [str] *)
Definition ip_network_ok (address : string) : bool :=
  IPv4Network_ok address || IPv6Network_ok address.

End Ipaddress.

(** ** netbox_init.py *)

Module Netbox.
Import Text Ipaddress.

(** *** JSON values

    What [json.load] returns: [None], a truth value, an [int], a [float] (by
    its IEEE 754 value), a [str], a [list] or a [dict].  A text stands for
    the JSON value that it is. *)
#[warnings="-register-all"] Inductive json :=
| JNull
| JBool (b : bool)
| JNumber (n : Z)
| JFloat (f : spec_float)
| JString (s : string)
| JArray (items : list json)
| JObject (members : list (string * json)).

Coercion JString : string >-> json.

(** [bool(x)], the test of [if x] and of [x and ...] *)
Definition truthy_value (x : json) : bool :=
  match x with
  | JNull => false
  | JBool b => b
  | JNumber n => negb (n =? 0)%Z
  | JFloat (S754_zero _) => false
  | JFloat _ => true
  | JString s => negb (s =? "")%string
  | JArray items => match items with [] => false | _ => true end
  | JObject members => match members with [] => false | _ => true end
  end.

(** The text of a value that is a text. *)
Definition text_of (x : json) : string :=
  match x with
  | JString s => s
  | _ => ""
  end.

(** [f"{x}"], for the values that the script formats: the addresses that
    [ipaddress] takes, which are texts, integers and truth values (see
    [is_ip_address] below).  No other value is formatted, and the empty text
    stands for what is never asked for. *)
Definition format (x : json) : string :=
  match x with
  | JString s => s
  | JNumber n => NilZero.string_of_int (Z.to_int n)
  | JBool true => "True"
  | JBool false => "False"
  | _ => ""
  end.

(** *** Helpers at the top of the script

    The functions of [ipaddress] take a text, which they parse, or an
    integer in the range of the addresses; a truth value is an integer, 0 or
    1.  Of any other value they parse [str(x)], which is never the text of an
    address: that of [None] is a word, that of a float has no colon and at
    most one dot, that of a list begins with a bracket and that of a dict with
    a brace.  The helpers turn every exception into [False]. *)

Definition in_range (n : Z) (bits : Z) : bool := ((0 <=? n) && (n <? 2 ^ bits))%Z.

Definition is_ip_address (x : json) : bool :=
  match x with
  | JString s => ip_address_ok s
  | JNumber n => in_range n 128
  | JBool _ => true
  | _ => false
  end.

Definition is_ip_v4_address (x : json) : bool :=
  match x with
  | JString s => is_some (IPv4Address s)
  | JNumber n => in_range n 32
  | JBool _ => true
  | _ => false
  end.

Definition is_ip_v6_address (x : json) : bool :=
  match x with
  | JString s => is_some (IPv6Address s)
  | JNumber n => in_range n 128
  | JBool _ => true
  | _ => false
  end.

Definition is_ip_network (x : json) : bool :=
  match x with
  | JString s => ip_network_ok s
  | JNumber n => in_range n 128
  | JBool _ => true
  | _ => false
  end.

(** [re.match(r'^([0-9a-f]{2}[:-]){5}([0-9a-f]{2})$', s)]; [$] matches at
    the end and before a final LF. *)
Definition is_lower_hex (c : ascii) : bool := between 48 57 c || between 97 102 c.

Definition is_mac_sep (c : ascii) : bool := Ascii.eqb c ":"%char || Ascii.eqb c "-"%char.

Definition at_end (s : string) : bool :=
  (s =? "")%string || (s =? String LF "")%string.

Fixpoint re_mac_groups (n : nat) (s : string) : bool :=
  match n, s with
  | O, String a (String b rest) => is_lower_hex a && is_lower_hex b && at_end rest
  | S n', String a (String b (String sep rest)) =>
      is_lower_hex a && is_lower_hex b && is_mac_sep sep && re_mac_groups n' rest
  | _, _ => false
  end.

Definition re_mac (s : string) : bool := re_mac_groups 5 s.

(** What the device stage makes of a host's address, lines 762 to 778.  An
    address that [ipaddress] does not take is lowered for the pattern of the
    MAC addresses: a value that is not a text has no [lower]. *)
Inductive address_class := IsIp | IsMac | IsNeither | NoText.

Definition classify (address : json) : address_class :=
  if is_ip_address address then IsIp
  else match address with
       | JString s => if re_mac (lower s) then IsMac else IsNeither
       | _ => NoText
       end.

(** *** Python's [dict], in insertion order *)

Section Dict.
Context {K V : Type} (eqb : K -> K -> bool).

(** [d[k] = v]: a key that is present keeps its place. *)
Fixpoint dict_set (k : K) (v : V) (d : list (K * V)) : list (K * V) :=
  match d with
  | [] => [(k, v)]
  | (k', v') :: d' =>
      if eqb k' k then (k', v) :: d' else (k', v') :: dict_set k v d'
  end.

(** [{k: v for k, v in items}] *)
Definition dict_of (items : list (K * V)) : list (K * V) :=
  fold_left (fun d kv => dict_set (fst kv) (snd kv) d) items [].

(** [d.get(k)] *)
Fixpoint dict_get (k : K) (d : list (K * V)) : option V :=
  match d with
  | [] => None
  | (k', v) :: d' => if eqb k' k then Some v else dict_get k d'
  end.

(** [k in d] *)
Definition dict_mem (k : K) (d : list (K * V)) : bool :=
  match dict_get k d with Some _ => true | None => false end.

Definition dict_values (d : list (K * V)) : list V := map snd d.
End Dict.

Definition dict (K V : Type) := list (K * V).

Definition sdict_of {V} := @dict_of string V String.eqb.
Definition sdict_get {V} := @dict_get string V String.eqb.
Definition sdict_mem {V} := @dict_mem string V String.eqb.

(** *** [sorted] and the filler selection

    [lt a b] is Python's [a < b]: [None] where the comparison raises
    [TypeError].  The sort is stable; elements are inserted from the right,
    each before the first element that is not smaller.  For a total order
    every stable sort returns this list. *)
Section Sorted.
Context {A : Type} (lt : A -> A -> option bool).

Fixpoint insert_sorted (a : A) (l : list A) : option (list A) :=
  match l with
  | [] => Some [a]
  | b :: l' =>
      match lt b a with
      | None => None
      | Some true => option_map (cons b) (insert_sorted a l')
      | Some false => Some (a :: l)
      end
  end.

Fixpoint sorted (l : list A) : option (list A) :=
  match l with
  | [] => Some []
  | a :: l' =>
      match sorted l' with
      | Some s => insert_sorted a s
      | None => None
      end
  end.
End Sorted.

(** [min_hash_value_by_value(x)]: [None] stands for a [TypeError] raised by
    the sort, [Some None] for the default of [next]. *)
Definition min_hash_value_by_value {V} (lt : V -> V -> option bool)
           (x : dict string V) : option (option V) :=
  match sorted (fun item1 item2 => lt (snd item1) (snd item2)) x with
  | None => None
  | Some items => Some (hd_error (dict_values (sdict_of items)))
  end.

(** [<] on [int] *)
Definition int_lt (a b : Z) : option bool := Some (a <? b)%Z.

(** *** The store: NetBox behind [pynetbox]

    NetBox and its client library are outside the repository.  The store is
    modelled by the collections that the script reads and writes, each a list
    of records in the order of their creation.  What the store turns down is
    left open (the parameter [rejects] below), but for a prefix or an address
    that is no text, which it always turns down ([well_formed]); a request
    that it accepts adds or updates one record.  Nothing but the script writes
    to the store, and the store answers every call. *)

Record Group := { group_id : Z; group_name : string }.
Record Permission :=
  { perm_id : Z; perm_name : string; perm_enabled : bool; perm_groups : list Z;
    perm_actions : list string; perm_object_types : list string }.
Record ContentType := { app_label : string; ct_model : string }.
Record Manufacturer := { manuf_id : Z; manuf_name : string; manuf_slug : string }.
Record Role :=
  { role_id : Z; role_name : string; role_slug : string; role_vm_role : bool;
    role_color : string }.
Record DeviceType :=
  { dtype_id : Z; dtype_model : string; dtype_slug : string;
    dtype_manufacturer : option Z }.
Record Site := { site_id : Z; site_name : string; site_slug : string }.
Record Prefix :=
  { prefix_id : Z; prefix_prefix : string; prefix_site : option Z;
    prefix_description : string; prefix_vrf : option string }.
Record Device :=
  { device_id : Z; device_name : string; device_site : option Z;
    device_device_type : option Z; device_role : option Z;
    device_primary_ip4 : option Z; device_primary_ip : option Z }.
Record Interface :=
  { iface_id : Z; iface_device : Z; iface_name : string; iface_type : string;
    iface_mac_address : option string }.
Record IpAddress :=
  { ip_id : Z; ip_address : string; ip_assigned_object_type : string;
    ip_assigned_object_id : Z }.

Record Store :=
  { groups_of : list Group;
    permissions_of : list Permission;
    content_types_of : list ContentType;
    manufacturers_of : list Manufacturer;
    roles_of : list Role;
    device_types_of : list DeviceType;
    sites_of : list Site;
    prefixes_of : list Prefix;
    devices_of : list Device;
    interfaces_of : list Interface;
    ip_addresses_of : list IpAddress }.

(** What the script sends: the payload of each [create], and the three
    updates ([deviceForIp.save()] after setting [primary_ip4] or
    [primary_ip], and [prefix.update]).  A prefix and an address go out as the
    net map has them, whatever JSON value they are. *)
Inductive request :=
| CreateGroup (name : string)
| CreatePermission (name : string) (enabled : bool) (groups : list Z)
                   (actions object_types : list string)
| CreateManufacturer (name slug : string)
| CreateRole (name slug : string) (vm_role : bool) (color : string)
| CreateDeviceType (model slug : string) (manufacturer : option Z)
| CreateSite (name slug : string)
| CreatePrefix (prefix : json) (site : option Z) (description : string)
| CreateDevice (name : string) (site device_type role : option Z)
| CreateInterface (device : Z) (name type : string) (mac_address : option string)
| CreateIpAddress (address : json) (assigned_object_type : string)
                  (assigned_object_id : Z)
| SavePrimaryIp4 (device ip : Z)
| SavePrimaryIp (device ip : Z)
| UpdatePrefixDescription (prefix : Z) (description : string).

(** The identifier a collection gives to its next record. *)
Definition next_id (ids : list Z) : Z := (fold_right Z.max 0 ids + 1)%Z.

(** The store keeps an address with its prefix length, as the script's
    [hostKey] expects. *)
Definition stored_address (address : string) : string :=
  if contains_char "/"%char address then address
  else address ++ "/" ++ (if is_some (IPv4Address address) then "32" else "128").

Definition set_primary_ip4 (dev ip : Z) (d : Device) : Device :=
  if (device_id d =? dev)%Z
  then {| device_id := device_id d; device_name := device_name d;
          device_site := device_site d; device_device_type := device_device_type d;
          device_role := device_role d; device_primary_ip4 := Some ip;
          device_primary_ip := device_primary_ip d |}
  else d.

Definition set_primary_ip (dev ip : Z) (d : Device) : Device :=
  if (device_id d =? dev)%Z
  then {| device_id := device_id d; device_name := device_name d;
          device_site := device_site d; device_device_type := device_device_type d;
          device_role := device_role d; device_primary_ip4 := device_primary_ip4 d;
          device_primary_ip := Some ip |}
  else d.

Definition set_description (pfx : Z) (description : string) (p : Prefix) : Prefix :=
  if (prefix_id p =? pfx)%Z
  then {| prefix_id := prefix_id p; prefix_prefix := prefix_prefix p;
          prefix_site := prefix_site p; prefix_description := description;
          prefix_vrf := prefix_vrf p |}
  else p.

Definition with_groups (s : Store) (l : list Group) : Store :=
  {| groups_of := l; permissions_of := permissions_of s;
     content_types_of := content_types_of s; manufacturers_of := manufacturers_of s;
     roles_of := roles_of s; device_types_of := device_types_of s;
     sites_of := sites_of s; prefixes_of := prefixes_of s; devices_of := devices_of s;
     interfaces_of := interfaces_of s; ip_addresses_of := ip_addresses_of s |}.
Definition with_permissions (s : Store) (l : list Permission) : Store :=
  {| groups_of := groups_of s; permissions_of := l;
     content_types_of := content_types_of s; manufacturers_of := manufacturers_of s;
     roles_of := roles_of s; device_types_of := device_types_of s;
     sites_of := sites_of s; prefixes_of := prefixes_of s; devices_of := devices_of s;
     interfaces_of := interfaces_of s; ip_addresses_of := ip_addresses_of s |}.
Definition with_manufacturers (s : Store) (l : list Manufacturer) : Store :=
  {| groups_of := groups_of s; permissions_of := permissions_of s;
     content_types_of := content_types_of s; manufacturers_of := l;
     roles_of := roles_of s; device_types_of := device_types_of s;
     sites_of := sites_of s; prefixes_of := prefixes_of s; devices_of := devices_of s;
     interfaces_of := interfaces_of s; ip_addresses_of := ip_addresses_of s |}.
Definition with_roles (s : Store) (l : list Role) : Store :=
  {| groups_of := groups_of s; permissions_of := permissions_of s;
     content_types_of := content_types_of s; manufacturers_of := manufacturers_of s;
     roles_of := l; device_types_of := device_types_of s;
     sites_of := sites_of s; prefixes_of := prefixes_of s; devices_of := devices_of s;
     interfaces_of := interfaces_of s; ip_addresses_of := ip_addresses_of s |}.
Definition with_device_types (s : Store) (l : list DeviceType) : Store :=
  {| groups_of := groups_of s; permissions_of := permissions_of s;
     content_types_of := content_types_of s; manufacturers_of := manufacturers_of s;
     roles_of := roles_of s; device_types_of := l;
     sites_of := sites_of s; prefixes_of := prefixes_of s; devices_of := devices_of s;
     interfaces_of := interfaces_of s; ip_addresses_of := ip_addresses_of s |}.
Definition with_sites (s : Store) (l : list Site) : Store :=
  {| groups_of := groups_of s; permissions_of := permissions_of s;
     content_types_of := content_types_of s; manufacturers_of := manufacturers_of s;
     roles_of := roles_of s; device_types_of := device_types_of s;
     sites_of := l; prefixes_of := prefixes_of s; devices_of := devices_of s;
     interfaces_of := interfaces_of s; ip_addresses_of := ip_addresses_of s |}.
Definition with_prefixes (s : Store) (l : list Prefix) : Store :=
  {| groups_of := groups_of s; permissions_of := permissions_of s;
     content_types_of := content_types_of s; manufacturers_of := manufacturers_of s;
     roles_of := roles_of s; device_types_of := device_types_of s;
     sites_of := sites_of s; prefixes_of := l; devices_of := devices_of s;
     interfaces_of := interfaces_of s; ip_addresses_of := ip_addresses_of s |}.
Definition with_devices (s : Store) (l : list Device) : Store :=
  {| groups_of := groups_of s; permissions_of := permissions_of s;
     content_types_of := content_types_of s; manufacturers_of := manufacturers_of s;
     roles_of := roles_of s; device_types_of := device_types_of s;
     sites_of := sites_of s; prefixes_of := prefixes_of s; devices_of := l;
     interfaces_of := interfaces_of s; ip_addresses_of := ip_addresses_of s |}.
Definition with_interfaces (s : Store) (l : list Interface) : Store :=
  {| groups_of := groups_of s; permissions_of := permissions_of s;
     content_types_of := content_types_of s; manufacturers_of := manufacturers_of s;
     roles_of := roles_of s; device_types_of := device_types_of s;
     sites_of := sites_of s; prefixes_of := prefixes_of s; devices_of := devices_of s;
     interfaces_of := l; ip_addresses_of := ip_addresses_of s |}.
Definition with_ip_addresses (s : Store) (l : list IpAddress) : Store :=
  {| groups_of := groups_of s; permissions_of := permissions_of s;
     content_types_of := content_types_of s; manufacturers_of := manufacturers_of s;
     roles_of := roles_of s; device_types_of := device_types_of s;
     sites_of := sites_of s; prefixes_of := prefixes_of s; devices_of := devices_of s;
     interfaces_of := interfaces_of s; ip_addresses_of := l |}.

(** The store keeps a prefix and an address as texts: a request in which
    one of them is another value is not one that it accepts. *)
Definition well_formed (r : request) : bool :=
  match r with
  | CreatePrefix (JString _) _ _ | CreateIpAddress (JString _) _ _ => true
  | CreatePrefix _ _ _ | CreateIpAddress _ _ _ => false
  | _ => true
  end.

(** The store after a request it accepts, and the identifier of the record
    created or updated. *)
Definition apply_request (r : request) (s : Store) : Store * Z :=
  match r with
  | CreateGroup name =>
      let i := next_id (map group_id (groups_of s)) in
      (with_groups s (groups_of s ++ [{| group_id := i; group_name := name |}]), i)
  | CreatePermission name enabled groups actions object_types =>
      let i := next_id (map perm_id (permissions_of s)) in
      (with_permissions s
         (permissions_of s ++
            [{| perm_id := i; perm_name := name; perm_enabled := enabled;
                perm_groups := groups; perm_actions := actions;
                perm_object_types := object_types |}]), i)
  | CreateManufacturer name slug =>
      let i := next_id (map manuf_id (manufacturers_of s)) in
      (with_manufacturers s
         (manufacturers_of s ++
            [{| manuf_id := i; manuf_name := name; manuf_slug := slug |}]), i)
  | CreateRole name slug vm_role color =>
      let i := next_id (map role_id (roles_of s)) in
      (with_roles s
         (roles_of s ++
            [{| role_id := i; role_name := name; role_slug := slug;
                role_vm_role := vm_role; role_color := color |}]), i)
  | CreateDeviceType model slug manufacturer =>
      let i := next_id (map dtype_id (device_types_of s)) in
      (with_device_types s
         (device_types_of s ++
            [{| dtype_id := i; dtype_model := model; dtype_slug := slug;
                dtype_manufacturer := manufacturer |}]), i)
  | CreateSite name slug =>
      let i := next_id (map site_id (sites_of s)) in
      (with_sites s
         (sites_of s ++ [{| site_id := i; site_name := name; site_slug := slug |}]), i)
  | CreatePrefix prefix site description =>
      let i := next_id (map prefix_id (prefixes_of s)) in
      (with_prefixes s
         (prefixes_of s ++
            [{| prefix_id := i; prefix_prefix := text_of prefix; prefix_site := site;
                prefix_description := description; prefix_vrf := None |}]), i)
  | CreateDevice name site device_type role =>
      let i := next_id (map device_id (devices_of s)) in
      (with_devices s
         (devices_of s ++
            [{| device_id := i; device_name := name; device_site := site;
                device_device_type := device_type; device_role := role;
                device_primary_ip4 := None; device_primary_ip := None |}]), i)
  | CreateInterface device name type mac_address =>
      let i := next_id (map iface_id (interfaces_of s)) in
      (with_interfaces s
         (interfaces_of s ++
            [{| iface_id := i; iface_device := device; iface_name := name;
                iface_type := type; iface_mac_address := mac_address |}]), i)
  | CreateIpAddress address assigned_object_type assigned_object_id =>
      let i := next_id (map ip_id (ip_addresses_of s)) in
      (with_ip_addresses s
         (ip_addresses_of s ++
            [{| ip_id := i; ip_address := stored_address (text_of address);
                ip_assigned_object_type := assigned_object_type;
                ip_assigned_object_id := assigned_object_id |}]), i)
  | SavePrimaryIp4 device ip =>
      (with_devices s (map (set_primary_ip4 device ip) (devices_of s)), device)
  | SavePrimaryIp device ip =>
      (with_devices s (map (set_primary_ip device ip) (devices_of s)), device)
  | UpdatePrefixDescription prefix description =>
      (with_prefixes s (map (set_description prefix description) (prefixes_of s)), prefix)
  end%list.

(** *** What a run leaves behind, and the exceptions of the script *)

Inductive exn := RequestError | KeyError | TypeError | AttributeError.

Inductive event :=
| Requested (r : request) (accepted : bool)
| Warned (item : string)
| Failed (stage : string) (e : exn).

Record World := { store : Store; trace : list event; draws : nat }.

Inductive outcome (A : Type) :=
| Ok (a : A)
| Raise (e : exn).
Arguments Ok {A} a.
Arguments Raise {A} e.

Definition M (A : Type) := World -> outcome A * World.

Definition ret {A} (a : A) : M A := fun w => (Ok a, w).

Definition bind {A B} (m : M A) (f : A -> M B) : M B :=
  fun w => match m w with
           | (Ok a, w') => f a w'
           | (Raise e, w') => (Raise e, w')
           end.

Definition raise {A} (e : exn) : M A := fun w => (Raise e, w).

Declare Scope py_scope.
Delimit Scope py_scope with py.
Notation "x <- m ;; k" := (bind m (fun x => k))
  (at level 61, m at next level, right associativity) : py_scope.
Notation "m ;;; k" := (bind m (fun _ => k))
  (at level 61, right associativity) : py_scope.
Open Scope py_scope.

Definition emit (e : event) : M unit :=
  fun w => (Ok tt, {| store := store w; trace := (trace w ++ [e])%list; draws := draws w |}).

(** [try: m  except pynetbox.RequestError as nbe: logging.warning(...)] *)
Definition try_request (item : string) (m : M unit) : M unit :=
  fun w => match m w with
           | (Raise RequestError, w') => emit (Warned item) w'
           | r => r
           end.

(** [try: m  except Exception as e: logging.error(...)], around a stage whose
    result variable keeps [default] when the stage fails. *)
Definition try_stage {A} (stage : string) (default : A) (m : M A) : M A :=
  fun w => match m w with
           | (Raise e, w') => (x <- emit (Failed stage e) ;; ret default) w'
           | r => r
           end.

(** [for x in items: body(x)] *)
Fixpoint for_each {A} (items : list A) (body : A -> M unit) : M unit :=
  match items with
  | [] => ret tt
  | x :: rest => body x ;;; for_each rest body
  end.

(** A query answered from the store as it is *)
Definition read {A} (f : Store -> A) : M A := fun w => (Ok (f (store w)), w).

(** [d[k]] *)
Definition subscript {K V} (eqb : K -> K -> bool) (d : dict K V) (k : K) : M V :=
  match dict_get eqb k d with
  | Some v => ret v
  | None => raise KeyError
  end.

Definition lift_sort {A} (o : option A) : M A :=
  match o with
  | Some a => ret a
  | None => raise TypeError
  end.

(** [x.id if x else None] *)
Definition id_or_none {A} (id_of : A -> Z) (x : option A) : option Z :=
  option_map id_of x.

(** An element of the net map as the three loops read it: a JSON object,
    by its members ['type'], ['name'] and ['address'], or anything else.  The
    type and the name are texts, the empty text standing for a member that is
    missing (and for a type that is no text, which equals neither of the two
    words); the address is any JSON value, [JNull] when it is missing. *)
Inductive map_item :=
| Obj (type name : string) (address : json)
| NotAnObject.

Definition truthy (s : string) : bool := negb (s =? "")%string.

Record Host := { host_name : string; host_address : json }.
Record Segment := { segment_name : string; segment_address : json }.

Record Args :=
  { netboxSites : list string;
    manufacturers : list string;
    roles : list string;
    deviceTypes : list string;
    staffGroupName : string;
    defaultGroupName : string;
    netMapJson : option (list map_item) }.

(** An entry of [DEFAULT_PERMISSIONS] *)
Record PermConfig :=
  { pc_name : string; pc_enabled : bool; pc_groups : list string;
    pc_actions : list string; pc_exclude_objects : list string }.

Definition DEFAULT_PERMISSIONS (args : Args) : dict string PermConfig :=
  sdict_of
    [ (staffGroupName args ++ "_permission",
       {| pc_name := staffGroupName args ++ "_permission"; pc_enabled := true;
          pc_groups := [staffGroupName args];
          pc_actions := ["view"; "add"; "change"; "delete"];
          pc_exclude_objects := [] |});
      (defaultGroupName args ++ "_permission",
       {| pc_name := defaultGroupName args ++ "_permission"; pc_enabled := true;
          pc_groups := [defaultGroupName args];
          pc_actions := ["view"; "add"; "change"; "delete"];
          pc_exclude_objects :=
            ["admin.logentry"; "auth.group"; "auth.permission"; "auth.user";
             "users.admingroup"; "users.adminuser"; "users.objectpermission";
             "users.token"; "users.userconfig"] |}) ].

Definition mem_string (x : string) (l : list string) : bool :=
  existsb (String.eqb x) l.

(** The three list comprehensions over [get_iterable(netMapJson)]. *)
Definition segments_of (netMap : list map_item) : list Segment :=
  flat_map (fun x =>
    match x with
    | Obj type name address =>
        if (type =? "segment")%string && truthy name && is_ip_network address
        then [{| segment_name := name; segment_address := address |}]
        else []
    | NotAnObject => []
    end) netMap.

Definition new_hosts_of {V} (netMap : list map_item) (devicesPreExisting : dict string V)
  : list Host :=
  flat_map (fun x =>
    match x with
    | Obj type name address =>
        if (type =? "host")%string && truthy name && truthy_value address
           && negb (sdict_mem name devicesPreExisting)
        then [{| host_name := name; host_address := address |}]
        else []
    | NotAnObject => []
    end) netMap.

Definition ip_hosts_of {V} (netMap : list map_item) (devices : dict string V)
  : list Host :=
  flat_map (fun x =>
    match x with
    | Obj type name address =>
        if (type =? "host")%string && truthy name && is_ip_address address
           && sdict_mem name devices
        then [{| host_name := name; host_address := address |}]
        else []
    | NotAnObject => []
    end) netMap.

Section Main.

(** [slugify], the colours of [randColor.generate()] by draw, what the
    store turns down, and [<] on the records of the client library. *)
Variable slugify : string -> string.
Variable rand_color : nat -> string.
Variable rejects : Store -> request -> bool.
Variable manufacturer_lt : Manufacturer -> Manufacturer -> option bool.
Variable site_lt : Site -> Site -> option bool.
Variable device_type_lt : DeviceType -> DeviceType -> option bool.
Variable role_lt : Role -> Role -> option bool.

(** A [create], [save] or [update]: [pynetbox.RequestError] when the store
    turns the request down, as it does when the request is not well formed,
    else the identifier of the record. *)
Definition send (r : request) : M Z :=
  fun w =>
    if rejects (store w) r || negb (well_formed r)
    then (Raise RequestError,
          {| store := store w; trace := (trace w ++ [Requested r false])%list;
             draws := draws w |})
    else let (s', i) := apply_request r (store w) in
         (Ok i, {| store := s'; trace := (trace w ++ [Requested r true])%list;
                   draws := draws w |}).

(** [randColor.generate()[0][1:]] *)
Definition generate_color : M string :=
  fun w => (Ok (rand_color (draws w)),
            {| store := store w; trace := trace w; draws := S (draws w) |}).

(** [{x.name: x for x in nb.<app>.<endpoint>.all()}] *)
Definition fetch {R} (all : Store -> list R) (key : R -> string) : M (dict string R) :=
  read (fun s => sdict_of (map (fun x => (key x, x)) (all s))).

Definition missing {V} (requested : list string) (preExisting : dict string V)
  : list string :=
  filter (fun x => negb (sdict_mem x preExisting)) requested.

(** GROUPS, lines 517 to 537 *)
Definition groups_stage (args : Args) : M (dict string Group) :=
  groupsPreExisting <- fetch groups_of group_name ;;
  for_each (missing [staffGroupName args; defaultGroupName args] groupsPreExisting)
    (fun groupName =>
       try_request groupName (x <- send (CreateGroup groupName) ;; ret tt)) ;;;
  fetch groups_of group_name.

(** [[groups[x].id for x in permConfig['groups']]] *)
Fixpoint group_ids (groups : dict string Group) (names : list string) : M (list Z) :=
  match names with
  | [] => ret []
  | x :: rest =>
      g <- subscript String.eqb groups x ;;
      ids <- group_ids groups rest ;;
      ret (group_id g :: ids)
  end.

(** PERMISSIONS, lines 539 to 603 *)
Definition permissions_stage (args : Args) (groups : dict string Group)
  : M (dict string Permission) :=
  allContentTypeNames <-
    read (fun s => map (fun x => app_label x ++ "." ++ ct_model x) (content_types_of s)) ;;
  permsPreExisting <- fetch permissions_of perm_name ;;
  for_each
    (filter (fun kv => truthy (pc_name (snd kv))
                       && negb (sdict_mem (pc_name (snd kv)) permsPreExisting))
            (DEFAULT_PERMISSIONS args))
    (fun kv =>
       let permConfig := snd kv in
       ids <- group_ids groups (pc_groups permConfig) ;;
       let object_types :=
         filter (fun ct => negb (mem_string ct (pc_exclude_objects permConfig)))
                allContentTypeNames in
       try_request (pc_name permConfig)
         (x <- send (CreatePermission (pc_name permConfig) (pc_enabled permConfig)
                       ids (pc_actions permConfig) object_types) ;; ret tt)) ;;;
  fetch permissions_of perm_name.

(** MANUFACTURERS, lines 605 to 625 *)
Definition manufacturers_stage (args : Args) : M (dict string Manufacturer) :=
  manufacturersPreExisting <- fetch manufacturers_of manuf_name ;;
  for_each (missing (manufacturers args) manufacturersPreExisting)
    (fun manufacturerName =>
       try_request manufacturerName
         (x <- send (CreateManufacturer manufacturerName (slugify manufacturerName)) ;;
          ret tt)) ;;;
  fetch manufacturers_of manuf_name.

(** ROLES, lines 627 to 649 *)
Definition roles_stage (args : Args) : M (dict string Role) :=
  rolesPreExisting <- fetch roles_of role_name ;;
  for_each (missing (roles args) rolesPreExisting)
    (fun roleName =>
       try_request roleName
         (color <- generate_color ;;
          x <- send (CreateRole roleName (slugify roleName) true color) ;;
          ret tt)) ;;;
  fetch roles_of role_name.

(** DEVICE TYPES, lines 651 to 673 *)
Definition device_types_stage (args : Args) (manufacturers : dict string Manufacturer)
  : M (dict string DeviceType) :=
  deviceTypesPreExisting <- fetch device_types_of dtype_model ;;
  for_each (missing (deviceTypes args) deviceTypesPreExisting)
    (fun deviceTypeModel =>
       try_request deviceTypeModel
         (manuf <- lift_sort (min_hash_value_by_value manufacturer_lt manufacturers) ;;
          x <- send (CreateDeviceType deviceTypeModel (slugify deviceTypeModel)
                       (id_or_none manuf_id manuf)) ;;
          ret tt)) ;;;
  fetch device_types_of dtype_model.

(** SITES, lines 675 to 695 *)
Definition sites_stage (args : Args) : M (dict string Site) :=
  sitesPreExisting <- fetch sites_of site_name ;;
  for_each (missing (netboxSites args) sitesPreExisting)
    (fun siteName =>
       try_request siteName
         (x <- send (CreateSite siteName (slugify siteName)) ;; ret tt)) ;;;
  fetch sites_of site_name.

(** Net map, the prefixes: lines 705 to 733.  [prefixesPreExisting] is
    fetched and logged, and not used to select the segments. *)
Definition prefixes_stage (netMap : list map_item) (sites : dict string Site)
  : M (dict string Prefix) :=
  prefixesPreExisting <- fetch prefixes_of prefix_prefix ;;
  for_each (segments_of netMap)
    (fun segment =>
       try_request (format (segment_address segment))
         (site <- lift_sort (min_hash_value_by_value site_lt sites) ;;
          x <- send (CreatePrefix (segment_address segment) (id_or_none site_id site)
                       (segment_name segment)) ;;
          ret tt)) ;;;
  fetch prefixes_of prefix_prefix.

(** The body of the loop over the new hosts, lines 748 to 781 *)
Definition create_device (sites : dict string Site)
           (deviceTypes : dict string DeviceType) (roles : dict string Role)
           (host : Host) : M unit :=
  try_request (host_name host)
    (site <- lift_sort (min_hash_value_by_value site_lt sites) ;;
     dType <- lift_sort (min_hash_value_by_value device_type_lt deviceTypes) ;;
     role <- lift_sort (min_hash_value_by_value role_lt roles) ;;
     deviceCreated <- send (CreateDevice (host_name host) (id_or_none site_id site)
                              (id_or_none dtype_id dType) (id_or_none role_id role)) ;;
     if is_ip_address (host_address host) then
       x <- send (CreateInterface deviceCreated "default" "other" None) ;; ret tt
     else
       match host_address host with
       | JString address =>
           if re_mac (lower address) then
             x <- send (CreateInterface deviceCreated "default" "other"
                          (Some (lower address))) ;; ret tt
           else ret tt
       | _ => raise AttributeError
       end).

(** Net map, the devices and their interfaces: lines 735 to 786 *)
Definition devices_stage (netMap : list map_item) (sites : dict string Site)
           (deviceTypes : dict string DeviceType) (roles : dict string Role)
  : M (dict string Device * dict Z Interface) :=
  devicesPreExisting <- fetch devices_of device_name ;;
  for_each (new_hosts_of netMap devicesPreExisting)
           (create_device sites deviceTypes roles) ;;;
  devices <- fetch devices_of device_name ;;
  interfaces <-
    read (fun s => dict_of Z.eqb (map (fun x => (iface_device x, x)) (interfaces_of s))) ;;
  ret (devices, interfaces).

(** [nb.dcim.devices.get(id=...)] *)
Definition get_device (i : Z) : M (option Device) :=
  read (fun s => find (fun d => (device_id d =? i)%Z) (devices_of s)).

(** The body of the loop over the hosts with an IP address, lines 801 to 822 *)
Definition create_ip_address (devices : dict string Device)
           (interfaces : dict Z Interface)
           (ipAddressesPreExisting : dict string IpAddress) (host : Host) : M unit :=
  try_request (format (host_address host))
    (let hostKey :=
       format (host_address host) ++ "/"
         ++ (if is_ip_v4_address (host_address host) then "32" else "128") in
     if negb (sdict_mem hostKey ipAddressesPreExisting) then
       device <- subscript String.eqb devices (host_name host) ;;
       interface <- subscript Z.eqb interfaces (device_id device) ;;
       ipCreated <- send (CreateIpAddress (host_address host) "dcim.interface"
                            (iface_id interface)) ;;
       device' <- subscript String.eqb devices (host_name host) ;;
       deviceForIp <- get_device (device_id device') ;;
       match deviceForIp with
       | Some d =>
           if is_ip_v4_address (host_address host) then
             x <- send (SavePrimaryIp4 (device_id d) ipCreated) ;; ret tt
           else if is_ip_v6_address (host_address host) then
             x <- send (SavePrimaryIp (device_id d) ipCreated) ;; ret tt
           else ret tt
       | None => ret tt
       end
     else ret tt).

(** Net map, the addresses: lines 788 to 825 *)
Definition ip_addresses_stage (netMap : list map_item) (devices : dict string Device)
           (interfaces : dict Z Interface) : M (dict string IpAddress) :=
  ipAddressesPreExisting <- fetch ip_addresses_of ip_address ;;
  for_each (ip_hosts_of netMap devices)
           (create_ip_address devices interfaces ipAddressesPreExisting) ;;;
  fetch ip_addresses_of ip_address.

(** Net map, lines 697 to 828, for the content of the file when there is
    one. *)
Definition net_map_stage (args : Args) (sites : dict string Site)
           (deviceTypes : dict string DeviceType) (roles : dict string Role) : M unit :=
  match netMapJson args with
  | Some netMap =>
      prefixes <- prefixes_stage netMap sites ;;
      di <- devices_stage netMap sites deviceTypes roles ;;
      ipAddresses <- ip_addresses_stage netMap (fst di) (snd di) ;;
      ret tt
  | None => ret tt
  end.

(** [nb.ipam.prefixes.filter(description__empty=True)] with [x.vrf] *)
Definition prefixes_to_migrate : M (list Prefix) :=
  read (fun s =>
          filter (fun x => negb (truthy (prefix_description x))
                           && match prefix_vrf x with Some _ => true | None => false end)
                 (prefixes_of s)).

(** Prefix descriptions from VRF names, lines 830 to 841 *)
Definition vrf_stage : M unit :=
  todo <- prefixes_to_migrate ;;
  for_each todo
    (fun prefix =>
       x <- send (UpdatePrefixDescription (prefix_id prefix)
                    (match prefix_vrf prefix with Some v => v | None => "" end)) ;;
       ret tt).

(** [main], lines 488 to 841: the population through the API, which runs
    when no database backup was loaded.  The store is taken to answer
    (the wait loop of lines 508 to 515 has ended). *)
Definition main (args : Args) : M unit :=
  groups <- try_stage "groups" [] (groups_stage args) ;;
  permissions <- try_stage "permissions" [] (permissions_stage args groups) ;;
  manufacturers <- try_stage "manufacturers" [] (manufacturers_stage args) ;;
  roles <- try_stage "roles" [] (roles_stage args) ;;
  deviceTypes <- try_stage "device types" [] (device_types_stage args manufacturers) ;;
  sites <- try_stage "sites" [] (sites_stage args) ;;
  try_stage "net map" tt (net_map_stage args sites deviceTypes roles) ;;;
  try_stage "prefix descriptions" tt vrf_stage.

End Main.

End Netbox.

Import Text Recipe Ipaddress Netbox.

(** ** Vocabulary of the properties *)

(** A text without line boundary: what a line of [splitlines] is. *)
Definition no_break (s : string) : Prop :=
  forall c, contains_char c s = true -> is_linebreak c = false.

Fixpoint has_break (s : string) : bool :=
  match s with
  | "" => false
  | String c rest => is_linebreak c || has_break rest
  end.

(** A blank line in the words of the specification: nothing but white space,
    and possibly nothing at all. *)
Definition blank_line (l : string) : bool := all_space l.

Definition doc_with_empty_line : string :=
  "a:" ++ String LF (String LF ("b:" ++ String LF "")).

Definition doc_with_placeholder : string :=
  "steps:" ++ String LF ("   __EXTRA_ROOT_SHELL_CMDS__" ++ String LF "end").

(** The order of the entries of a mapping from names to numbers. *)
Definition le_value (a b : string * Z) : Prop := (snd a <= snd b)%Z.

Definition lt_value (a b : string * Z) : option bool := int_lt (snd a) (snd b).

Definition ids_example : dict string Z := [("HQ", 7%Z); ("lab", 3%Z); ("dmz", 5%Z)].

(** *** Runs of [main] *)

(** A relation that every step of a computation keeps. *)
Definition step (R : World -> World -> Prop) {A : Type} (m : M A) : Prop :=
  forall w, R w (snd (m w)).

(** [w'] comes after [w]: its trace is that of [w] and then [evs]. *)
Definition emitted (w w' : World) (evs : list event) : Prop :=
  trace w' = (trace w ++ evs)%list.

(** The events between two worlds all satisfy [P], and the stores are related
    by [Q]. *)
Definition runs (P : event -> Prop) (Q : Store -> Store -> Prop) (w w' : World) : Prop :=
  Q (store w) (store w') /\ exists evs, emitted w w' evs /\ Forall P evs.

Definition any_event (e : event) : Prop := True.

Definition no_device_request (e : event) : Prop :=
  match e with
  | Requested (CreateDevice _ _ _ _) _ => False
  | _ => True
  end.


(** The warnings and errors of the log. *)
Definition is_log (e : event) : Prop :=
  match e with
  | Requested _ _ => False
  | _ => True
  end.

(** One of the identifiers of the mapping's records, or [None]. *)
Definition filler_ref {R : Type} (id_of : R -> Z) (d : dict string R) (o : option Z) : Prop :=
  o = None \/ exists k v, In (k, v) d /\ o = Some (id_of v).

(** A reference is [None] or one of the identifiers. *)
Definition ref_within (ids : list Z) (o : option Z) : Prop :=
  match o with
  | Some i => In i ids
  | None => True
  end.

(** A request for a device refers to sites, device types and roles of [s]
    only. *)
Definition device_refs_within (s : Store) (e : event) : Prop :=
  match e with
  | Requested (CreateDevice _ site device_type role) _ =>
      ref_within (map site_id (sites_of s)) site
      /\ ref_within (map dtype_id (device_types_of s)) device_type
      /\ ref_within (map role_id (roles_of s)) role
  | _ => True
  end.

(** No site, device type or role goes away. *)
Definition grows (s s' : Store) : Prop :=
  incl (sites_of s) (sites_of s')
  /\ incl (device_types_of s) (device_types_of s')
  /\ incl (roles_of s) (roles_of s').

(** The values of a dictionary are records of the list. *)
Definition dict_within {R : Type} (d : dict string R) (l : list R) : Prop :=
  forall k v, In (k, v) d -> In v l.

(** A computation that returns a mapping of records of the store it leaves. *)
Definition ends_within {R : Type} (all : Store -> list R) (m : M (dict string R)) : Prop :=
  forall w d w', m w = (Ok d, w') -> dict_within d (all (store w')).

(** The store holds what an accepted creation asked for. *)
Definition stored (r : request) (s : Store) : Prop :=
  match r with
  | CreateGroup name => exists x, In x (groups_of s) /\ group_name x = name
  | CreatePermission name _ _ _ _ => exists x, In x (permissions_of s) /\ perm_name x = name
  | CreateManufacturer name slug =>
      exists x, In x (manufacturers_of s) /\ manuf_name x = name /\ manuf_slug x = slug
  | CreateRole name slug _ _ =>
      exists x, In x (roles_of s) /\ role_name x = name /\ role_slug x = slug
  | CreateDeviceType model slug manufacturer =>
      exists x, In x (device_types_of s) /\ dtype_model x = model /\ dtype_slug x = slug
                /\ dtype_manufacturer x = manufacturer
  | CreateSite name slug =>
      exists x, In x (sites_of s) /\ site_name x = name /\ site_slug x = slug
  | CreatePrefix prefix site _ =>
      exists x, In x (prefixes_of s) /\ prefix_prefix x = text_of prefix
                /\ prefix_site x = site
  | CreateDevice name site device_type role =>
      exists x, In x (devices_of s) /\ device_name x = name /\ device_site x = site
                /\ device_device_type x = device_type /\ device_role x = role
  | CreateInterface device name type mac_address =>
      exists x, In x (interfaces_of s) /\ iface_device x = device /\ iface_name x = name
                /\ iface_type x = type /\ iface_mac_address x = mac_address
  | CreateIpAddress address assigned_object_type assigned_object_id =>
      exists x, In x (ip_addresses_of s) /\ ip_address x = stored_address (text_of address)
                /\ ip_assigned_object_type x = assigned_object_type
                /\ ip_assigned_object_id x = assigned_object_id
  | SavePrimaryIp4 _ _ | SavePrimaryIp _ _ | UpdatePrefixDescription _ _ => True
  end.

(** What was stored stays, and what the events say was accepted is stored. *)
Definition persists (w w' : World) : Prop :=
  (forall r, stored r (store w) -> stored r (store w'))
  /\ exists evs, emitted w w' evs
                 /\ forall r, In (Requested r true) evs -> stored r (store w').

Section Stages.
Variable slugify : string -> string.
Variable rand_color : nat -> string.
Variable rejects : Store -> request -> bool.
Variable manufacturer_lt : Manufacturer -> Manufacturer -> option bool.
Variable site_lt : Site -> Site -> option bool.
Variable device_type_lt : DeviceType -> DeviceType -> option bool.
Variable role_lt : Role -> Role -> option bool.

(** The stages of [main] before the net map, and the three mappings they
    leave to it. *)
Definition catalog_stages (args : Args)
  : M (dict string Site * dict string DeviceType * dict string Role) :=
  groups <- try_stage "groups" [] (groups_stage rejects args) ;;
  permissions <- try_stage "permissions" [] (permissions_stage rejects args groups) ;;
  manufacturers <- try_stage "manufacturers" []
                     (manufacturers_stage slugify rejects args) ;;
  roles <- try_stage "roles" [] (roles_stage slugify rand_color rejects args) ;;
  deviceTypes <- try_stage "device types" []
                   (device_types_stage slugify rejects manufacturer_lt args manufacturers) ;;
  sites <- try_stage "sites" [] (sites_stage slugify rejects args) ;;
  ret (sites, deviceTypes, roles).

(** The world in which the loop over the hosts starts, with the three
    mappings: after the stages before the net map and its prefixes.  [None]
    when there is no net map or the prefixes fail, and no device is asked
    for. *)
Definition world_before_devices (args : Args) (w : World)
  : option (dict string Site * dict string DeviceType * dict string Role * World) :=
  match catalog_stages args w, netMapJson args with
  | (Ok (sites, deviceTypes, roles), w1), Some netMap =>
      match prefixes_stage rejects site_lt netMap sites w1 with
      | (Ok _, w2) => Some (sites, deviceTypes, roles, w2)
      | (Raise _, _) => None
      end
  | _, _ => None
  end.
End Stages.

(** The mapping that [fetch] returns in a store. *)
Definition index_of {R : Type} (all : Store -> list R) (key : R -> string) (s : Store)
  : dict string R :=
  sdict_of (map (fun x => (key x, x)) (all s)).

(** Every item of the batch has a request among the events. *)
Definition all_attempted {A : Type} (items : list A) (req : A -> request -> Prop)
           (evs : list event) : Prop :=
  forall x, In x items -> exists r ok, req x r /\ In (Requested r ok) evs.

(** What the events say was accepted is in the store. *)
Definition accepted_stored (evs : list event) (s : Store) : Prop :=
  forall r, In (Requested r true) evs -> stored r s.


(** What the proofs about a relation [R] between worlds rest on: it is
    reflexive and transitive, and logging, drawing a colour and the requests of
    [sendable] keep it. *)
Record step_facts (rand_color : nat -> string) (rejects : Store -> request -> bool)
       (R : World -> World -> Prop) (sendable : request -> Prop) : Prop :=
  { sf_refl : forall w, R w w;
    sf_trans : forall a b c, R a b -> R b c -> R a c;
    sf_log : forall e w, is_log e -> R w (snd (emit e w));
    sf_draw : forall w, R w (snd (generate_color rand_color w));
    sf_send : forall r w, sendable r -> R w (snd (send rejects r w)) }.

(** *** Instances for the examples *)

(** A store that turns nothing down. *)
Definition accept_all (s : Store) (r : request) : bool := false.

Definition one_color (n : nat) : string := "2e8b57".

(** Records in the order of their identifiers. *)
Definition by_id {R : Type} (id_of : R -> Z) (a b : R) : option bool :=
  Some (id_of a <? id_of b)%Z.

(** [main] with [str.lower] standing in for [slugify]. *)
Definition run_main (rejects : Store -> request -> bool) (args : Args) (w : World) : World :=
  snd (main lower one_color rejects (by_id manuf_id) (by_id site_id) (by_id dtype_id)
            (by_id role_id) args w).

Definition empty_store : Store :=
  {| groups_of := []; permissions_of := []; content_types_of := [];
     manufacturers_of := []; roles_of := []; device_types_of := []; sites_of := [];
     prefixes_of := []; devices_of := []; interfaces_of := []; ip_addresses_of := [] |}.

Definition start (s : Store) : World := {| store := s; trace := []; draws := 0 |}.

Definition host_item (name : string) (address : json) : map_item :=
  Obj "host" name address.

Definition segment_item (name : string) (address : json) : map_item :=
  Obj "segment" name address.

Definition args_with (netMap : list map_item) : Args :=
  {| netboxSites := []; manufacturers := []; roles := []; deviceTypes := [];
     staffGroupName := "administrator"; defaultGroupName := "standard";
     netMapJson := Some netMap |}.



(** A store with one site, one device type and one role. *)
Definition seeded_store : Store :=
  {| groups_of := []; permissions_of := []; content_types_of := [];
     manufacturers_of := [];
     roles_of := [{| role_id := 1; role_name := "Sensor"; role_slug := "sensor";
                     role_vm_role := true; role_color := "2e8b57" |}];
     device_types_of := [{| dtype_id := 1; dtype_model := "Model-X";
                            dtype_slug := "model-x"; dtype_manufacturer := None |}];
     sites_of := [{| site_id := 1; site_name := "HQ"; site_slug := "hq" |}];
     prefixes_of := []; devices_of := []; interfaces_of := []; ip_addresses_of := [] |}.







(** A store that holds exactly one site, one device type and one role. *)
Definition one_of_each (st : Site) (dt : DeviceType) (ro : Role) : Store :=
  with_roles (with_device_types (with_sites empty_store [st]) [dt]) [ro].

Definition store_with_prefix : Store :=
  with_prefixes seeded_store
    [{| prefix_id := 1; prefix_prefix := "10.0.0.0/8"; prefix_site := Some 1%Z;
        prefix_description := "lan"; prefix_vrf := None |}].

Definition one_segment : list map_item := [segment_item "lan" "10.0.0.0/8"].

(** The identity key that the store gives to the record of a creation (a
    request that is not well formed creates no record). *)
Definition creates_key (r : request) : option string :=
  match r with
  | CreateGroup name | CreatePermission name _ _ _ _ | CreateManufacturer name _
  | CreateRole name _ _ _ | CreateSite name _ | CreateDevice name _ _ _ => Some name
  | CreateDeviceType model _ _ => Some model
  | CreatePrefix (JString prefix) _ _ => Some prefix
  | CreateIpAddress (JString address) _ _ => Some (stored_address address)
  | _ => None
  end.

(** A request that creates a record with a key creates one that the mapping
    does not hold. *)
Definition fresh_for {V : Type} (index : dict string V) (e : event) : Prop :=
  match e with
  | Requested r _ =>
      match creates_key r with
      | Some k => sdict_mem k index = false
      | None => True
      end
  | _ => True
  end.

(** [hostKey] of the address loop *)
Definition host_key (address : json) : string :=
  format address ++ "/" ++ (if is_ip_v4_address address then "32" else "128").

(** The claim of C10 read to the letter: somewhere on the line the pattern
    comes right after a white space character. *)
Definition preceded_by_space (pattern line : string) : Prop :=
  exists before c after,
    line = before ++ String c (pattern ++ after) /\ isspace c = true.

Definition doc_with_inline_placeholder : string :=
  "key: __B__" ++ String LF "  __B__".

(** ** netbox_init.py: the other helpers *)

(** [<] on [str]: by code point, a proper prefix before the longer text. *)
Definition str_lt (a b : string) : option bool := Some (String.ltb a b).

(** [min_hash_value_by_key(x)], lines 85 to 89: as
    [min_hash_value_by_value], with the items sorted by [item[0]]. *)
Definition min_hash_value_by_key {V} (lt : string -> string -> option bool)
           (x : dict string V) : option (option V) :=
  match sorted (fun item1 item2 => lt (fst item1) (fst item2)) x with
  | None => None
  | Some items => Some (hd_error (dict_values (sdict_of items)))
  end.

(** [*_, last = iter(l)]: [None] stands for the [ValueError] of an empty
    list. *)
Fixpoint unpack_last {A} (l : list A) : option A :=
  match l with
  | [] => None
  | [a] => Some a
  | _ :: l' => unpack_last l'
  end.

(** [max_hash_value_by_value(x)], lines 92 to 97.  The [try] is around the
    sort and the unpacking: a [TypeError] of the sort and the [ValueError] of
    the empty mapping both end in [last = None]. *)
Definition max_hash_value_by_value {V} (lt : V -> V -> option bool)
           (x : dict string V) : option V :=
  match sorted (fun item1 item2 => lt (snd item1) (snd item2)) x with
  | None => None
  | Some items => unpack_last (dict_values (sdict_of items))
  end.

(** [max_hash_value_by_key(x)], lines 100 to 105 *)
Definition max_hash_value_by_key {V} (lt : string -> string -> option bool)
           (x : dict string V) : option V :=
  match sorted (fun item1 item2 => lt (fst item1) (fst item2)) x with
  | None => None
  | Some items => unpack_last (dict_values (sdict_of items))
  end.

(** A [<] that raises for every pair: records that cannot be ordered. *)
Definition unorderable {A : Type} (lt : A -> A -> option bool) : Prop :=
  forall a b, lt a b = None.

Definition never_lt {A : Type} (a b : A) : option bool := None.

(** The order of the names. *)
Definition str_le (a b : string) : Prop := String.ltb b a = false.

(** [get_iterable(x)], lines 39 to 43, by what a loop over the result
    yields: the items of a list, the keys of an object, and the value itself
    for the one-element tuple around anything else. *)
Definition get_iterable (x : json) : list json :=
  match x with
  | JArray items => items
  | JObject members => map (fun kv => JString (fst kv)) (dict_of String.eqb members)
  | _ => [x]
  end.

(** [isinstance(x, dict)] *)
Definition is_dict (x : json) : bool :=
  match x with
  | JObject _ => true
  | _ => false
  end.

(** [x.get(k, None)] on the dict that [json.load] makes of a JSON object *)
Definition member (k : string) (members : list (string * json)) : json :=
  match dict_get String.eqb k (dict_of String.eqb members) with
  | Some v => v
  | None => JNull
  end.

(** The element that the three loops see in a value of the iteration.  A
    type that is no text equals neither of the two words, as the empty text;
    a name that is no text and is false for Python is passed over, as the
    empty text.  [None] stands for an object whose name is no text and is
    true for Python, which the model of the loops does not cover. *)
Definition element_of (x : json) : option map_item :=
  match x with
  | JObject members =>
      match member "name" members with
      | JString name =>
          Some (Obj (text_of (member "type" members)) name (member "address" members))
      | name =>
          if truthy_value name then None
          else Some (Obj (text_of (member "type" members)) "" (member "address" members))
      end
  | _ => Some NotAnObject
  end.

Fixpoint elements_of (l : list json) : option (list map_item) :=
  match l with
  | [] => Some []
  | x :: rest =>
      match element_of x, elements_of rest with
      | Some item, Some items => Some (item :: items)
      | _, _ => None
      end
  end.

(** The elements of the net map, for the content of the file. *)
Definition net_map_items (netMapJson : json) : option (list map_item) :=
  elements_of (get_iterable netMapJson).

(** A net-map file that holds one host, and not a list of hosts. *)
Definition single_host_object : json :=
  JObject [("type", JString "host"); ("name", JString "h1");
           ("address", JString "10.0.0.1")].

Definition args_of_json (netMap : json) : Args :=
  {| netboxSites := []; manufacturers := []; roles := []; deviceTypes := [];
     staffGroupName := "administrator"; defaultGroupName := "standard";
     netMapJson := net_map_items netMap |}.

(** The text [addr/mask] *)
Definition with_mask (addr mask : string) : string := addr ++ "/" ++ mask.

(** *** The store over a whole run *)

(** [l'] is [l] with records added at its end. *)
Definition extends {A : Type} (l l' : list A) : Prop := exists new, l' = (l ++ new)%list.

(** What the script never changes in a device, and in a prefix. *)
Definition device_identity (d : Device) : Z * string * option Z * option Z * option Z :=
  (device_id d, device_name d, device_site d, device_device_type d, device_role d).

Definition prefix_identity (p : Prefix) : Z * string * option Z * option string :=
  (prefix_id p, prefix_prefix p, prefix_site p, prefix_vrf p).

(** Every collection of [s'] begins with the collection of [s]; of the
    records of [s], only the primary addresses of a device and the
    description of a prefix may differ. *)
Definition append_only (s s' : Store) : Prop :=
  extends (groups_of s) (groups_of s')
  /\ extends (permissions_of s) (permissions_of s')
  /\ content_types_of s' = content_types_of s
  /\ extends (manufacturers_of s) (manufacturers_of s')
  /\ extends (roles_of s) (roles_of s')
  /\ extends (device_types_of s) (device_types_of s')
  /\ extends (sites_of s) (sites_of s')
  /\ extends (map prefix_identity (prefixes_of s)) (map prefix_identity (prefixes_of s'))
  /\ extends (map device_identity (devices_of s)) (map device_identity (devices_of s'))
  /\ extends (interfaces_of s) (interfaces_of s')
  /\ extends (ip_addresses_of s) (ip_addresses_of s').

(** The interfaces are those of the devices, in their order, at most one for
    a device. *)
Inductive one_each : list Device -> list Interface -> Prop :=
| one_each_nil : one_each [] []
| one_each_with d ds i ifs :
    iface_device i = device_id d -> one_each ds ifs -> one_each (d :: ds) (i :: ifs)
| one_each_without d ds ifs : one_each ds ifs -> one_each (d :: ds) ifs.

(** Between two worlds devices were added, and interfaces for them. *)
Definition paired (w w' : World) : Prop :=
  exists ds ifs,
    devices_of (store w') = (devices_of (store w) ++ ds)%list
    /\ interfaces_of (store w') = (interfaces_of (store w) ++ ifs)%list
    /\ one_each ds ifs.

(** The MAC address of the interface that the device loop asks for. *)
Definition interface_mac (address : json) : option string :=
  match classify address with
  | IsMac => Some (lower (text_of address))
  | _ => None
  end.



(** The identifiers that the mapping gives for the groups of these names. *)
Definition ids_of_groups (groups : dict string Group) (names : list string) : list Z :=
  flat_map (fun x => match sdict_get x groups with
                     | Some g => [group_id g]
                     | None => []
                     end) names.

(** The content types that a permission is asked for, lines 591 to 593: those
    that the store lists, but for the excluded ones. *)
Definition object_types_of (s : Store) (permConfig : PermConfig) : list string :=
  filter (fun ct => negb (mem_string ct (pc_exclude_objects permConfig)))
         (map (fun x => app_label x ++ "." ++ ct_model x) (content_types_of s)).

(** The entries of [DEFAULT_PERMISSIONS] that the permission loop takes. *)
Definition permissions_to_create {V : Type} (args : Args) (pre : dict string V)
  : list (string * PermConfig) :=
  filter (fun kv => truthy (pc_name (snd kv)) && negb (sdict_mem (pc_name (snd kv)) pre))
         (DEFAULT_PERMISSIONS args).

(** ** generate-recipe.py: from the arguments to the file *)

(** [str.replace(old, new)] for an [old] that is not empty: the occurrences
    are found from the left and do not overlap.  [skip] counts the characters
    of an occurrence that are still to be passed over. *)
Fixpoint replace_from (old new : string) (skip : nat) (s : string) : string :=
  match s with
  | "" => ""
  | String c rest =>
      match skip with
      | S k => replace_from old new k rest
      | O =>
          if startswith old s
          then new ++ replace_from old new (String.length old - 1) rest
          else String c (replace_from old new 0 rest)
      end
  end.

(** [s.replace('', new)]: [new] before every character and at the end. *)
Fixpoint interleave (new s : string) : string :=
  match s with
  | "" => new
  | String c rest => new ++ String c (interleave new rest)
  end.

Definition str_replace (old new s : string) : string :=
  if (old =? "")%string then interleave new s else replace_from old new 0 s.

(** [p in s] *)
Fixpoint occurs (p s : string) : bool :=
  startswith p s
  || match s with
     | "" => false
     | String _ rest => occurs p rest
     end.

(** The double quote, and a text between two of them. *)
Definition dq : string := String (ascii_of_nat 34) "".

Definition quoted (s : string) : string := dq ++ s ++ dq.

(** [s.endswith(suffix)] *)
Definition endswith (suffix s : string) : bool :=
  (String.length suffix <=? String.length s)%nat
  && (substring (String.length s - String.length suffix) (String.length suffix) s
      =? suffix)%string.

(** [os.path.join(a, b)] *)
Definition path_join (a b : string) : string :=
  if startswith "/" b then b
  else if (a =? "")%string || endswith "/" a then a ++ b
  else a ++ "/" ++ b.

Definition VERSIONS : list string := ["1"; "2"; "3"; "4"].

Definition SUITES : list string := ["bullseye"; "bookworm"; "trixie"].

Definition target_yaml (version suite : string) : string :=
  "raspi_" ++ version ++ "_" ++ suite ++ ".yaml".

(** Lines 35 to 46: [arch], [linux] and [dtb], which no branch binds for
    another version. *)
Definition arch_linux_dtb (version : string) : option (string * string * string) :=
  if (version =? "1")%string then
    Some ("armel", "linux-image-rpi", "/usr/lib/linux-image-*-rpi/bcm*rpi-*.dtb")
  else if (version =? "2")%string then
    Some ("armhf", "linux-image-armmp", "/usr/lib/linux-image-*-armmp/bcm*rpi*.dtb")
  else if mem_string version ["3"; "4"] then
    Some ("arm64", "linux-image-arm64",
          "/usr/lib/linux-image-*-arm64/broadcom/bcm*rpi*.dtb")
  else None.

Definition firmware_component (suite : string) : string :=
  if negb (suite =? "bullseye")%string then "non-free-firmware" else "non-free".

Definition firmware_component_old (suite : string) : string :=
  if negb (suite =? "bullseye")%string then "non-free" else "".

Definition wireless_firmware (version : string) : string :=
  if negb (version =? "2")%string then "firmware-brcm80211" else "".

Definition bluetooth_firmware (version : string) : string :=
  if negb (version =? "2")%string then "bluez-firmware" else "".

Definition backports_suite (suite : string) : string := suite ++ "-backports".

(** Lines 77 to 80 *)
Definition serial (version : string) : option string :=
  if mem_string version ["1"; "2"] then Some "ttyAMA0,115200"
  else if mem_string version ["3"; "4"] then Some "ttyS1,115200"
  else None.

(** Lines 83 to 87 and 116 to 121 *)
Definition extra_chroot_shell_cmds (version : string) : list string :=
  ((if (version =? "4")%string
    then ["sed -i 's/cma=64M //' /boot/firmware/cmdline.txt"]
    else [])
   ++ ["chmod 755 /root/sensor_install.sh";
       "/root/sensor_install.sh 2>&1 | tee -a /root/sensor_install_debug"])%list.

Definition hostname (version : string) : string := "Hedgehog-rpi-" ++ version.

(** Lines 93 to 113 *)
Definition extra_root_shell_cmds (MALCOLM_DIR SENSOR_DIR : string) : list string :=
  [ "cp sensor_install.sh " ++ quoted "${ROOT?}/root/";
    "/bin/bash -c 'mkdir -p " ++ quoted "${ROOT?}/opt/"
      ++ "{buildshared,deps,hooks,patches,sensor/sensor_ctl/suricata/rules-default,arkime/etc,zeek/bin}'";
    "cp " ++ quoted (MALCOLM_DIR ++ "/arkime/patch/") ++ "* "
      ++ quoted "${ROOT?}/opt/patches/" ++ " || true";
    "cp " ++ quoted (SENSOR_DIR ++ "/arkime/etc/") ++ "* "
      ++ quoted "${ROOT?}/opt/arkime/etc" ++ " || true";
    "cp -r " ++ quoted (MALCOLM_DIR ++ "/suricata/rules-default/") ++ "* "
      ++ quoted "${ROOT?}/opt/sensor/sensor_ctl/suricata/rules-default/" ++ " || true";
    "cp -r shared/* " ++ quoted "${ROOT?}/opt/buildshared";
    "cp -r " ++ quoted (SENSOR_DIR ++ "/interface/") ++ "* " ++ quoted "${ROOT?}/opt/sensor";
    "cp -r " ++ quoted (MALCOLM_DIR ++ "/shared/bin/") ++ "* "
      ++ quoted "${ROOT?}/usr/local/bin";
    "cp " ++ quoted (MALCOLM_DIR ++ "/scripts/malcolm_utils.py") ++ " "
      ++ quoted "${ROOT?}/usr/local/bin/";
    "cp " ++ quoted (SENSOR_DIR ++ "/config/archives/beats.list.chroot") ++ " "
      ++ quoted "${ROOT?}/etc/apt/sources.list.d/beats.list";
    "cp " ++ quoted (SENSOR_DIR ++ "/config/archives/beats.key.chroot") ++ " "
      ++ quoted "${ROOT?}/etc/apt/keyrings/";
    "cp " ++ quoted (SENSOR_DIR ++ "/config/archives/fluentbit.list.chroot") ++ " "
      ++ quoted "${ROOT?}/etc/apt/sources.list.d/fluentbit.list";
    "cp " ++ quoted (SENSOR_DIR ++ "/config/archives/fluentbit.key.chroot") ++ " "
      ++ quoted "${ROOT?}/etc/apt/keyrings/";
    "cp -r " ++ quoted (SENSOR_DIR ++ "/config/includes.chroot/") ++ "* "
      ++ quoted "${ROOT?}/";
    "rm -r " ++ quoted "${ROOT?}/etc/live";
    "cp -r " ++ quoted (SENSOR_DIR ++ "/config/hooks/normal/") ++ "* "
      ++ quoted "${ROOT?}/opt/hooks/";
    "cp -r " ++ quoted (SENSOR_DIR ++ "/config/package-lists/") ++ "* "
      ++ quoted "${ROOT?}/opt/deps/";
    "cp -r " ++ quoted (MALCOLM_DIR ++ "/docs/images/hedgehog/logo/hedgehog-ascii-text.txt")
      ++ "* " ++ quoted "${ROOT?}/root/" ].

(** Lines 126 to 144, with [backports_enable = False] of line 73. *)
Definition backports_stanza (suite : string) : string :=
  String LF
    ("# Backports are _not_ enabled by default."
       ++ String LF
       ("# Enable them by uncommenting the following line:"
          ++ String LF
          ("# deb http://deb.debian.org/debian " ++ backports_suite suite ++ " main "
             ++ firmware_component suite ++ String LF ""))).

(** The chain of [str.replace] calls, lines 175 to 185 *)
Definition substitute (version suite arch linux dtb serial buildtime : string)
           (in_text : string) : string :=
  str_replace "__BUILDTIME__" buildtime
    (str_replace "__HOST__" (hostname version)
       (str_replace "__SERIAL_CONSOLE__" serial
          (str_replace "__BLUETOOTH_FIRMWARE__" (bluetooth_firmware version)
             (str_replace "__WIRELESS_FIRMWARE__" (wireless_firmware version)
                (str_replace "__DTB__" dtb
                   (str_replace "__LINUX_IMAGE__" linux
                      (str_replace "__FIRMWARE_COMPONENT_OLD__" (firmware_component_old suite)
                         (str_replace "__FIRMWARE_COMPONENT__" (firmware_component suite)
                            (str_replace "__ARCH__" arch
                               (str_replace "__RELEASE__" suite in_text)))))))))).

(** How the script ends: [sys.exit] after a message on the standard error
    output; an exception that nothing catches, for an unbound variable or for
    an [open] that fails, before anything is written; or [out_file.write]. *)
Inductive script_end :=
| Exit (status : Z) (stderr : string)
| NameError (name : string)
| OSError (filename : string)
| Written (target : string) (text : string).


(** The script on [sys.argv], for the directory above the script's own and
    the output of [date].  The two files of lines 171 and 172 are opened in
    this order, and a file that does not open ends the script: [master] is
    what [in_file.read()] returns, [None] when [raspi_master.yaml] does not
    open for reading, and [target_opens] tells whether the target opens for
    writing.  Reading and writing the open files are taken to succeed. *)
Definition generate (argv : list string) (MALCOLM_DIR buildtime : string)
           (master : option string) (target_opens : bool) : script_end :=
  match argv with
  | [_; version; suite] =>
      if negb (mem_string version VERSIONS) then
        Exit 1 ("E: unsupported version " ++ version ++ String LF "")
      else if negb (mem_string suite SUITES) then
        Exit 1 ("E: unsupported suite " ++ suite ++ String LF "")
      else
        match arch_linux_dtb version with
        | None => NameError "arch"
        | Some (arch, linux, dtb) =>
            match serial version with
            | None => NameError "serial"
            | Some serial =>
                match master with
                | None => OSError "raspi_master.yaml"
                | Some in_text =>
                    if target_opens then
                      Written (target_yaml version suite)
                        (render_blocks
                           (substitute version suite arch linux dtb serial buildtime
                                       in_text)
                           (extra_root_shell_cmds MALCOLM_DIR
                                                  (path_join MALCOLM_DIR "sensor-iso"))
                           (extra_chroot_shell_cmds version)
                           (splitlines (backports_stanza suite)))
                    else OSError (target_yaml version suite)
                end
            end
        end
  | _ => Exit 1 ("E: need 2 arguments" ++ String LF "")
  end.


(** ** netbox_init.py: the files for the initializers *)

(** What reading in text mode makes of the characters of a file: each of
    the line ends CR LF and CR becomes LF.  (Writing in text mode, on the
    Linux that the script runs on, leaves LF as it is.) *)
Fixpoint universal_newlines (s : string) : string :=
  match s with
  | "" => ""
  | String c rest =>
      if Ascii.eqb c CR then
        match rest with
        | String c2 rest2 =>
            if Ascii.eqb c2 LF then String LF (universal_newlines rest2)
            else String LF (universal_newlines rest)
        | "" => String LF ""
        end
      else String c (universal_newlines rest)
  end.

(** The lines of a text at its LF, each with its LF. *)
Fixpoint lines_from (acc s : string) : list string :=
  match s with
  | "" => if (acc =? "")%string then [] else [acc]
  | String c rest =>
      if Ascii.eqb c LF then snoc acc c :: lines_from "" rest
      else lines_from (snoc acc c) rest
  end.

(** [for line in infile], for a file opened with [open(name, 'r')] *)
Definition file_lines (s : string) : list string := lines_from "" (universal_newlines s).

(** What a sequence of [outfile.write] leaves in the file. *)
Definition written_text (chunks : list string) : string := fold_right append "" chunks.

(** Lines 855 to 864 for one [loadType], on the files of the temporary copy
    of the preload directory: a mapping from file names to the characters that
    the files hold.  With
    no site name [line.replace] raises [TypeError] at the first line, after
    the file was opened for writing; the exception is passed over. *)
Definition preload_defaults (defaultSiteName : option string) (loadType : string)
           (files : dict string string) : dict string string :=
  let defaultFileName := loadType ++ "_defaults.yml" in
  let loadFileName := loadType ++ ".yml" in
  match sdict_get defaultFileName files with
  | Some text =>
      if sdict_mem loadFileName files then files
      else dict_set String.eqb loadFileName
             (match defaultSiteName with
              | Some site =>
                  written_text (map (str_replace "NETBOX_DEFAULT_SITE" site) (file_lines text))
              | None => ""
              end)
             files
  | None => files
  end.

(** Lines 851 to 864 *)
Definition preload_prefixes_files (preloadPrefixes : bool) (netboxSites : list string)
           (files : dict string string) : dict string string :=
  if preloadPrefixes then
    let defaultSiteName := hd_error netboxSites in
    preload_defaults defaultSiteName "prefixes"
      (preload_defaults defaultSiteName "vrfs" files)
  else files.

(** ** netbox_init.py: the database backup to restore *)

Section PreloadFile.

(** [os.path.isfile], [os.path.isdir], [glob.glob(os.path.join(d, '*.gz'))]
    and [os.path.getmtime] on the machine; the time stamps are compared as
    numbers. *)
Variable isfile : string -> bool.
Variable isdir : string -> bool.
Variable glob_gz : string -> list string.
Variable getmtime : string -> Z.

(** Lines 323 to 327 *)
Definition preload_files (preloadDir : string) : list string :=
  filter (fun x => negb (endswith ".media.tar.gz" x)) (filter isfile (glob_gz preloadDir)).

Definition mtime_lt (a b : string) : option bool := int_lt (getmtime a) (getmtime b).

(** Lines 320 to 329: [preloadDatabaseFile].  [None] stands for an exception
    of the sort. *)
Definition preload_database_file (preloadBackupFile preloadDir : string) : option string :=
  if negb (isfile preloadBackupFile) && isdir preloadDir then
    option_map (hd "") (sorted mtime_lt (preload_files preloadDir))
  else Some preloadBackupFile.

End PreloadFile.

(** *** The descriptions taken from the VRF names *)

(** A prefix without description and with a VRF. *)
Definition to_migrate (p : Prefix) : bool :=
  negb (truthy (prefix_description p))
  && match prefix_vrf p with Some _ => true | None => false end.

(** Such a prefix with the name of its VRF as its description, and any other
    prefix as it is. *)
Definition migrated (p : Prefix) : Prefix :=
  if to_migrate p
  then {| prefix_id := prefix_id p; prefix_prefix := prefix_prefix p;
          prefix_site := prefix_site p;
          prefix_description := match prefix_vrf p with Some v => v | None => "" end;
          prefix_vrf := prefix_vrf p |}
  else p.

(** A store that accepts every update of a description. *)
Definition accepts_descriptions (rejects : Store -> request -> bool) : Prop :=
  forall s p d, rejects s (UpdatePrefixDescription p d) = false.

Definition store_with_vrf_prefixes : Store :=
  with_prefixes seeded_store
    [{| prefix_id := 1; prefix_prefix := "10.0.0.0/8"; prefix_site := Some 1%Z;
        prefix_description := ""; prefix_vrf := Some "lan" |};
     {| prefix_id := 2; prefix_prefix := "10.1.0.0/16"; prefix_site := Some 1%Z;
        prefix_description := "kept"; prefix_vrf := Some "dmz" |};
     {| prefix_id := 3; prefix_prefix := "10.2.0.0/16"; prefix_site := None;
        prefix_description := ""; prefix_vrf := None |}].

(** *** Instances for the further properties *)

(** Numbers ordered by their tens. *)
Definition tens (v : Z) : Z := (v / 10)%Z.

Definition ranked_example : dict string Z := [("HQ", 71%Z); ("lab", 30%Z); ("dmz", 35%Z)].

Definition seeded_sites : dict string Site := index_of sites_of site_name seeded_store.
Definition seeded_device_types : dict string DeviceType :=
  index_of device_types_of dtype_model seeded_store.
Definition seeded_roles : dict string Role := index_of roles_of role_name seeded_store.

Definition host_with_mac : Host :=
  {| host_name := "h1"; host_address := "AA:BB:CC:DD:EE:FF" |}.



Definition both_groups : dict string Group :=
  [("administrator", {| group_id := 1; group_name := "administrator" |});
   ("standard", {| group_id := 2; group_name := "standard" |})].

Definition master_without_placeholder : string :=
  "a: 1" ++ String LF ("  " ++ String LF ("b: 2" ++ String LF "")).

(** A preload directory with defaults for both, and prefixes of its own. *)
Definition preload_example : dict string string :=
  [("vrfs_defaults.yml", "- name: NETBOX_DEFAULT_SITE" ++ String CR (String LF ""));
   ("prefixes_defaults.yml", "- site: NETBOX_DEFAULT_SITE" ++ String LF "");
   ("prefixes.yml", "- prefix: 10.0.0.0/8" ++ String LF "")].

(** A preload directory with two dumps and a media archive. *)
Definition dumps_example : list string :=
  ["/preload/new.gz"; "/preload/old.media.tar.gz"; "/preload/old.gz"].

Definition isfile_example (x : string) : bool := mem_string x dumps_example.

Definition isdir_example (x : string) : bool := (x =? "/preload")%string.

Definition glob_example (d : string) : list string :=
  if (d =? "/preload")%string then dumps_example else [].

Definition mtime_example (x : string) : Z :=
  if (x =? "/preload/new.gz")%string then 200%Z else 100%Z.

(** * Properties *)

(** ** Lines *)

Lemma contains_char_app c a b :
  contains_char c (a ++ b) = contains_char c a || contains_char c b.
Proof.
  induction a as [|x a IH]; simpl; [reflexivity|].
  rewrite IH. now rewrite orb_assoc.
Qed.

Lemma no_break_empty : no_break "".
Proof. intros c H. discriminate H. Qed.

Lemma no_break_cons c s :
  no_break (String c s) <-> is_linebreak c = false /\ no_break s.
Proof.
  split.
  - intros H. split.
    + apply H. simpl. now rewrite Ascii.eqb_refl.
    + intros d Hd. apply H. simpl. rewrite Hd. apply orb_true_r.
  - intros [Hc Hs] d Hd. simpl in Hd. apply orb_true_iff in Hd as [Hd|Hd].
    + apply Ascii.eqb_eq in Hd. now subst.
    + now apply Hs.
Qed.

Lemma no_break_snoc acc c :
  no_break acc -> is_linebreak c = false -> no_break (snoc acc c).
Proof.
  intros Ha Hc d Hd. unfold snoc in Hd. rewrite contains_char_app in Hd.
  apply orb_true_iff in Hd as [Hd|Hd]; [now apply Ha|].
  simpl in Hd. rewrite orb_false_r in Hd. apply Ascii.eqb_eq in Hd. now subst.
Qed.

Lemma has_break_false s : has_break s = false -> no_break s.
Proof.
  induction s as [|c s IH]; intros H; [apply no_break_empty|].
  simpl in H. apply orb_false_iff in H as [Hc Hs].
  apply no_break_cons. split; [exact Hc|now apply IH].
Qed.

Lemma append_empty_r (s : string) : s ++ "" = s.
Proof. induction s; simpl; congruence. Qed.

Lemma append_assoc (a b c : string) : (a ++ b) ++ c = a ++ (b ++ c).
Proof. induction a; simpl; congruence. Qed.

Lemma snoc_append acc c s : snoc acc c ++ s = acc ++ String c s.
Proof. unfold snoc. now rewrite append_assoc. Qed.

(** Every line that [splitlines] returns is free of line boundaries. *)
Lemma splitlines_from_no_break_upto n :
  forall s acc l, String.length s <= n -> no_break acc ->
                  In l (splitlines_from acc s) -> no_break l.
Proof.
  induction n as [|n IH]; intros s acc l Hlen Hacc Hin.
  - destruct s; [|simpl in Hlen; lia]. simpl in Hin.
    destruct (acc =? "")%string; simpl in Hin; [contradiction|].
    destruct Hin as [<-|[]]. exact Hacc.
  - destruct s as [|c rest]; simpl in Hin.
    + destruct (acc =? "")%string; simpl in Hin; [contradiction|].
      destruct Hin as [<-|[]]. exact Hacc.
    + simpl in Hlen. destruct (is_linebreak c) eqn:Hc.
      * destruct rest as [|c2 rest2].
        -- simpl in Hin. destruct Hin as [<-|[]]. exact Hacc.
        -- simpl in Hlen.
           destruct (Ascii.eqb c CR && Ascii.eqb c2 LF);
             (destruct Hin as [<-|Hin]; [exact Hacc|]).
           ++ apply (IH rest2 "" l); [lia|apply no_break_empty|exact Hin].
           ++ apply (IH (String c2 rest2) "" l); [simpl; lia|apply no_break_empty|exact Hin].
      * apply (IH rest (snoc acc c) l); [lia| |exact Hin]. now apply no_break_snoc.
Qed.

Lemma splitlines_no_break s l : In l (splitlines s) -> no_break l.
Proof.
  apply (splitlines_from_no_break_upto (String.length s)); [lia|apply no_break_empty].
Qed.

(** A line without boundary, then LF: [splitlines] cuts there. *)
Lemma splitlines_from_line l :
  forall acc rest, no_break l ->
    splitlines_from acc (l ++ String LF rest) = (acc ++ l) :: splitlines_from "" rest.
Proof.
  induction l as [|c l IH]; intros acc rest Hl.
  - simpl. rewrite append_empty_r. destruct rest; reflexivity.
  - apply no_break_cons in Hl as [Hc Hl].
    change (String c l ++ String LF rest) with (String c (l ++ String LF rest)).
    simpl. rewrite Hc. rewrite IH by exact Hl. now rewrite snoc_append.
Qed.

(** [splitlines] undoes [join_lines] with its final LF. *)
Lemma splitlines_join_lines ls :
  ls <> [] -> Forall no_break ls ->
  splitlines (join_lines ls ++ String LF "") = ls.
Proof.
  induction ls as [|l ls IH]; intros Hne Hall; [congruence|].
  inversion Hall as [|? ? Hl Hls]; subst.
  destruct ls as [|l2 ls].
  - simpl. unfold splitlines. rewrite splitlines_from_line by exact Hl. reflexivity.
  - change (join_lines (l :: l2 :: ls)) with (l ++ String LF (join_lines (l2 :: ls))).
    rewrite append_assoc. change (String LF (join_lines (l2 :: ls)) ++ String LF "")
      with (String LF (join_lines (l2 :: ls) ++ String LF "")).
    unfold splitlines. rewrite splitlines_from_line by exact Hl. simpl append.
    f_equal. apply IH; [discriminate|exact Hls].
Qed.

(** ** generate-recipe.py: the block replacement *)

Lemma startswith_iff p s :
  startswith p s = true <-> exists rest, s = p ++ rest.
Proof.
  unfold startswith. revert s. induction p as [|c p IH]; intros s.
  - split; [intros _; now exists s|intros _; now destruct s].
  - destruct s as [|d s]; simpl.
    + split; [discriminate|intros [rest H]; discriminate].
    + destruct (Ascii.ascii_dec c d) as [->|Hneq].
      * rewrite IH. split; intros [rest H]; exists rest; congruence.
      * split; [discriminate|intros [rest H]; congruence].
Qed.

(** A match returns white space, at least one character, that the pattern
    follows. *)
Lemma re_match_indent_sound pattern line :
  forall indent, re_match_indent pattern line = Some indent ->
    indent <> "" /\ all_space indent = true /\ exists rest, line = indent ++ pattern ++ rest.
Proof.
  induction line as [|c line IH]; intros indent H; simpl in H; [discriminate|].
  destruct (isspace c) eqn:Hc; [|discriminate].
  destruct (re_match_indent pattern line) as [ind|] eqn:Hm.
  - injection H as <-. destruct (IH ind eq_refl) as (_ & Hs & rest & ->).
    repeat split; [discriminate|simpl; now rewrite Hc|now exists rest].
  - destruct (startswith pattern line) eqn:Hp; [|discriminate].
    injection H as <-. apply startswith_iff in Hp as [rest ->].
    repeat split; [discriminate|simpl; now rewrite Hc|now exists rest].
Qed.

Lemma re_match_indent_complete pattern ws :
  forall rest, ws <> "" -> all_space ws = true ->
    exists indent, re_match_indent pattern (ws ++ pattern ++ rest) = Some indent.
Proof.
  induction ws as [|c ws IH]; intros rest Hne Hs; [congruence|].
  simpl in Hs. apply andb_true_iff in Hs as [Hc Hs].
  simpl. rewrite Hc.
  destruct (re_match_indent pattern (ws ++ pattern ++ rest)) as [ind|] eqn:Hm;
    [now eexists|].
  destruct ws as [|d ws].
  - simpl. assert (Hp : startswith pattern (pattern ++ rest) = true)
      by (apply startswith_iff; now exists rest).
    rewrite Hp. now eexists.
  - destruct (IH rest) as [ind Hind]; [discriminate|exact Hs|congruence].
Qed.

Lemma is_word_no_space c : is_word c = true -> isspace c = false.
Proof. destruct c as [[] [] [] [] [] [] [] []]; vm_compute; congruence. Qed.

(** Where a literal pattern begins, or the match of the empty pattern has given
    up, the white space has ended. *)
Lemma leading_space_at_pattern pattern rest :
  literal pattern = true -> re_match_indent pattern rest = None ->
  startswith pattern rest = true -> leading_space rest = "".
Proof.
  intros Hl Hm Hp. destruct rest as [|d rest]; [reflexivity|].
  cbn [leading_space]. destruct (isspace d) eqn:Hd; [|reflexivity]. exfalso.
  destruct pattern as [|p pattern].
  - cbn [re_match_indent] in Hm. rewrite Hd in Hm.
    destruct (re_match_indent "" rest); [discriminate|].
    assert (E : startswith "" rest = true) by (apply startswith_iff; now exists rest).
    rewrite E in Hm. discriminate.
  - apply startswith_iff in Hp as [tl Hp]. injection Hp as -> _.
    cbn [literal] in Hl. apply andb_true_iff in Hl as [Hw _].
    apply is_word_no_space in Hw. congruence.
Qed.

(** The indentation of a match is all the white space that the line begins
    with. *)
Lemma re_match_indent_leading pattern line :
  literal pattern = true ->
  forall indent, re_match_indent pattern line = Some indent -> indent = leading_space line.
Proof.
  intros Hl. induction line as [|c line IH]; intros indent H; simpl in H; [discriminate|].
  cbn [leading_space]. destruct (isspace c) eqn:Hc; [|discriminate].
  destruct (re_match_indent pattern line) as [ind|] eqn:Hm.
  - injection H as <-. now rewrite (IH ind eq_refl).
  - destruct (startswith pattern line) eqn:Hp; [|discriminate].
    injection H as <-. now rewrite (leading_space_at_pattern pattern line Hl Hm Hp).
Qed.

Lemma re_match_indent_literal pattern line indent :
  literal pattern = true ->
  re_match_indent pattern line = Some indent <->
  indent <> "" /\ indent = leading_space line /\ exists rest, line = indent ++ pattern ++ rest.
Proof.
  intros Hl. split.
  - intros H. pose proof (re_match_indent_leading pattern line Hl indent H) as E.
    apply re_match_indent_sound in H as (Hne & _ & rest & Hr).
    split; [exact Hne|]. split; [exact E|]. now exists rest.
  - intros (Hne & E & rest & Hr).
    assert (Hs : all_space indent = true).
    { rewrite E. clear. induction line as [|c line IH]; [reflexivity|].
      cbn [leading_space]. destruct (isspace c) eqn:Hc; [|reflexivity].
      simpl. now rewrite Hc. }
    destruct (re_match_indent_complete pattern indent rest Hne Hs) as [ind Hind].
    rewrite <- Hr in Hind. rewrite Hind. f_equal.
    rewrite (re_match_indent_leading pattern line Hl ind Hind). now symmetry.
Qed.

Lemma first_match_none pattern lines :
  forall i, (forall x, In x lines -> re_match_indent pattern x = None) ->
            first_match pattern lines i = None.
Proof.
  induction lines as [|l lines IH]; intros i H; simpl; [reflexivity|].
  rewrite (H l) by now left. apply IH. intros x Hx. apply H. now right.
Qed.

Lemma first_match_at pattern pre line post indent :
  forall i, (forall x, In x pre -> re_match_indent pattern x = None) ->
            re_match_indent pattern line = Some indent ->
            first_match pattern (pre ++ line :: post) i = Some (i + List.length pre, indent).
Proof.
  induction pre as [|p pre IH]; intros i Hpre Hl; simpl.
  - rewrite Hl. do 2 f_equal. lia.
  - rewrite (Hpre p) by now left. rewrite IH; [do 2 f_equal; lia| |exact Hl].
    intros x Hx. apply Hpre. now right.
Qed.

Lemma list_del_at {A} (pre : list A) x post :
  list_del (List.length pre) (pre ++ x :: post) = (pre ++ post)%list.
Proof.
  unfold list_del. induction pre as [|p pre IH]; simpl; [reflexivity|].
  simpl in IH. now rewrite IH.
Qed.

Lemma list_insert_at {A} (pre : list A) x post :
  list_insert (List.length pre) x (pre ++ post) = (pre ++ x :: post)%list.
Proof.
  unfold list_insert. induction pre as [|p pre IH]; simpl; [reflexivity|].
  now rewrite IH.
Qed.

Lemma insert_each_at indent replacement :
  forall pre post,
    insert_each indent replacement (List.length pre) (pre ++ post)
    = (pre ++ map (append indent) replacement ++ post)%list.
Proof.
  induction replacement as [|r rs IH]; intros pre post; simpl; [reflexivity|].
  rewrite list_insert_at.
  replace (pre ++ append indent r :: post)%list
    with ((pre ++ [append indent r]) ++ post)%list by now rewrite <- app_assoc.
  replace (S (List.length pre)) with (List.length (pre ++ [append indent r])%list)
    by (rewrite length_app; simpl; lia).
  rewrite IH. now rewrite <- app_assoc.
Qed.

(** The loop of [align_replace] on the lines: the first line that matches
    gives way to the replacement lines, each after that line's indentation. *)
Lemma replace_lines_first pattern replacement pre line post indent :
  (forall x, In x pre -> re_match_indent pattern x = None) ->
  re_match_indent pattern line = Some indent ->
  replace_lines pattern replacement (pre ++ line :: post)
  = (pre ++ map (append indent) replacement ++ post)%list.
Proof.
  intros Hpre Hl. unfold replace_lines.
  rewrite (first_match_at pattern pre line post indent 0 Hpre Hl). simpl.
  rewrite list_del_at. apply insert_each_at.
Qed.

Lemma replace_lines_none pattern replacement lines :
  (forall x, In x lines -> re_match_indent pattern x = None) ->
  replace_lines pattern replacement lines = lines.
Proof.
  intros H. unfold replace_lines. now rewrite first_match_none.
Qed.

(** C10, amended.  For a placeholder made of letters, digits and underscores,
    the block replacement helper changes at most one line: the first line
    that begins with white space, at least one character, right after which
    the placeholder stands.  That line gives way to the replacement lines, each
    after the white space that the line begins with.  A line that does not
    begin with white space is never replaced, the lines before and after the
    replaced one are kept as they are, and without such a line no line
    changes. *)
Theorem align_replace_first_indented_line
        (text pattern : string) (replacement : list string) :
  literal pattern = true ->
  (forall line indent,
      re_match_indent pattern line = Some indent <->
      indent <> "" /\ indent = leading_space line
      /\ exists rest, line = indent ++ pattern ++ rest)
  /\ re_match_indent pattern "" = None
  /\ (forall c rest, isspace c = false -> re_match_indent pattern (String c rest) = None)
  /\ ((forall x, In x (splitlines text) -> re_match_indent pattern x = None) ->
      align_replace text pattern replacement
      = join_lines (splitlines text) ++ String LF "")
  /\ (forall pre line post,
         splitlines text = (pre ++ line :: post)%list ->
         (forall x, In x pre -> re_match_indent pattern x = None) ->
         re_match_indent pattern line <> None ->
         align_replace text pattern replacement
         = join_lines (pre ++ map (append (leading_space line)) replacement ++ post)
                      ++ String LF "").
Proof.
  intros Hl.
  split; [intros line indent; now apply re_match_indent_literal|].
  split; [reflexivity|].
  split; [intros c rest Hc; simpl; now rewrite Hc|].
  split.
  - intros H. unfold align_replace. now rewrite replace_lines_none.
  - intros pre line post Hsplit Hpre Hm. unfold align_replace. rewrite Hsplit.
    destruct (re_match_indent pattern line) as [indent|] eqn:E; [|congruence].
    rewrite (replace_lines_first _ _ _ _ _ indent Hpre E).
    now rewrite (re_match_indent_leading pattern line Hl indent E).
Qed.

Lemma align_replace_first_indented_line_witness :
  align_replace ("a:" ++ String LF "  __B__ x" ++ String LF " __B__") "__B__" ["p"; "q"]
  = join_lines (["a:"] ++ map (append "  ") ["p"; "q"] ++ [" __B__"]) ++ String LF "".
Proof.
  apply (proj2 (proj2 (proj2 (proj2
           (align_replace_first_indented_line
              ("a:" ++ String LF "  __B__ x" ++ String LF " __B__") "__B__" ["p"; "q"]
              eq_refl))))
           ["a:"] "  __B__ x" [" __B__"]).
  - reflexivity.
  - intros x [<-|[]]. reflexivity.
  - discriminate.
Defined.

(** C8. In a document whose first line with an indented
    [__EXTRA_ROOT_SHELL_CMDS__] is ["   __EXTRA_ROOT_SHELL_CMDS__"], the
    replacement list [["cmd1"; "cmd2"]] puts the two lines ["   cmd1"] and
    ["   cmd2"] in the place of that line, in this order, with the three
    spaces of the placeholder line. *)
Theorem align_replace_keeps_indentation (text : string) (pre post : list string) :
  splitlines text = (pre ++ "   __EXTRA_ROOT_SHELL_CMDS__" :: post)%list ->
  (forall x, In x pre -> re_match_indent "__EXTRA_ROOT_SHELL_CMDS__" x = None) ->
  align_replace text "__EXTRA_ROOT_SHELL_CMDS__" ["cmd1"; "cmd2"]
  = join_lines (pre ++ ["   cmd1"; "   cmd2"] ++ post) ++ String LF ""
  /\ splitlines (align_replace text "__EXTRA_ROOT_SHELL_CMDS__" ["cmd1"; "cmd2"])
     = (pre ++ ["   cmd1"; "   cmd2"] ++ post)%list.
Proof.
  intros Hsplit Hpre.
  assert (E : align_replace text "__EXTRA_ROOT_SHELL_CMDS__" ["cmd1"; "cmd2"]
              = join_lines (pre ++ ["   cmd1"; "   cmd2"] ++ post) ++ String LF "").
  { unfold align_replace. rewrite Hsplit.
    now rewrite (replace_lines_first "__EXTRA_ROOT_SHELL_CMDS__" ["cmd1"; "cmd2"] pre
                   "   __EXTRA_ROOT_SHELL_CMDS__" post "   " Hpre eq_refl). }
  split; [exact E|]. rewrite E. apply splitlines_join_lines.
  - destruct pre; discriminate.
  - apply Forall_forall. intros l Hl.
    assert (Hin : forall x, In x (pre ++ "   __EXTRA_ROOT_SHELL_CMDS__" :: post)%list ->
                            no_break x)
      by (intros x Hx; apply (splitlines_no_break text); now rewrite Hsplit).
    apply in_app_or in Hl as [Hl|Hl].
    + apply Hin, in_or_app. now left.
    + simpl in Hl. destruct Hl as [<-|[<-|Hl]].
      * now apply has_break_false.
      * now apply has_break_false.
      * apply Hin, in_or_app. right. now right.
Qed.

Lemma align_replace_keeps_indentation_witness :
  align_replace doc_with_placeholder "__EXTRA_ROOT_SHELL_CMDS__" ["cmd1"; "cmd2"]
  = join_lines (["steps:"] ++ ["   cmd1"; "   cmd2"] ++ ["end"]) ++ String LF ""
  /\ splitlines (align_replace doc_with_placeholder "__EXTRA_ROOT_SHELL_CMDS__"
                               ["cmd1"; "cmd2"])
     = (["steps:"] ++ ["   cmd1"; "   cmd2"] ++ ["end"])%list.
Proof.
  apply (align_replace_keeps_indentation doc_with_placeholder ["steps:"] ["end"]).
  - reflexivity.
  - intros x [<-|[]]. reflexivity.
Defined.

(** ** generate-recipe.py: the lines that are written *)

Lemma re_blank_iff l : re_blank l = true <-> l <> "" /\ all_space l = true.
Proof.
  unfold re_blank. rewrite andb_true_iff, negb_true_iff, String.eqb_neq. tauto.
Qed.

Lemma dash_is_no_space : isspace "-"%char = false.
Proof. reflexivity. Qed.

Lemma re_empty_item_from_iff x :
  forall seen,
    re_empty_item_from seen x = true <->
    exists ws1 ws2, (seen = true \/ ws1 <> "") /\ all_space ws1 = true
                    /\ all_space ws2 = true /\ x = ws1 ++ "-" ++ ws2.
Proof.
  induction x as [|c x IH]; intros seen; simpl.
  - split; [discriminate|]. intros (ws1 & ws2 & _ & _ & _ & H).
    destruct ws1; discriminate.
  - destruct (isspace c) eqn:Hc.
    + rewrite IH. split.
      * intros (ws1 & ws2 & _ & H1 & H2 & ->).
        exists (String c ws1), ws2. repeat split; auto.
        -- right. discriminate.
        -- simpl. now rewrite Hc.
      * intros (ws1 & ws2 & _ & H1 & H2 & H).
        destruct ws1 as [|d ws1].
        -- simpl in H. injection H as -> _. rewrite dash_is_no_space in Hc. discriminate.
        -- simpl in H. injection H as -> ->. simpl in H1.
           apply andb_true_iff in H1 as [_ H1].
           exists ws1, ws2. repeat split; auto.
    + split.
      * intros H. apply andb_true_iff in H as [Hs H].
        apply andb_true_iff in H as [Hd H2]. apply Ascii.eqb_eq in Hd. subst c.
        exists "", x. repeat split; auto.
      * intros (ws1 & ws2 & Hseen & H1 & H2 & H).
        destruct ws1 as [|d ws1].
        -- simpl in H. injection H as -> ->. destruct Hseen as [->|Hne]; [|congruence].
           simpl. exact H2.
        -- simpl in H. injection H as -> _. simpl in H1. rewrite Hc in H1. discriminate.
Qed.

Lemma re_empty_item_iff l :
  re_empty_item l = true <->
  exists ws1 ws2, ws1 <> "" /\ all_space ws1 = true /\ all_space ws2 = true
                  /\ l = ws1 ++ "-" ++ ws2.
Proof.
  unfold re_empty_item. rewrite re_empty_item_from_iff.
  split; intros (ws1 & ws2 & H & H1 & H2 & E); exists ws1, ws2; repeat split; auto.
  destruct H as [H|H]; [discriminate|exact H].
Qed.

Lemma keep_line_iff l :
  keep_line l = true <-> re_blank l = false /\ re_empty_item l = false.
Proof.
  unfold keep_line. now rewrite andb_true_iff, !negb_true_iff.
Qed.

Lemma filtered_no_break out_text : Forall no_break (filtered out_text).
Proof.
  apply Forall_forall. intros l Hl. unfold filtered in Hl.
  apply filter_In in Hl as [Hl _]. now apply splitlines_no_break in Hl.
Qed.

(** The claim of C9 fails on a document with an empty line: the line stays. *)
Lemma written_keeps_empty_line :
  In "" (splitlines (written doc_with_empty_line)) /\ blank_line "" = true.
Proof. split; [vm_compute; tauto|reflexivity]. Qed.

(** C9, amended.  No line of the output is made of white space only with at
    least one character, and none is white space (at least one character), a
    dash and white space again; every such line of the substituted text is
    dropped and every other line is kept, in order.  A line without any
    character is kept, and so is a dash at the start of a line. *)
Theorem written_drops_space_and_empty_items (out_text : string) :
  (forall l, In l (splitlines (written out_text)) ->
             re_blank l = false /\ re_empty_item l = false)
  /\ (filtered out_text <> [] -> splitlines (written out_text) = filtered out_text)
  /\ filtered out_text
     = filter (fun l => negb (re_blank l) && negb (re_empty_item l)) (splitlines out_text)
  /\ (forall l, re_blank l = true <-> l <> "" /\ all_space l = true)
  /\ (forall l, re_empty_item l = true <->
                exists ws1 ws2, ws1 <> "" /\ all_space ws1 = true
                                /\ all_space ws2 = true /\ l = ws1 ++ "-" ++ ws2)
  /\ re_blank "" = false /\ re_empty_item "-" = false.
Proof.
  assert (R : filtered out_text <> [] ->
              splitlines (written out_text) = filtered out_text).
  { intros Hne. unfold written. apply splitlines_join_lines; [exact Hne|].
    apply filtered_no_break. }
  split; [|split; [exact R|split; [reflexivity|split; [apply re_blank_iff|
           split; [apply re_empty_item_iff|split; reflexivity]]]]].
  intros l Hl. destruct (filtered out_text) as [|x xs] eqn:E.
  - unfold written in Hl. rewrite E in Hl. simpl in Hl.
    destruct Hl as [<-|[]]. split; reflexivity.
  - rewrite R in Hl by discriminate. rewrite <- E in Hl. unfold filtered in Hl.
    apply filter_In in Hl as [_ Hk]. now apply keep_line_iff.
Qed.

Lemma written_drops_space_and_empty_items_witness :
  splitlines (written doc_with_empty_line) = filtered doc_with_empty_line.
Proof.
  apply (proj1 (proj2 (written_drops_space_and_empty_items doc_with_empty_line))).
  discriminate.
Defined.

(** ** netbox_init.py: the filler selection *)

Lemma dict_set_fresh {V} k (v : V) d :
  ~ In k (map fst d) -> dict_set String.eqb k v d = (d ++ [(k, v)])%list.
Proof.
  induction d as [|[k' v'] d IH]; intros H; simpl; [reflexivity|].
  simpl in H. destruct (String.eqb_spec k' k) as [->|Hneq]; [tauto|].
  rewrite IH by tauto. reflexivity.
Qed.

Lemma dict_of_from_nodup {V} (l : list (string * V)) :
  forall acc, NoDup (map fst (acc ++ l)) ->
    fold_left (fun d kv => dict_set String.eqb (fst kv) (snd kv) d) l acc = (acc ++ l)%list.
Proof.
  induction l as [|[k v] l IH]; intros acc H; simpl.
  - now rewrite app_nil_r.
  - rewrite dict_set_fresh.
    + rewrite IH; rewrite <- app_assoc; [reflexivity|exact H].
    + rewrite map_app in H. simpl in H. apply NoDup_remove_2 in H.
      intros Hin. apply H. apply in_or_app. now left.
Qed.

(** A list of items with distinct keys is its own dictionary. *)
Lemma sdict_of_nodup {V} (l : list (string * V)) :
  NoDup (map fst l) -> sdict_of l = l.
Proof.
  intros H. unfold sdict_of, dict_of. now rewrite (dict_of_from_nodup l []).
Qed.

Lemma insert_sorted_value a l :
  exists l', insert_sorted lt_value a l = Some l'
             /\ Permutation (a :: l) l'
             /\ (StronglySorted le_value l -> StronglySorted le_value l').
Proof.
  induction l as [|b l IH]; cbn [insert_sorted].
  - exists [a]. repeat split; auto. intros _. repeat constructor.
  - replace (lt_value b a) with (Some (snd b <? snd a)%Z) by reflexivity.
    destruct (Z.ltb_spec (snd b) (snd a)) as [Hlt|Hge].
    + destruct IH as (l' & -> & Hperm & Hsort). exists (b :: l'). simpl.
      repeat split.
      * rewrite perm_swap. now constructor.
      * intros Hs. inversion Hs as [|? ? Hs' Hall]; subst.
        constructor; [now apply Hsort|].
        apply (Permutation_Forall Hperm). constructor; [|exact Hall].
        unfold le_value. lia.
    + exists (a :: b :: l). repeat split; auto.
      intros Hs. constructor; [exact Hs|].
      inversion Hs as [|? ? Hs' Hall]; subst.
      constructor; [exact Hge|].
      apply Forall_forall. intros x Hx.
      rewrite Forall_forall in Hall. specialize (Hall x Hx). unfold le_value in *. lia.
Qed.

Lemma sorted_value l :
  exists l', sorted lt_value l = Some l' /\ Permutation l l' /\ StronglySorted le_value l'.
Proof.
  induction l as [|a l IH]; simpl.
  - exists []. repeat split; auto. constructor.
  - destruct IH as (s & -> & Hperm & Hsort).
    destruct (insert_sorted_value a s) as (l' & -> & Hp & Hs).
    exists l'. repeat split; auto.
    rewrite <- Hp. now constructor.
Qed.

(** C3. On a mapping from names to numbers the filler selection returns the
    number of an entry, and no entry has a smaller one; on the empty mapping
    it returns [None]. *)
Theorem min_hash_value_by_value_smallest (x : dict string Z) :
  NoDup (map fst x) ->
  (x = [] -> min_hash_value_by_value int_lt x = Some None)
  /\ (x <> [] ->
      exists k v, min_hash_value_by_value int_lt x = Some (Some v)
                  /\ In (k, v) x
                  /\ forall k' v', In (k', v') x -> (v <= v')%Z).
Proof.
  intros Hnd. split; [intros ->; reflexivity|]. intros Hne.
  unfold min_hash_value_by_value.
  destruct (sorted_value x) as (s & Hs & Hperm & Hsort).
  change (fun item1 item2 : string * Z => int_lt (snd item1) (snd item2)) with lt_value.
  rewrite Hs. rewrite sdict_of_nodup
    by (apply (Permutation_NoDup (Permutation_map fst Hperm)); exact Hnd).
  destruct s as [|[k v] s].
  - apply Permutation_sym, Permutation_nil in Hperm. congruence.
  - exists k, v. simpl. repeat split.
    + apply (Permutation_in _ (Permutation_sym Hperm)). now left.
    + intros k' v' Hin. apply (Permutation_in _ Hperm) in Hin.
      inversion Hsort as [|? ? _ Hall]; subst.
      destruct Hin as [E|Hin]; [injection E as _ ->; lia|].
      rewrite Forall_forall in Hall. apply (Hall (k', v') Hin).
Qed.

Lemma min_hash_value_by_value_smallest_witness :
  exists k v, min_hash_value_by_value int_lt ids_example = Some (Some v)
              /\ In (k, v) ids_example
              /\ forall k' v', In (k', v') ids_example -> (v <= v')%Z.
Proof.
  apply (proj2 (min_hash_value_by_value_smallest ids_example
                  ltac:(repeat constructor; simpl; intuition discriminate))).
  discriminate.
Defined.

Example min_hash_value_by_value_example :
  min_hash_value_by_value int_lt ids_example = Some (Some 3%Z).
Proof. reflexivity. Qed.

(** ** netbox_init.py: addresses *)







Lemma contains_char_snoc c acc a :
  contains_char c (snoc acc a) = contains_char c acc || Ascii.eqb a c.
Proof. unfold snoc. rewrite contains_char_app. simpl. now rewrite orb_false_r. Qed.




Lemma split_from_without sep s :
  forall acc, contains_char sep s = false -> split_from sep acc s = [acc ++ s].
Proof.
  induction s as [|c s IH]; intros acc H; simpl.
  - now rewrite append_empty_r.
  - simpl in H. apply orb_false_iff in H as [Hc Hs]. rewrite Hc.
    rewrite IH by exact Hs. now rewrite snoc_append.
Qed.

Lemma partition_from_without sep s :
  forall acc, contains_char sep s = false -> partition_from sep acc s = (acc ++ s, None).
Proof.
  induction s as [|c s IH]; intros acc H; simpl.
  - now rewrite append_empty_r.
  - simpl in H. apply orb_false_iff in H as [Hc Hs]. rewrite Hc.
    rewrite IH by exact Hs. now rewrite snoc_append.
Qed.





(** ** netbox_init.py: what every step of a run keeps *)

Lemma bind_ret {A B} (a : A) (f : A -> M B) : bind (ret a) f = f a.
Proof. reflexivity. Qed.

Lemma bind_raise {A B} (e : exn) (f : A -> M B) : bind (raise e) f = raise e.
Proof. reflexivity. Qed.

Lemma insert_sorted_incl {A} (lt : A -> A -> option bool) a l :
  forall l', insert_sorted lt a l = Some l' -> incl l' (a :: l).
Proof.
  induction l as [|b l IH]; intros l' H; simpl in H.
  - injection H as <-. apply incl_refl.
  - destruct (lt b a) as [[]|]; try discriminate.
    + destruct (insert_sorted lt a l) as [s|]; [|discriminate].
      injection H as <-. intros x [<-|Hx]; [right; now left|].
      destruct (IH s eq_refl x Hx) as [<-|Hin]; [now left|right; now right].
    + injection H as <-. apply incl_refl.
Qed.

Lemma sorted_incl {A} (lt : A -> A -> option bool) l :
  forall l', sorted lt l = Some l' -> incl l' l.
Proof.
  induction l as [|a l IH]; intros l' H; simpl in H.
  - injection H as <-. apply incl_refl.
  - destruct (sorted lt l) as [s|]; [|discriminate].
    intros x Hx. apply (insert_sorted_incl lt a s l' H) in Hx as [<-|Hx]; [now left|].
    right. now apply (IH s eq_refl).
Qed.

Lemma dict_set_in {V} k (v : V) d :
  forall k0 v0, In (k0, v0) (dict_set String.eqb k v d) ->
                In (k0, v0) d \/ v0 = v.
Proof.
  induction d as [|[k' v'] d IH]; intros k0 v0 H; simpl in H.
  - destruct H as [E|[]]. injection E as _ <-. now right.
  - destruct (String.eqb k' k).
    + destruct H as [E|H]; [injection E as _ <-; now right|left; now right].
    + destruct H as [E|H]; [left; now left|].
      destruct (IH k0 v0 H) as [Hin|E]; [left; now right|now right].
Qed.

Lemma dict_of_from_values {V} (l : list (string * V)) :
  forall acc k v,
    In (k, v) (fold_left (fun d kv => dict_set String.eqb (fst kv) (snd kv) d) l acc) ->
    In v (map snd acc) \/ In v (map snd l).
Proof.
  induction l as [|[k1 v1] l IH]; intros acc k v H; simpl in H.
  - left. apply (in_map snd) in H. exact H.
  - apply IH in H as [H|H].
    + apply in_map_iff in H as ([k2 v2] & E & Hin). simpl in E. subst v2.
      apply dict_set_in in Hin as [Hin| ->].
      * left. apply (in_map snd) in Hin. exact Hin.
      * right. now left.
    + right. now right.
Qed.

(** The values of [{key(x): x for x in records}] are records of the list. *)
Lemma sdict_of_within {R} (key : R -> string) (records : list R) :
  dict_within (sdict_of (map (fun x => (key x, x)) records)) records.
Proof.
  intros k v H. unfold sdict_of, dict_of in H.
  apply dict_of_from_values in H as [[]|H].
  rewrite map_map in H. simpl in H. now rewrite map_id in H.
Qed.

Lemma sdict_of_values {V} (l : list (string * V)) k v :
  In (k, v) (sdict_of l) -> In v (map snd l).
Proof.
  intros H. unfold sdict_of, dict_of in H.
  now apply dict_of_from_values in H as [[]|H].
Qed.

(** The filler is a record of the mapping. *)
Lemma min_hash_value_by_value_in {V} (lt : V -> V -> option bool) (x : dict string V) v :
  min_hash_value_by_value lt x = Some (Some v) -> exists k, In (k, v) x.
Proof.
  unfold min_hash_value_by_value.
  destruct (sorted _ x) as [items|] eqn:Hs; [|discriminate].
  intros H. injection H as H. unfold dict_values in H.
  destruct (sdict_of items) as [|[k0 v0] d] eqn:Hd; [discriminate|].
  simpl in H. injection H as ->.
  assert (Hin : In (k0, v) (sdict_of items)) by (rewrite Hd; now left).
  apply sdict_of_values in Hin. apply in_map_iff in Hin as ([k1 v1] & E & Hin).
  simpl in E. subst v1. exists k1. now apply (sorted_incl _ _ _ Hs).
Qed.

Lemma min_hash_value_by_value_ref {V} (lt : V -> V -> option bool) (id_of : V -> Z)
      (x : dict string V) o :
  min_hash_value_by_value lt x = Some o -> filler_ref id_of x (id_or_none id_of o).
Proof.
  intros H. destruct o as [v|]; [|now left].
  right. destruct (min_hash_value_by_value_in lt x v H) as [k Hk]. now exists k, v.
Qed.

Section Steps.
Variable slugify : string -> string.
Variable rand_color : nat -> string.
Variable rejects : Store -> request -> bool.
Variable manufacturer_lt : Manufacturer -> Manufacturer -> option bool.
Variable site_lt : Site -> Site -> option bool.
Variable device_type_lt : DeviceType -> DeviceType -> option bool.
Variable role_lt : Role -> Role -> option bool.

(** A reflexive and transitive relation that logging, drawing a colour and
    the requests of [sendable] keep. *)
Variable R : World -> World -> Prop.
Variable sendable : request -> Prop.
Hypothesis facts : step_facts rand_color rejects R sendable.

Let R_refl := sf_refl _ _ _ _ facts.
Let R_trans := sf_trans _ _ _ _ facts.
Let R_log := sf_log _ _ _ _ facts.
Let R_draw := sf_draw _ _ _ _ facts.
Let R_send := sf_send _ _ _ _ facts.

Lemma step_ret {A} (a : A) : step R (ret a).
Proof. intros w. apply R_refl. Qed.

Lemma step_raise {A} (e : exn) : step R (@raise A e).
Proof. intros w. apply R_refl. Qed.

Lemma step_read {A} (f : Store -> A) : step R (read f).
Proof. intros w. apply R_refl. Qed.

Lemma step_bind {A B} (m : M A) (f : A -> M B) :
  step R m -> (forall a, step R (f a)) -> step R (bind m f).
Proof.
  intros Hm Hf w. unfold bind. specialize (Hm w).
  destruct (m w) as [[a|e] w1]; simpl in *; [|exact Hm].
  apply R_trans with w1; [exact Hm|apply Hf].
Qed.

Lemma step_for_each {A} (items : list A) (body : A -> M unit) :
  (forall x, step R (body x)) -> step R (for_each items body).
Proof.
  intros H. induction items as [|x items IH]; simpl.
  - apply step_ret.
  - apply step_bind; [apply H|intros _; exact IH].
Qed.

Lemma step_try_request item (m : M unit) : step R m -> step R (try_request item m).
Proof.
  intros Hm w. unfold try_request. specialize (Hm w).
  destruct (m w) as [[a|[]] w1]; simpl in *; try exact Hm.
  apply R_trans with w1; [exact Hm|]. now apply (R_log (Warned item)).
Qed.

Lemma step_try_stage {A} stage (default : A) (m : M A) :
  step R m -> step R (try_stage stage default m).
Proof.
  intros Hm w. unfold try_stage. specialize (Hm w).
  destruct (m w) as [[a|e] w1]; simpl in *; [exact Hm|].
  apply R_trans with w1; [exact Hm|]. now apply (R_log (Failed stage e)).
Qed.

Lemma step_subscript {K V} eqb (d : dict K V) k : step R (subscript eqb d k).
Proof. unfold subscript. destruct (dict_get eqb k d); [apply step_ret|apply step_raise]. Qed.

Lemma step_lift_sort {A} (o : option A) : step R (lift_sort o).
Proof. destruct o; [apply step_ret|apply step_raise]. Qed.

Lemma step_group_ids groups names : step R (group_ids groups names).
Proof.
  induction names as [|x names IH]; simpl; [apply step_ret|].
  apply step_bind; [apply step_subscript|intros g].
  apply step_bind; [exact IH|intros ids; apply step_ret].
Qed.

Lemma step_send r : sendable r -> step R (send rejects r).
Proof. intros H w. now apply R_send. Qed.

Lemma step_draw : step R (generate_color rand_color).
Proof. exact R_draw. Qed.

Ltac steps :=
  repeat first
    [ apply step_ret | apply step_read | apply step_raise | apply step_subscript
    | apply step_lift_sort | apply step_group_ids | apply step_draw
    | apply step_send; solve [auto]
    | apply step_try_request | apply step_try_stage
    | apply step_for_each; intros ?
    | apply step_bind; [|intros ?]
    | match goal with
      | |- step _ (if ?c then _ else _) => destruct c
      | |- step _ (match ?o with Some _ => _ | None => _ end) => destruct o
      | |- step _ (match ?a with JString _ => _ | _ => _ end) => destruct a
      end ].

Lemma groups_stage_step args :
  (forall name, sendable (CreateGroup name)) -> step R (groups_stage rejects args).
Proof. intros H. unfold groups_stage, fetch. steps. Qed.

Lemma permissions_stage_step args groups :
  (forall n e g a o, sendable (CreatePermission n e g a o)) ->
  step R (permissions_stage rejects args groups).
Proof. intros H. unfold permissions_stage, fetch. steps. Qed.

Lemma manufacturers_stage_step args :
  (forall n s, sendable (CreateManufacturer n s)) ->
  step R (manufacturers_stage slugify rejects args).
Proof. intros H. unfold manufacturers_stage, fetch. steps. Qed.

Lemma roles_stage_step args :
  (forall n s v c, sendable (CreateRole n s v c)) ->
  step R (roles_stage slugify rand_color rejects args).
Proof. intros H. unfold roles_stage, fetch. steps. Qed.

Lemma device_types_stage_step args manufacturers :
  (forall n s m, sendable (CreateDeviceType n s m)) ->
  step R (device_types_stage slugify rejects manufacturer_lt args manufacturers).
Proof. intros H. unfold device_types_stage, fetch. steps. Qed.

Lemma sites_stage_step args :
  (forall n s, sendable (CreateSite n s)) -> step R (sites_stage slugify rejects args).
Proof. intros H. unfold sites_stage, fetch. steps. Qed.

Lemma prefixes_stage_step netMap sites :
  (forall p s d, sendable (CreatePrefix p s d)) ->
  step R (prefixes_stage rejects site_lt netMap sites).
Proof. intros H. unfold prefixes_stage, fetch. steps. Qed.

(** The loop body over the new hosts: its device request names only
    fillers of the three mappings. *)
Lemma create_device_step sites deviceTypes roles host :
  (forall name site dtype role,
      filler_ref site_id sites site -> filler_ref dtype_id deviceTypes dtype ->
      filler_ref role_id roles role -> sendable (CreateDevice name site dtype role)) ->
  (forall d n t m, sendable (CreateInterface d n t m)) ->
  step R (create_device rejects site_lt device_type_lt role_lt sites deviceTypes roles host).
Proof.
  intros Hdev Hif. unfold create_device. apply step_try_request.
  destruct (min_hash_value_by_value site_lt sites) as [site|] eqn:Es;
    [|apply step_raise].
  destruct (min_hash_value_by_value device_type_lt deviceTypes) as [dType|] eqn:Et;
    [|apply step_raise].
  destruct (min_hash_value_by_value role_lt roles) as [role|] eqn:Er;
    [|apply step_raise].
  cbn [lift_sort]. rewrite !bind_ret.
  apply step_bind.
  - apply step_send. apply Hdev; eapply min_hash_value_by_value_ref; eassumption.
  - intros deviceCreated. steps.
Qed.

Lemma devices_stage_step netMap sites deviceTypes roles :
  (forall name site dtype role,
      filler_ref site_id sites site -> filler_ref dtype_id deviceTypes dtype ->
      filler_ref role_id roles role -> sendable (CreateDevice name site dtype role)) ->
  (forall d n t m, sendable (CreateInterface d n t m)) ->
  step R (devices_stage rejects site_lt device_type_lt role_lt netMap sites deviceTypes roles).
Proof.
  intros Hdev Hif. unfold devices_stage, fetch.
  apply step_bind; [apply step_read|intros pre].
  apply step_bind; [|intros _; steps].
  apply step_for_each. intros host. now apply create_device_step.
Qed.

Lemma ip_addresses_stage_step netMap devices interfaces :
  (forall a t i, sendable (CreateIpAddress a t i)) ->
  (forall d i, sendable (SavePrimaryIp4 d i)) ->
  (forall d i, sendable (SavePrimaryIp d i)) ->
  step R (ip_addresses_stage rejects netMap devices interfaces).
Proof.
  intros H1 H2 H3. unfold ip_addresses_stage, create_ip_address, fetch, get_device. steps.
Qed.

Lemma vrf_stage_step :
  (forall p d, sendable (UpdatePrefixDescription p d)) -> step R (vrf_stage rejects).
Proof. intros H. unfold vrf_stage, prefixes_to_migrate. steps. Qed.

(** The same stages, with what they ask for told apart by what they fetched
    first: a loop over [missing] sends requests for absent keys only. *)
Lemma step_for_each_in {A} (items : list A) (body : A -> M unit) :
  (forall x, In x items -> step R (body x)) -> step R (for_each items body).
Proof.
  intros H. induction items as [|x items IH]; simpl.
  - apply step_ret.
  - apply step_bind; [apply H; now left|intros _; apply IH].
    intros y Hy. apply H. now right.
Qed.

Lemma in_missing {V} x requested (pre : dict string V) :
  In x (missing requested pre) -> sdict_mem x pre = false.
Proof.
  unfold missing. rewrite filter_In. intros [_ H]. now apply negb_true_iff in H.
Qed.

Lemma groups_stage_fresh args w :
  (forall name, sdict_mem name (index_of groups_of group_name (store w)) = false ->
                sendable (CreateGroup name)) ->
  R w (snd (groups_stage rejects args w)).
Proof.
  intros H. unfold groups_stage. unfold bind at 1. unfold fetch at 1, read.
  fold (index_of groups_of group_name (store w)).
  apply step_bind; [|intros _; apply step_read].
  apply step_for_each_in. intros x Hx. apply in_missing in Hx. steps.
Qed.

Lemma permissions_stage_fresh args groups w :
  (forall n e g a o, sdict_mem n (index_of permissions_of perm_name (store w)) = false ->
                     sendable (CreatePermission n e g a o)) ->
  R w (snd (permissions_stage rejects args groups w)).
Proof.
  intros H. unfold permissions_stage. unfold bind at 1. unfold read at 1.
  unfold bind at 1. unfold fetch at 1, read.
  fold (index_of permissions_of perm_name (store w)).
  apply step_bind; [|intros _; apply step_read].
  apply step_for_each_in. intros kv Hkv. apply filter_In in Hkv as [_ Hkv].
  apply andb_true_iff in Hkv as [_ Hkv]. apply negb_true_iff in Hkv. steps.
Qed.

Lemma manufacturers_stage_fresh args w :
  (forall n s, sdict_mem n (index_of manufacturers_of manuf_name (store w)) = false ->
               sendable (CreateManufacturer n s)) ->
  R w (snd (manufacturers_stage slugify rejects args w)).
Proof.
  intros H. unfold manufacturers_stage. unfold bind at 1. unfold fetch at 1, read.
  fold (index_of manufacturers_of manuf_name (store w)).
  apply step_bind; [|intros _; apply step_read].
  apply step_for_each_in. intros x Hx. apply in_missing in Hx. steps.
Qed.

Lemma roles_stage_fresh args w :
  (forall n s v c, sdict_mem n (index_of roles_of role_name (store w)) = false ->
                   sendable (CreateRole n s v c)) ->
  R w (snd (roles_stage slugify rand_color rejects args w)).
Proof.
  intros H. unfold roles_stage. unfold bind at 1. unfold fetch at 1, read.
  fold (index_of roles_of role_name (store w)).
  apply step_bind; [|intros _; apply step_read].
  apply step_for_each_in. intros x Hx. apply in_missing in Hx. steps.
Qed.

Lemma device_types_stage_fresh args manufacturers w :
  (forall n s m, sdict_mem n (index_of device_types_of dtype_model (store w)) = false ->
                 sendable (CreateDeviceType n s m)) ->
  R w (snd (device_types_stage slugify rejects manufacturer_lt args manufacturers w)).
Proof.
  intros H. unfold device_types_stage. unfold bind at 1. unfold fetch at 1, read.
  fold (index_of device_types_of dtype_model (store w)).
  apply step_bind; [|intros _; apply step_read].
  apply step_for_each_in. intros x Hx. apply in_missing in Hx. steps.
Qed.

Lemma sites_stage_fresh args w :
  (forall n s, sdict_mem n (index_of sites_of site_name (store w)) = false ->
               sendable (CreateSite n s)) ->
  R w (snd (sites_stage slugify rejects args w)).
Proof.
  intros H. unfold sites_stage. unfold bind at 1. unfold fetch at 1, read.
  fold (index_of sites_of site_name (store w)).
  apply step_bind; [|intros _; apply step_read].
  apply step_for_each_in. intros x Hx. apply in_missing in Hx. steps.
Qed.

Lemma devices_stage_fresh netMap sites deviceTypes roles w :
  (forall n s t o, sdict_mem n (index_of devices_of device_name (store w)) = false ->
                   sendable (CreateDevice n s t o)) ->
  (forall d n t m, sendable (CreateInterface d n t m)) ->
  R w (snd (devices_stage rejects site_lt device_type_lt role_lt netMap sites
              deviceTypes roles w)).
Proof.
  intros H Hi. unfold devices_stage. unfold bind at 1. unfold fetch at 1. unfold read at 1.
  fold (index_of devices_of device_name (store w)).
  apply step_bind; [|intros _; unfold fetch; steps].
  apply step_for_each_in. intros host Hh.
  assert (Hn : sdict_mem (host_name host)
                         (index_of devices_of device_name (store w)) = false).
  { unfold new_hosts_of in Hh. apply in_flat_map in Hh as ([type name address|] & _ & Hh); [|destruct Hh].
    destruct (_ && _) eqn:E; [|destruct Hh]. destruct Hh as [<-|[]]. simpl.
    apply andb_true_iff in E as [_ E]. now apply negb_true_iff in E. }
  unfold create_device. steps.
Qed.

Lemma ip_addresses_stage_fresh netMap devices interfaces w :
  (forall a t i, is_ip_address a = true ->
                 sdict_mem (host_key a) (index_of ip_addresses_of ip_address (store w)) = false ->
                 sendable (CreateIpAddress a t i)) ->
  (forall d i, sendable (SavePrimaryIp4 d i)) ->
  (forall d i, sendable (SavePrimaryIp d i)) ->
  R w (snd (ip_addresses_stage rejects netMap devices interfaces w)).
Proof.
  intros H H4 H6. unfold ip_addresses_stage. unfold bind at 1. unfold fetch at 1, read.
  fold (index_of ip_addresses_of ip_address (store w)).
  apply step_bind; [|intros _; apply step_read].
  apply step_for_each_in. intros host Hh.
  assert (Hip : is_ip_address (host_address host) = true).
  { unfold ip_hosts_of in Hh. apply in_flat_map in Hh as ([type name address|] & _ & Hh); [|destruct Hh].
    destruct (_ && _) eqn:E; [|destruct Hh]. destruct Hh as [<-|[]]. simpl.
    apply andb_true_iff in E as [E _]. now apply andb_true_iff in E as [_ E]. }
  unfold create_ip_address. fold (host_key (host_address host)).
  apply step_try_request.
  destruct (sdict_mem (host_key (host_address host)) _) eqn:Ek; cbn [negb];
    [apply step_ret|].
  unfold get_device. steps.
Qed.

End Steps.

(** *** The store only grows, and accepted creations stay *)

Lemma grows_refl s : grows s s.
Proof. repeat split; apply incl_refl. Qed.

Lemma grows_trans a b c : grows a b -> grows b c -> grows a c.
Proof.
  intros (H1 & H2 & H3) (K1 & K2 & K3).
  repeat split; eapply incl_tran; eassumption.
Qed.

Lemma grows_apply r s : grows s (fst (apply_request r s)).
Proof.
  destruct r; simpl; repeat split;
    first [apply incl_refl | apply incl_appl, incl_refl].
Qed.

Lemma emitted_refl w : emitted w w [].
Proof. unfold emitted. now rewrite app_nil_r. Qed.

Lemma emitted_trans a b c e1 e2 :
  emitted a b e1 -> emitted b c e2 -> emitted a c (e1 ++ e2).
Proof. unfold emitted. intros H1 H2. now rewrite H2, H1, app_assoc. Qed.

Section Runs.
Variable rand_color : nat -> string.
Variable rejects : Store -> request -> bool.
Variable P : event -> Prop.
Hypothesis P_log : forall e, is_log e -> P e.

Lemma runs_refl w : runs P grows w w.
Proof. split; [apply grows_refl|]. exists []. split; [apply emitted_refl|constructor]. Qed.

Lemma runs_trans a b c : runs P grows a b -> runs P grows b c -> runs P grows a c.
Proof.
  intros (G1 & e1 & E1 & F1) (G2 & e2 & E2 & F2). split.
  - eapply grows_trans; eassumption.
  - exists (e1 ++ e2)%list. split; [eapply emitted_trans; eassumption|].
    apply Forall_app. now split.
Qed.

Lemma runs_log e w : is_log e -> runs P grows w (snd (emit e w)).
Proof.
  intros H. split; [apply grows_refl|]. exists [e]. split; [reflexivity|].
  constructor; [now apply P_log|constructor].
Qed.

Lemma runs_draw w : runs P grows w (snd (generate_color rand_color w)).
Proof.
  split; [apply grows_refl|]. exists [].
  split; [unfold emitted; simpl; now rewrite app_nil_r|constructor].
Qed.

Lemma runs_send r w :
  (forall b, P (Requested r b)) -> runs P grows w (snd (send rejects r w)).
Proof.
  intros H. unfold send. destruct (rejects (store w) r || negb (well_formed r)).
  - split; [apply grows_refl|]. exists [Requested r false].
    split; [reflexivity|]. constructor; [apply H|constructor].
  - pose proof (grows_apply r (store w)) as G.
    destruct (apply_request r (store w)) as [s' i]. simpl in *.
    split; [exact G|]. exists [Requested r true].
    split; [reflexivity|]. constructor; [apply H|constructor].
Qed.
End Runs.

Lemma set_primary_ip4_fields dev ip d :
  device_name (set_primary_ip4 dev ip d) = device_name d
  /\ device_site (set_primary_ip4 dev ip d) = device_site d
  /\ device_device_type (set_primary_ip4 dev ip d) = device_device_type d
  /\ device_role (set_primary_ip4 dev ip d) = device_role d
  /\ device_id (set_primary_ip4 dev ip d) = device_id d.
Proof. unfold set_primary_ip4. destruct (device_id d =? dev)%Z; repeat split. Qed.

Lemma set_primary_ip_fields dev ip d :
  device_name (set_primary_ip dev ip d) = device_name d
  /\ device_site (set_primary_ip dev ip d) = device_site d
  /\ device_device_type (set_primary_ip dev ip d) = device_device_type d
  /\ device_role (set_primary_ip dev ip d) = device_role d
  /\ device_id (set_primary_ip dev ip d) = device_id d.
Proof. unfold set_primary_ip. destruct (device_id d =? dev)%Z; repeat split. Qed.

Lemma set_description_fields pfx description p :
  prefix_prefix (set_description pfx description p) = prefix_prefix p
  /\ prefix_site (set_description pfx description p) = prefix_site p.
Proof. unfold set_description. destruct (prefix_id p =? pfx)%Z; repeat split. Qed.

(** What is stored stays stored, whatever is accepted next. *)
Lemma stored_apply_mono r r' s : stored r s -> stored r (fst (apply_request r' s)).
Proof.
  destruct r'; destruct r; simpl; intros H; auto;
    try (destruct H as (x & Hin & Hrest); exists x;
         split; [apply in_or_app; now left|exact Hrest]).
  - destruct H as (x & Hin & H1 & H2 & H3 & H4).
    exists (set_primary_ip4 device ip x).
    destruct (set_primary_ip4_fields device ip x) as (E1 & E2 & E3 & E4 & _).
    split; [now apply in_map|]. now rewrite E1, E2, E3, E4.
  - destruct H as (x & Hin & H1 & H2 & H3 & H4).
    exists (set_primary_ip device ip x).
    destruct (set_primary_ip_fields device ip x) as (E1 & E2 & E3 & E4 & _).
    split; [now apply in_map|]. now rewrite E1, E2, E3, E4.
  - destruct H as (x & Hin & H1 & H2).
    exists (set_description prefix description x).
    destruct (set_description_fields prefix description x) as (E1 & E2).
    split; [now apply in_map|]. now rewrite E1, E2.
Qed.

(** An accepted creation is stored. *)
Lemma stored_apply_self r s : stored r (fst (apply_request r s)).
Proof.
  destruct r; simpl; auto;
    (eexists; split; [apply in_or_app; right; now left|simpl; repeat split]).
Qed.

Section Persists.
Variable rand_color : nat -> string.
Variable rejects : Store -> request -> bool.

Lemma persists_refl w : persists w w.
Proof.
  split; [auto|]. exists []. split; [apply emitted_refl|]. intros r [].
Qed.

Lemma persists_trans a b c : persists a b -> persists b c -> persists a c.
Proof.
  intros (M1 & e1 & E1 & F1) (M2 & e2 & E2 & F2). split; [auto|].
  exists (e1 ++ e2)%list. split; [eapply emitted_trans; eassumption|].
  intros r Hin. apply in_app_or in Hin as [Hin|Hin]; auto.
Qed.

Lemma persists_log e w : is_log e -> persists w (snd (emit e w)).
Proof.
  intros H. split; [auto|]. exists [e]. split; [reflexivity|].
  intros r [E|[]]. subst e. destruct H.
Qed.

Lemma persists_draw w : persists w (snd (generate_color rand_color w)).
Proof.
  split; [auto|]. exists [].
  split; [unfold emitted; simpl; now rewrite app_nil_r|]. intros r [].
Qed.

Lemma persists_send r w : True -> persists w (snd (send rejects r w)).
Proof.
  intros _. unfold send. destruct (rejects (store w) r || negb (well_formed r)).
  - split; [auto|]. exists [Requested r false]. split; [reflexivity|].
    intros r0 [E|[]]. discriminate E.
  - pose proof (stored_apply_self r (store w)) as Hs.
    pose proof (fun r0 => stored_apply_mono r0 r (store w)) as Hm.
    destruct (apply_request r (store w)) as [s' i]. simpl in *.
    split; [exact Hm|]. exists [Requested r true]. split; [reflexivity|].
    intros r0 [E|[]]. injection E as <-. exact Hs.
Qed.
End Persists.

(** *** The mappings that the stages leave to the net map *)

Lemma ends_within_fetch {R} (all : Store -> list R) key : ends_within all (fetch all key).
Proof.
  intros w d w' H. unfold fetch, read in H. injection H as <- <-.
  apply sdict_of_within.
Qed.

Lemma ends_within_bind {A R} (all : Store -> list R) (m : M A) f :
  (forall a, ends_within all (f a)) -> ends_within all (bind m f).
Proof.
  intros Hf w d w' H. unfold bind in H.
  destruct (m w) as [[a|e] w1]; [|discriminate]. now apply (Hf a w1).
Qed.

Lemma try_stage_within {R} (all : Store -> list R) stage (m : M (dict string R)) w :
  ends_within all m ->
  exists d w', try_stage stage [] m w = (Ok d, w') /\ dict_within d (all (store w')).
Proof.
  intros Hm. unfold try_stage. destruct (m w) as [[d|e] w1] eqn:E.
  - exists d, w1. split; [reflexivity|]. now apply (Hm w).
  - eexists _, _. split; [reflexivity|]. intros k v [].
Qed.

Lemma try_stage_ok {A} stage (default : A) (m : M A) w :
  exists a w', try_stage stage default m w = (Ok a, w').
Proof.
  unfold try_stage. destruct (m w) as [[a|e] w1]; eexists _, _; reflexivity.
Qed.

Lemma dict_within_incl {R} (d : dict string R) l l' :
  dict_within d l -> incl l l' -> dict_within d l'.
Proof. intros H Hi k v Hin. apply Hi. now apply (H k). Qed.

Lemma filler_ref_within {R} (id_of : R -> Z) d l o :
  filler_ref id_of d o -> dict_within d l -> ref_within (map id_of l) o.
Proof.
  intros [->|(k & v & Hin & ->)] Hd; simpl; [exact I|].
  apply in_map. now apply (Hd k).
Qed.

Section Dependencies.
Variable slugify : string -> string.
Variable rand_color : nat -> string.
Variable rejects : Store -> request -> bool.
Variable manufacturer_lt : Manufacturer -> Manufacturer -> option bool.
Variable site_lt : Site -> Site -> option bool.
Variable device_type_lt : DeviceType -> DeviceType -> option bool.
Variable role_lt : Role -> Role -> option bool.

Local Abbreviation main' :=
  (main slugify rand_color rejects manufacturer_lt site_lt device_type_lt role_lt).
Local Abbreviation catalog_stages' :=
  (catalog_stages slugify rand_color rejects manufacturer_lt).
Local Abbreviation net_map_stage' :=
  (net_map_stage rejects site_lt device_type_lt role_lt).

(** What [main] does after the stages before the net map. *)
Lemma main_after_catalog args w :
  main' args w
  = match catalog_stages' args w with
    | (Ok (sites, deviceTypes, roles), w1) =>
        (try_stage "net map" tt (net_map_stage' args sites deviceTypes roles) ;;;
         try_stage "prefix descriptions" tt (vrf_stage rejects)) w1
    | (Raise e, w1) => (Raise e, w1)
    end.
Proof.
  unfold main, catalog_stages, bind.
  destruct (try_stage "groups" _ _ w) as [[groups|e] w1]; [|reflexivity].
  destruct (try_stage "permissions" _ _ w1) as [[perms|e] w2]; [|reflexivity].
  destruct (try_stage "manufacturers" _ _ w2) as [[manufs|e] w3]; [|reflexivity].
  destruct (try_stage "roles" _ _ w3) as [[roles|e] w4]; [|reflexivity].
  destruct (try_stage "device types" _ _ w4) as [[dts|e] w5]; [|reflexivity].
  destruct (try_stage "sites" _ _ w5) as [[sites|e] w6]; reflexivity.
Qed.

Let quiet := runs no_device_request grows.
Let quiet_request (r : request) : Prop := forall b, no_device_request (Requested r b).

Lemma quiet_facts : step_facts rand_color rejects quiet quiet_request.
Proof.
  assert (L : forall e, is_log e -> no_device_request e) by (intros [[]| |]; simpl; tauto).
  constructor.
  - apply runs_refl.
  - apply runs_trans.
  - intros e w H. now apply runs_log.
  - apply runs_draw.
  - intros r w H. now apply runs_send.
Qed.

Ltac quiet_stage lem E :=
  match type of E with
  | ?m ?w = (_, ?w') =>
      replace w' with (snd (m w)) by (now rewrite E);
      eapply step_try_stage; [apply quiet_facts|];
      eapply lem; [apply quiet_facts|..]; intros; intros ?; exact I
  end.

(** The stages before the net map ask for no device, and each of the three
    mappings they return holds records of the store they leave. *)
Lemma catalog_stages_spec args w :
  exists sites deviceTypes roles w1,
    catalog_stages' args w = (Ok (sites, deviceTypes, roles), w1)
    /\ quiet w w1
    /\ dict_within sites (sites_of (store w1))
    /\ dict_within deviceTypes (device_types_of (store w1))
    /\ dict_within roles (roles_of (store w1)).
Proof.
  pose proof (sf_trans _ _ _ _ quiet_facts) as Qt.
  unfold catalog_stages, bind.
  destruct (try_stage_ok "groups" [] (groups_stage rejects args) w) as (groups & w1 & E1).
  assert (S1 : quiet w w1) by quiet_stage groups_stage_step E1.
  rewrite E1.
  destruct (try_stage_ok "permissions" [] (permissions_stage rejects args groups) w1)
    as (perms & w2 & E2).
  assert (S2 : quiet w1 w2) by quiet_stage permissions_stage_step E2.
  rewrite E2.
  destruct (try_stage_ok "manufacturers" []
              (manufacturers_stage slugify rejects args) w2) as (manufs & w3 & E3).
  assert (S3 : quiet w2 w3) by quiet_stage manufacturers_stage_step E3.
  rewrite E3.
  destruct (try_stage_within roles_of "roles"
              (roles_stage slugify rand_color rejects args) w3)
    as (roles & w4 & E4 & D4).
  { unfold roles_stage. apply ends_within_bind. intros pre.
    apply ends_within_bind. intros _. apply ends_within_fetch. }
  assert (S4 : quiet w3 w4) by quiet_stage roles_stage_step E4.
  rewrite E4.
  destruct (try_stage_within device_types_of "device types"
              (device_types_stage slugify rejects manufacturer_lt args manufs) w4)
    as (dts & w5 & E5 & D5).
  { unfold device_types_stage. apply ends_within_bind. intros pre.
    apply ends_within_bind. intros _. apply ends_within_fetch. }
  assert (S5 : quiet w4 w5) by quiet_stage device_types_stage_step E5.
  rewrite E5.
  destruct (try_stage_within sites_of "sites" (sites_stage slugify rejects args) w5)
    as (sites & w6 & E6 & D6).
  { unfold sites_stage. apply ends_within_bind. intros pre.
    apply ends_within_bind. intros _. apply ends_within_fetch. }
  assert (S6 : quiet w5 w6) by quiet_stage sites_stage_step E6.
  rewrite E6.
  exists sites, dts, roles, w6. split; [reflexivity|].
  split; [eauto 10|].
  destruct S5 as ((_ & _ & G5) & _). destruct S6 as ((_ & G6d & G6r) & _).
  split; [exact D6|]. split.
  - eapply dict_within_incl; eassumption.
  - eapply dict_within_incl; [exact D4|]. eapply incl_tran; eassumption.
Qed.

Lemma try_stage_bind_ok {A B} stage (d : B) (m : M A) (f : A -> M B) w a w' :
  m w = (Ok a, w') -> try_stage stage d (bind m f) w = try_stage stage d (f a) w'.
Proof. intros E. unfold try_stage, bind. now rewrite E. Qed.

Lemma try_stage_bind_raise {A B} stage (d : B) (m : M A) (f : A -> M B) w e w' :
  m w = (Raise e, w') ->
  try_stage stage d (bind m f) w = (Ok d, snd (emit (Failed stage e) w')).
Proof. intros E. unfold try_stage, bind. now rewrite E. Qed.

Section After.
Variable s : Store.

Let careful := runs (device_refs_within s) grows.
Let careful_request (r : request) : Prop :=
  forall b, device_refs_within s (Requested r b).

Lemma careful_facts : step_facts rand_color rejects careful careful_request.
Proof.
  assert (L : forall e, is_log e -> device_refs_within s e)
    by (intros [[]| |]; simpl; tauto).
  constructor.
  - apply runs_refl.
  - apply runs_trans.
  - intros e w H. now apply runs_log.
  - apply runs_draw.
  - intros r w H. now apply runs_send.
Qed.

(** From the loop over the hosts to the end of [main]: a device is asked
    for with fillers of the three mappings only. *)
Lemma from_devices_step netMap sites deviceTypes roles :
  dict_within sites (sites_of s) ->
  dict_within deviceTypes (device_types_of s) ->
  dict_within roles (roles_of s) ->
  step careful
       (try_stage "net map" tt
          (di <- devices_stage rejects site_lt device_type_lt role_lt
                   netMap sites deviceTypes roles ;;
           ipAddresses <- ip_addresses_stage rejects netMap (fst di) (snd di) ;;
           ret tt) ;;;
        try_stage "prefix descriptions" tt (vrf_stage rejects)).
Proof.
  intros Ds Dt Dr.
  eapply step_bind; [apply careful_facts| |intros _].
  - eapply step_try_stage; [apply careful_facts|].
    eapply step_bind; [apply careful_facts| |intros di].
    + eapply devices_stage_step; [apply careful_facts| |].
      * intros name site dtype role Hs Ht Hr b. simpl.
        repeat split; eapply filler_ref_within; eassumption.
      * intros d n t m b. exact I.
    + eapply step_bind; [apply careful_facts| |intros ips].
      * eapply ip_addresses_stage_step; [apply careful_facts|..];
          intros; intros ?; exact I.
      * eapply step_ret. apply careful_facts.
  - eapply step_try_stage; [apply careful_facts|].
    eapply vrf_stage_step; [apply careful_facts|]. intros; intros ?; exact I.
Qed.
End After.

(** C7. Before the loop over the hosts starts, no device is asked for; from
    then on every device that is asked for refers, for its site, its device
    type and its role, to nothing or to a record that the store held when
    the loop started.  Without a net map, or when its prefixes fail, no
    device is asked for at all. *)
Theorem devices_refer_to_earlier_records (args : Args) (w : World) :
  match world_before_devices slugify rand_color rejects manufacturer_lt site_lt args w with
  | Some (sites, deviceTypes, roles, wd) =>
      exists before after,
        emitted w wd before /\ Forall no_device_request before
        /\ emitted wd (snd (main' args w)) after
        /\ Forall (device_refs_within (store wd)) after
  | None =>
      exists evs, emitted w (snd (main' args w)) evs /\ Forall no_device_request evs
  end.
Proof.
  pose proof quiet_facts as QF. pose proof (sf_trans _ _ _ _ QF) as Qt.
  rewrite main_after_catalog. unfold world_before_devices.
  destruct (catalog_stages_spec args w)
    as (sites & dts & roles & w1 & E & Q1 & Ds & Dt & Dr).
  rewrite E. unfold net_map_stage. destruct (netMapJson args) as [netMap|].
  - assert (Qp : quiet w1 (snd (prefixes_stage rejects site_lt netMap sites w1))).
    { eapply prefixes_stage_step; [apply quiet_facts|]. intros; intros ?; exact I. }
    destruct (prefixes_stage rejects site_lt netMap sites w1) as [[pfx|e] wd] eqn:Ep;
      simpl in Qp.
    + destruct (Qt _ _ _ Q1 Qp) as (_ & before & Eb & Fb).
      exists before. unfold bind at 1.
      rewrite (try_stage_bind_ok _ _ _ _ _ _ _ Ep).
      destruct Qp as ((Gs & Gt & Gr) & _).
      pose proof (from_devices_step (store wd) netMap sites dts roles
                    (dict_within_incl _ _ _ Ds Gs) (dict_within_incl _ _ _ Dt Gt)
                    (dict_within_incl _ _ _ Dr Gr) wd) as (_ & after & Ea & Fa).
      exists after. repeat split; assumption.
    + unfold bind at 1. rewrite (try_stage_bind_raise _ _ _ _ _ _ _ Ep).
      assert (Ql : quiet wd (snd (emit (Failed "net map" e) wd)))
        by (apply (sf_log _ _ _ _ QF); exact I).
      assert (Qv : quiet (snd (emit (Failed "net map" e) wd))
                         (snd (try_stage "prefix descriptions" tt (vrf_stage rejects)
                                 (snd (emit (Failed "net map" e) wd))))).
      { eapply step_try_stage; [apply quiet_facts|].
        eapply vrf_stage_step; [apply quiet_facts|]. intros; intros ?; exact I. }
      destruct (Qt _ _ _ Q1 (Qt _ _ _ Qp (Qt _ _ _ Ql Qv))) as (_ & evs & Ee & Fe).
      now exists evs.
  - assert (Qv : quiet w1
                   (snd ((try_stage "net map" tt (ret tt) ;;;
                          try_stage "prefix descriptions" tt (vrf_stage rejects)) w1))).
    { eapply step_bind; [apply quiet_facts| |intros _].
      - eapply step_try_stage; [apply quiet_facts|]. eapply step_ret. apply quiet_facts.
      - eapply step_try_stage; [apply quiet_facts|].
        eapply vrf_stage_step; [apply quiet_facts|]. intros; intros ?; exact I. }
    destruct (Qt _ _ _ Q1 Qv) as (_ & evs & Ee & Fe). now exists evs.
Qed.

End Dependencies.

(** ** netbox_init.py: a rejected item does not stop its stage *)






(** A loop whose body returns for every item of the list attempts the items
    that [keep] selects. *)
Lemma for_each_attempts_where {A} (keep : A -> bool) (req : A -> request -> Prop)
      (body : A -> M unit) items :
  (forall x w, In x items ->
               fst (body x w) = Ok tt
               /\ exists evs, emitted w (snd (body x w)) evs
                              /\ (keep x = true ->
                                  exists r ok, req x r /\ In (Requested r ok) evs)) ->
  forall w,
    fst (for_each items body w) = Ok tt
    /\ exists evs, emitted w (snd (for_each items body w)) evs
                   /\ all_attempted (filter keep items) req evs.
Proof.
  induction items as [|x items IH]; intros Hb w.
  - split; [reflexivity|]. exists []. split; [apply emitted_refl|]. intros x [].
  - destruct (Hb x w (or_introl eq_refl)) as (Hok & e1 & E1 & Hreq).
    cbn [for_each]. unfold bind at 1 2.
    destruct (body x w) as [[[]|e] w1]; simpl in Hok; [|discriminate].
    simpl in E1.
    destruct (IH (fun y w' Hy => Hb y w' (or_intror Hy)) w1) as (Hok2 & e2 & E2 & Hall).
    split; [exact Hok2|]. exists (e1 ++ e2)%list.
    split; [eapply emitted_trans; eassumption|].
    intros y Hy. cbn [filter] in Hy. destruct (keep x) eqn:K.
    + destruct Hy as [<-|Hy].
      * destruct (Hreq eq_refl) as (r & ok & Hr & Hin).
        exists r, ok. split; [exact Hr|]. apply in_or_app. now left.
      * destruct (Hall y Hy) as (r' & ok' & Hr' & Hin').
        exists r', ok'. split; [exact Hr'|]. apply in_or_app. now right.
    + destruct (Hall y Hy) as (r' & ok' & Hr' & Hin').
      exists r', ok'. split; [exact Hr'|]. apply in_or_app. now right.
Qed.

Section Isolation.
Variable slugify : string -> string.
Variable rand_color : nat -> string.
Variable rejects : Store -> request -> bool.
Variable manufacturer_lt : Manufacturer -> Manufacturer -> option bool.
Variable site_lt : Site -> Site -> option bool.
Variable device_type_lt : DeviceType -> DeviceType -> option bool.
Variable role_lt : Role -> Role -> option bool.

Lemma persists_facts : step_facts rand_color rejects persists (fun _ => True).
Proof.
  constructor.
  - apply persists_refl.
  - apply persists_trans.
  - apply persists_log.
  - apply persists_draw.
  - intros r w H. now apply persists_send.
Qed.

(** One request in a [try]: the body returns and the request is in the
    trace, accepted or not. *)
Lemma send_once_attempts item r w :
  fst (try_request item (x <- send rejects r ;; ret tt) w) = Ok tt
  /\ exists evs, emitted w (snd (try_request item (x <- send rejects r ;; ret tt) w)) evs
                 /\ exists ok, In (Requested r ok) evs.
Proof.
  unfold try_request, bind, send. destruct (rejects (store w) r || negb (well_formed r)).
  - split; [reflexivity|]. exists [Requested r false; Warned item].
    split; [unfold emitted; simpl; now rewrite <- app_assoc|].
    exists false. now left.
  - destruct (apply_request r (store w)) as [s' i].
    split; [reflexivity|]. exists [Requested r true].
    split; [reflexivity|]. exists true. now left.
Qed.













Local Abbreviation create_device' :=
  (create_device rejects site_lt device_type_lt role_lt).








End Isolation.



(** ** netbox_init.py: the interface of a new device *)



Section Classification.
Variable rejects : Store -> request -> bool.
Variable site_lt : Site -> Site -> option bool.
Variable device_type_lt : DeviceType -> DeviceType -> option bool.
Variable role_lt : Role -> Role -> option bool.



End Classification.


(** ** netbox_init.py: runs on given stores *)

(** C6. With the net map of one host [h1] at 10.0.0.5 and a store that holds
    exactly one site, one device type and one role and accepts what it is
    asked, the run leaves one device [h1] with the three as its site, type and
    role, one interface of that device, one address record 10.0.0.5/32
    assigned to that interface, and the record as the primary IPv4 address of
    the device. *)
Theorem host_import_example
        (slugify : string -> string) (rand_color : nat -> string)
        (manufacturer_lt : Manufacturer -> Manufacturer -> option bool)
        (site_lt : Site -> Site -> option bool)
        (device_type_lt : DeviceType -> DeviceType -> option bool)
        (role_lt : Role -> Role -> option bool)
        (st : Site) (dt : DeviceType) (ro : Role) :
  let after :=
    store (snd (main slugify rand_color accept_all manufacturer_lt site_lt device_type_lt
                     role_lt (args_with [host_item "h1" "10.0.0.5"])
                     (start (one_of_each st dt ro)))) in
  devices_of after
  = [{| device_id := 1; device_name := "h1"; device_site := Some (site_id st);
        device_device_type := Some (dtype_id dt); device_role := Some (role_id ro);
        device_primary_ip4 := Some 1%Z; device_primary_ip := None |}]
  /\ interfaces_of after
     = [{| iface_id := 1; iface_device := 1; iface_name := "default";
           iface_type := "other"; iface_mac_address := None |}]
  /\ ip_addresses_of after
     = [{| ip_id := 1; ip_address := "10.0.0.5/32";
           ip_assigned_object_type := "dcim.interface"; ip_assigned_object_id := 1 |}]
  /\ sites_of after = [st] /\ device_types_of after = [dt] /\ roles_of after = [ro].
Proof. vm_compute. repeat split. Qed.

(** C1, at the input where it fails: a net map with one segment and a store
    that accepts what it is asked.  The first run creates the prefix, the
    second run asks for it again and the store holds it twice. *)
Lemma second_run_creates_prefix_again :
  map prefix_prefix
      (prefixes_of (store (run_main accept_all (args_with one_segment) (start seeded_store))))
  = ["10.0.0.0/8"]
  /\ map prefix_prefix
         (prefixes_of
            (store (run_main accept_all (args_with one_segment)
                      (run_main accept_all (args_with one_segment) (start seeded_store)))))
     = ["10.0.0.0/8"; "10.0.0.0/8"]
  /\ skipn (List.length
              (trace (run_main accept_all (args_with one_segment) (start seeded_store))))
           (trace (run_main accept_all (args_with one_segment)
                     (run_main accept_all (args_with one_segment) (start seeded_store))))
     = [Requested (CreatePrefix "10.0.0.0/8" (Some 1%Z) "lan") true].
Proof. vm_compute. repeat split. Qed.

(** C2, at the input where it fails: the prefix of the segment is in the
    store when the stage begins, and the stage asks for it all the same,
    whatever the store answers. *)
Lemma prefix_requested_although_present
      (rejects : Store -> request -> bool) (site_lt : Site -> Site -> option bool) :
  sdict_mem "10.0.0.0/8" (index_of prefixes_of prefix_prefix store_with_prefix) = true
  /\ exists ok,
      trace (snd (prefixes_stage rejects site_lt one_segment
                    (index_of sites_of site_name store_with_prefix)
                    (start store_with_prefix)))
      = Requested (CreatePrefix "10.0.0.0/8" (Some 1%Z) "lan") ok
          :: (if ok then [] else [Warned "10.0.0.0/8"]).
Proof.
  split; [reflexivity|]. vm_compute.
  match goal with |- context [rejects ?a ?b] => destruct (rejects a b) end;
    [exists false|exists true]; reflexivity.
Qed.

(** ** netbox_init.py: reading before writing *)

Lemma ip_address_without_slash (a : string) :
  is_ip_address a = true -> contains_char "/"%char a = false.
Proof.
  unfold is_ip_address, ip_address_ok, IPv4Address, IPv6Address.
  destruct (contains_char "/"%char a); [discriminate|reflexivity].
Qed.

Lemma stored_address_host_key (a : string) :
  is_ip_address a = true -> stored_address a = host_key a.
Proof.
  intros H. unfold stored_address, host_key. now rewrite (ip_address_without_slash a H).
Qed.

Section ReadFirst.
Variable slugify : string -> string.
Variable rand_color : nat -> string.
Variable rejects : Store -> request -> bool.
Variable manufacturer_lt : Manufacturer -> Manufacturer -> option bool.
Variable site_lt : Site -> Site -> option bool.
Variable device_type_lt : DeviceType -> DeviceType -> option bool.
Variable role_lt : Role -> Role -> option bool.

Lemma fresh_facts {V} (index : dict string V) :
  step_facts rand_color rejects (runs (fresh_for index) grows)
             (fun r => forall b, fresh_for index (Requested r b)).
Proof.
  assert (L : forall e, is_log e -> fresh_for index e) by (intros [r b| |]; simpl; tauto).
  constructor.
  - apply runs_refl.
  - apply runs_trans.
  - intros e w H. now apply runs_log.
  - apply runs_draw.
  - intros r w H. now apply runs_send.
Qed.

(** X12.  Every stage but the one of the prefixes asks the store to create only
    what was not in the mapping it fetched when it began. *)
Lemma stages_but_prefixes_read_first :
  (forall args w, exists evs,
      emitted w (snd (groups_stage rejects args w)) evs
      /\ Forall (fresh_for (index_of groups_of group_name (store w))) evs)
  /\ (forall args groups w, exists evs,
         emitted w (snd (permissions_stage rejects args groups w)) evs
         /\ Forall (fresh_for (index_of permissions_of perm_name (store w))) evs)
  /\ (forall args w, exists evs,
         emitted w (snd (manufacturers_stage slugify rejects args w)) evs
         /\ Forall (fresh_for (index_of manufacturers_of manuf_name (store w))) evs)
  /\ (forall args w, exists evs,
         emitted w (snd (roles_stage slugify rand_color rejects args w)) evs
         /\ Forall (fresh_for (index_of roles_of role_name (store w))) evs)
  /\ (forall args manufacturers w, exists evs,
         emitted w (snd (device_types_stage slugify rejects manufacturer_lt args
                           manufacturers w)) evs
         /\ Forall (fresh_for (index_of device_types_of dtype_model (store w))) evs)
  /\ (forall args w, exists evs,
         emitted w (snd (sites_stage slugify rejects args w)) evs
         /\ Forall (fresh_for (index_of sites_of site_name (store w))) evs)
  /\ (forall netMap sites deviceTypes roles w, exists evs,
         emitted w (snd (devices_stage rejects site_lt device_type_lt role_lt netMap
                           sites deviceTypes roles w)) evs
         /\ Forall (fresh_for (index_of devices_of device_name (store w))) evs)
  /\ (forall netMap devices interfaces w, exists evs,
         emitted w (snd (ip_addresses_stage rejects netMap devices interfaces w)) evs
         /\ Forall (fresh_for (index_of ip_addresses_of ip_address (store w))) evs).
Proof.
  repeat split; intros;
    match goal with
    | |- exists evs, emitted ?w ?w' evs /\ Forall (fresh_for ?i) evs =>
        cut (runs (fresh_for i) grows w w'); [intros [_ Hr]; exact Hr|];
        pose proof (fresh_facts i) as F
    end.
  - eapply groups_stage_fresh with (R := runs _ grows); [exact F|].
    intros name H b. exact H.
  - eapply permissions_stage_fresh with (R := runs _ grows); [exact F|].
    intros n e g a o H b. exact H.
  - eapply manufacturers_stage_fresh with (R := runs _ grows); [exact F|].
    intros n s H b. exact H.
  - eapply roles_stage_fresh with (R := runs _ grows); [exact F|].
    intros n s v c H b. exact H.
  - eapply device_types_stage_fresh with (R := runs _ grows); [exact F|].
    intros n s m H b. exact H.
  - eapply sites_stage_fresh with (R := runs _ grows); [exact F|].
    intros n s H b. exact H.
  - eapply devices_stage_fresh with (R := runs _ grows); [exact F| |].
    + intros n s t o H b. exact H.
    + intros d n t m b. exact I.
  - eapply ip_addresses_stage_fresh with (R := runs _ grows); [exact F| | |].
    + intros a t i Hip H b. destruct a; simpl; try exact I.
      now rewrite stored_address_host_key.
    + intros d i b. exact I.
    + intros d i b. exact I.
Qed.

End ReadFirst.

(** ** generate-recipe.py: a placeholder after other text *)

(** The claim of C10 fails when it is read to the letter: on the first line
    the placeholder comes after a space, and it is the second line that is
    replaced. *)
Lemma placeholder_after_text_is_kept :
  splitlines doc_with_inline_placeholder = ["key: __B__"; "  __B__"]
  /\ preceded_by_space "__B__" "key: __B__"
  /\ splitlines (align_replace doc_with_inline_placeholder "__B__" ["x"])
     = ["key: __B__"; "  x"].
Proof.
  split; [reflexivity|]. split; [|reflexivity].
  exists "key:", " "%char, "". split; reflexivity.
Qed.

(** ** Sorting with a total order *)

Section SortedTotal.
Context {A : Type} (ltb : A -> A -> bool).
Let le (a b : A) : Prop := ltb b a = false.
Hypothesis le_trans : forall a b c, le a b -> le b c -> le a c.
Hypothesis lt_le : forall a b, ltb a b = true -> le a b.
Let lt (a b : A) : option bool := Some (ltb a b).

Lemma insert_sorted_total a l :
  StronglySorted le l ->
  exists l', insert_sorted lt a l = Some l' /\ Permutation (a :: l) l'
             /\ StronglySorted le l'.
Proof.
  induction l as [|b l IH]; intros Hs.
  - exists [a]. repeat split; auto. constructor; constructor.
  - cbn [insert_sorted]. unfold lt at 1. inversion Hs as [|? ? Hs' Hb]; subst.
    destruct (ltb b a) eqn:E.
    + destruct (IH Hs') as (l' & -> & Hp & Hl'). exists (b :: l'). cbn.
      repeat split.
      * rewrite perm_swap. now constructor.
      * constructor; [exact Hl'|].
        apply (Permutation_Forall Hp). constructor; [now apply lt_le|exact Hb].
    + exists (a :: b :: l). repeat split; auto. constructor; [exact Hs|].
      constructor; [exact E|].
      eapply Forall_impl; [|exact Hb]. intros c Hc. eapply le_trans; [exact E|exact Hc].
Qed.

Lemma sorted_total l :
  exists s, sorted lt l = Some s /\ Permutation l s /\ StronglySorted le s.
Proof.
  induction l as [|a l (s & Hs & Hp & Hss)].
  - exists []. repeat split; auto. constructor.
  - cbn [sorted]. rewrite Hs.
    destruct (insert_sorted_total a s Hss) as (l' & E & Hp' & Hl').
    exists l'. repeat split; auto.
    etransitivity; [|exact Hp']. now constructor.
Qed.

(** The head of the sorted list is the first of the least elements. *)
Lemma sorted_total_head l h t :
  sorted lt l = Some (h :: t) ->
  exists pre post, l = (pre ++ h :: post)%list
                   /\ Forall (fun e => ltb h e = true) pre
                   /\ Forall (le h) post.
Proof.
  revert h t. induction l as [|a l IH]; intros h t H; [discriminate|].
  cbn [sorted] in H.
  destruct (sorted_total l) as (s & Hs & Hp & Hss). rewrite Hs in H.
  destruct s as [|h0 t0].
  - apply Permutation_sym, Permutation_nil in Hp. subst l.
    cbn in H. injection H as <- <-. exists [], []. repeat split; constructor.
  - destruct (IH h0 t0 Hs) as (pre & post & -> & Hpre & Hpost).
    cbn [insert_sorted] in H. unfold lt at 1 in H.
    destruct (ltb h0 a) eqn:E.
    + destruct (insert_sorted lt a t0); [|discriminate]. cbn in H.
      injection H as <- <-. exists (a :: pre), post. repeat split; auto.
    + injection H as <- <-. exists [], (pre ++ h0 :: post)%list.
      repeat split; [constructor|].
      apply Forall_app. split.
      * eapply Forall_impl; [|exact Hpre]. intros e He.
        eapply le_trans; [exact E|]. now apply lt_le.
      * constructor; [exact E|].
        eapply Forall_impl; [|exact Hpost]. intros e He.
        eapply le_trans; [exact E|exact He].
Qed.

Lemma unpack_last_sorted s :
  StronglySorted le s -> s <> [] ->
  exists m, unpack_last s = Some m /\ In m s /\ Forall (fun e => le e m) s.
Proof.
  induction s as [|a s IH]; intros Hs Hne; [congruence|].
  inversion Hs as [|? ? Hs' Ha]; subst.
  destruct s as [|b s].
  - exists a. split; [reflexivity|]. split; [now left|]. constructor; [|constructor].
    destruct (ltb a a) eqn:E; [|exact E]. exact (lt_le _ _ E).
  - destruct (IH Hs') as (m & Hm & Hin & Hall); [discriminate|].
    exists m. repeat split; [exact Hm|now right|].
    constructor; [|exact Hall].
    rewrite Forall_forall in Ha. now apply Ha.
Qed.

End SortedTotal.

(** ** netbox_init.py: the other filler selections *)

Lemma string_compare_trans a :
  forall b c, String.compare a b <> Gt -> String.compare b c <> Gt ->
              String.compare a c <> Gt.
Proof.
  induction a as [|x a IH]; intros [|y b] [|z c]; simpl; try congruence.
  unfold Ascii.compare.
  destruct (N.compare_spec (N_of_ascii x) (N_of_ascii y)) as [E1|L1|G1];
    destruct (N.compare_spec (N_of_ascii y) (N_of_ascii z)) as [E2|L2|G2];
    destruct (N.compare_spec (N_of_ascii x) (N_of_ascii z)) as [E3|L3|G3];
    try congruence; try lia.
  apply IH.
Qed.

Lemma str_le_iff a b : str_le a b <-> String.compare a b <> Gt.
Proof.
  unfold str_le, String.ltb. rewrite (String.compare_antisym b a).
  destruct (String.compare a b); simpl; split; congruence.
Qed.

Lemma str_le_trans a b c : str_le a b -> str_le b c -> str_le a c.
Proof. rewrite !str_le_iff. apply string_compare_trans. Qed.

Lemma str_lt_le a b : String.ltb a b = true -> str_le a b.
Proof.
  rewrite str_le_iff. unfold String.ltb.
  destruct (String.compare a b); congruence.
Qed.

Lemma str_le_leb a b : str_le a b <-> String.leb a b = true.
Proof.
  rewrite str_le_iff. unfold String.leb.
  destruct (String.compare a b); split; congruence.
Qed.

Lemma nodup_keys_sorted {V} (x s : list (string * V)) :
  NoDup (map fst x) -> Permutation x s -> sdict_of s = s.
Proof.
  intros Hnd Hp. apply sdict_of_nodup.
  apply (Permutation_NoDup (Permutation_map fst Hp)). exact Hnd.
Qed.

(** X3.  Among the records of the mapping that an order by a number puts first,
    the filler selection returns the one that was inserted first: every
    entry before it is strictly greater, and no entry after it is smaller. *)
Theorem min_hash_value_by_value_first_of_least {V : Type} (rank : V -> Z)
        (x : dict string V) :
  NoDup (map fst x) -> x <> [] ->
  exists pre k v post,
    x = (pre ++ (k, v) :: post)%list
    /\ min_hash_value_by_value (by_id rank) x = Some (Some v)
    /\ Forall (fun e => (rank v < rank (snd e))%Z) pre
    /\ Forall (fun e => (rank v <= rank (snd e))%Z) post.
Proof.
  intros Hnd Hne. unfold min_hash_value_by_value.
  set (ltb := fun a b : string * V => (rank (snd a) <? rank (snd b))%Z).
  assert (Ht : forall a b c, ltb b a = false -> ltb c b = false -> ltb c a = false)
    by (unfold ltb; intros a b c; rewrite !Z.ltb_ge; lia).
  assert (Hl : forall a b, ltb a b = true -> ltb b a = false)
    by (unfold ltb; intros a b; rewrite Z.ltb_lt, Z.ltb_ge; lia).
  change (fun item1 item2 : string * V => by_id rank (snd item1) (snd item2))
    with (fun a b => Some (ltb a b)).
  destruct (sorted_total ltb Ht Hl x) as (s & Hs & Hp & _). rewrite Hs.
  rewrite (nodup_keys_sorted x s Hnd Hp).
  destruct s as [|[k v] t].
  - apply Permutation_sym, Permutation_nil in Hp. congruence.
  - destruct (sorted_total_head ltb Ht Hl x (k, v) t Hs) as (pre & post & E & Hpre & Hpost).
    exists pre, k, v, post. repeat split; [exact E| |].
    + eapply Forall_impl; [|exact Hpre]. unfold ltb. intros e. simpl.
      now rewrite Z.ltb_lt.
    + eapply Forall_impl; [|exact Hpost]. unfold ltb. intros e. simpl.
      now rewrite Z.ltb_ge.
Qed.

Lemma insert_sorted_length {A} (lt : A -> A -> option bool) a l s :
  insert_sorted lt a l = Some s -> List.length s = S (List.length l).
Proof.
  revert s. induction l as [|b l IH]; intros s; simpl.
  - intros [= <-]. reflexivity.
  - destruct (lt b a) as [[]|]; [|intros [= <-]; reflexivity|discriminate].
    destruct (insert_sorted lt a l) as [s'|]; [|discriminate].
    intros [= <-]. simpl. now rewrite (IH s').
Qed.

Lemma sorted_length {A} (lt : A -> A -> option bool) l s :
  sorted lt l = Some s -> List.length s = List.length l.
Proof.
  revert s. induction l as [|a l IH]; intros s; simpl.
  - intros [= <-]. reflexivity.
  - destruct (sorted lt l) as [s'|]; [|discriminate].
    intros H. apply insert_sorted_length in H. rewrite H. now rewrite (IH s').
Qed.

Lemma sorted_unorderable {A} (lt : A -> A -> option bool) (l : list A) :
  unorderable lt -> (2 <= List.length l)%nat -> sorted lt l = None.
Proof.
  intros U H. destruct l as [|a l]; [simpl in H; lia|]. cbn [sorted].
  destruct (sorted lt l) as [s|] eqn:E; [|reflexivity].
  apply sorted_length in E. destruct s as [|b s]; [simpl in *; lia|].
  simpl. now rewrite U.
Qed.

(** X4.  A mapping with at most one entry is never compared: the selection
    returns its value, or [None] when it is empty, whatever [<] does.  With
    two entries or more and records that cannot be ordered the sort raises
    [TypeError]. *)
Theorem min_hash_value_by_value_unorderable {V : Type} (lt : V -> V -> option bool)
        (x : dict string V) :
  ((List.length x <= 1)%nat ->
   min_hash_value_by_value lt x = Some (hd_error (dict_values x)))
  /\ (unorderable lt -> (2 <= List.length x)%nat ->
      min_hash_value_by_value lt x = None).
Proof.
  split.
  - destruct x as [|[k v] [|b x]]; simpl; intros H; try lia; reflexivity.
  - intros U H. unfold min_hash_value_by_value.
    rewrite sorted_unorderable; [reflexivity| |exact H].
    intros a b. apply U.
Qed.

(** X1.  [max_hash_value_by_value] on a mapping from names to numbers: [None] on
    the empty mapping, else the number of an entry that no entry exceeds. *)
Theorem max_hash_value_by_value_largest (x : dict string Z) :
  NoDup (map fst x) ->
  (x = [] -> max_hash_value_by_value int_lt x = None)
  /\ (x <> [] ->
      exists k v, max_hash_value_by_value int_lt x = Some v
                  /\ In (k, v) x
                  /\ forall k' v', In (k', v') x -> (v' <= v)%Z).
Proof.
  intros Hnd. split; [intros ->; reflexivity|]. intros Hne.
  unfold max_hash_value_by_value.
  set (ltb := fun a b : string * Z => (snd a <? snd b)%Z).
  assert (Ht : forall a b c, ltb b a = false -> ltb c b = false -> ltb c a = false)
    by (unfold ltb; intros a b c; rewrite !Z.ltb_ge; lia).
  assert (Hl : forall a b, ltb a b = true -> ltb b a = false)
    by (unfold ltb; intros a b; rewrite Z.ltb_lt, Z.ltb_ge; lia).
  change (fun item1 item2 : string * Z => int_lt (snd item1) (snd item2))
    with (fun a b => Some (ltb a b)).
  destruct (sorted_total ltb Ht Hl x) as (s & Hs & Hp & Hss). rewrite Hs.
  rewrite (nodup_keys_sorted x s Hnd Hp).
  assert (Hs0 : s <> []).
  { intros ->. apply Permutation_sym, Permutation_nil in Hp. congruence. }
  destruct (unpack_last_sorted ltb Hl s Hss Hs0) as ([k v] & Hm & Hin & Hall).
  exists k, v. repeat split.
  - unfold dict_values. clear - Hm. induction s as [|a [|b s] IH]; [discriminate| |].
    + injection Hm as ->. reflexivity.
    + apply IH. exact Hm.
  - apply (Permutation_in _ (Permutation_sym Hp)). exact Hin.
  - intros k' v' H. apply (Permutation_in _ Hp) in H.
    rewrite Forall_forall in Hall. specialize (Hall _ H). unfold ltb in Hall.
    simpl in Hall. now rewrite Z.ltb_ge in Hall.
Qed.

(** X2.  The selections by key: the value under the first name, and the value
    under the last name, in the order of [str]. *)
Theorem hash_value_by_key_extremes {V : Type} (x : dict string V) :
  NoDup (map fst x) -> x <> [] ->
  (exists k v, min_hash_value_by_key str_lt x = Some (Some v)
               /\ In (k, v) x
               /\ forall k' v', In (k', v') x -> String.leb k k' = true)
  /\ (exists k v, max_hash_value_by_key str_lt x = Some v
                  /\ In (k, v) x
                  /\ forall k' v', In (k', v') x -> String.leb k' k = true).
Proof.
  intros Hnd Hne. unfold min_hash_value_by_key, max_hash_value_by_key.
  set (ltb := fun a b : string * V => String.ltb (fst a) (fst b)).
  assert (Ht : forall a b c, ltb b a = false -> ltb c b = false -> ltb c a = false)
    by (unfold ltb; intros a b c; apply str_le_trans).
  assert (Hl : forall a b, ltb a b = true -> ltb b a = false)
    by (unfold ltb; intros a b; apply str_lt_le).
  change (fun item1 item2 : string * V => str_lt (fst item1) (fst item2))
    with (fun a b => Some (ltb a b)).
  destruct (sorted_total ltb Ht Hl x) as (s & Hs & Hp & Hss). rewrite Hs.
  rewrite (nodup_keys_sorted x s Hnd Hp).
  assert (Hs0 : s <> []).
  { intros ->. apply Permutation_sym, Permutation_nil in Hp. congruence. }
  split.
  - destruct s as [|[k v] t]; [congruence|]. exists k, v. repeat split.
    + apply (Permutation_in _ (Permutation_sym Hp)). now left.
    + intros k' v' H. apply (Permutation_in _ Hp) in H.
      apply str_le_leb. inversion Hss as [|? ? _ Hall]; subst.
      destruct H as [E|H].
      * injection E as -> _. unfold str_le.
        destruct (String.ltb k' k') eqn:E; [|reflexivity]. pose proof (str_lt_le _ _ E) as E'. unfold str_le in E'. congruence.
      * rewrite Forall_forall in Hall. exact (Hall _ H).
  - destruct (unpack_last_sorted ltb Hl s Hss Hs0) as ([k v] & Hm & Hin & Hall).
    exists k, v. repeat split.
    + unfold dict_values. clear - Hm. induction s as [|a [|b s] IH]; [discriminate| |].
      * injection Hm as ->. reflexivity.
      * apply IH. exact Hm.
    + apply (Permutation_in _ (Permutation_sym Hp)). exact Hin.
    + intros k' v' H. apply (Permutation_in _ Hp) in H.
      rewrite Forall_forall in Hall. apply str_le_leb. exact (Hall _ H).
Qed.

Lemma all_chars_without (p : ascii -> bool) c s :
  all_chars p s = true -> p c = false -> contains_char c s = false.
Proof.
  intros H Hc. induction s as [|x s IH]; [reflexivity|].
  simpl in *. apply andb_true_iff in H as [Hx Hs]. rewrite (IH Hs), orb_false_r.
  destruct (Ascii.eqb_spec x c) as [->|]; [congruence|reflexivity].
Qed.

Lemma split_from_parts_without sep c s :
  forall acc, Forall (fun p => contains_char c p = false) (split_from sep acc s) ->
              Ascii.eqb sep c = false ->
              contains_char c acc = false /\ contains_char c s = false.
Proof.
  induction s as [|x s IH]; intros acc H Hsep; simpl in *.
  - inversion H; subst. auto.
  - destruct (Ascii.eqb_spec x sep) as [->|Hx].
    + inversion H as [|? ? Ha Hr]; subst. destruct (IH "" Hr Hsep) as [_ Hs].
      now rewrite Hsep, Hs.
    + destruct (IH _ H Hsep) as [Ha Hs]. rewrite contains_char_snoc in Ha.
      apply orb_false_iff in Ha as [Ha Hxc]. now rewrite Hxc, Hs.
Qed.

Lemma parse_octet_digits o n : parse_octet o = Some n -> all_chars is_digit o = true.
Proof.
  unfold parse_octet. destruct (o =? ""); [discriminate|].
  destruct (all_chars is_digit o); [reflexivity|discriminate].
Qed.

(** A text that reads as an IPv4 address is made of digits and dots. *)
Lemma ipv4_int_from_str_chars s n c :
  ipv4_int_from_str s = Some n -> is_digit c = false -> Ascii.eqb "."%char c = false ->
  contains_char c s = false.
Proof.
  unfold ipv4_int_from_str. destruct (s =? ""); [discriminate|].
  destruct (split "."%char s) as [|o1 [|o2 [|o3 [|o4 [|]]]]] eqn:E; try discriminate.
  destruct (parse_octet o1) eqn:E1; [|discriminate].
  destruct (parse_octet o2) eqn:E2; [|discriminate].
  destruct (parse_octet o3) eqn:E3; [|discriminate].
  destruct (parse_octet o4) eqn:E4; [|discriminate].
  intros _ Hd Hdot.
  apply (split_from_parts_without "."%char c s ""); [|exact Hdot].
  fold (split "."%char s). rewrite E.
  repeat constructor; eapply all_chars_without; eauto using parse_octet_digits.
Qed.

Lemma ipv4_not_ipv6 x n : IPv4Address x = Some n -> IPv6Address x = None.
Proof.
  unfold IPv4Address, IPv6Address. destruct (contains_char "/"%char x); [discriminate|].
  intros H.
  pose proof (ipv4_int_from_str_chars x n ":"%char H eq_refl eq_refl) as Hc.
  pose proof (ipv4_int_from_str_chars x n "%"%char H eq_refl eq_refl) as Hp.
  unfold split_scope_id. rewrite partition_from_without by exact Hp. simpl.
  unfold ipv6_int_from_str. destruct (x =? ""); [reflexivity|].
  unfold split. now rewrite split_from_without by exact Hc.
Qed.


(** X7.  An IP address is also a network: the test of the segments accepts a
    bare address. *)
Theorem ip_address_is_ip_network (x : string) :
  is_ip_address x = true -> is_ip_network x = true.
Proof.
  intros H. pose proof (ip_address_without_slash x H) as Hs.
  unfold is_ip_network, ip_network_ok, IPv4Network_ok, IPv6Network_ok, split.
  rewrite split_from_without by exact Hs. exact H.
Qed.

Lemma split_from_at sep a b :
  forall acc, contains_char sep a = false ->
              split_from sep acc (a ++ String sep b) = (acc ++ a) :: split_from sep "" b.
Proof.
  induction a as [|c a IH]; intros acc H; simpl.
  - now rewrite Ascii.eqb_refl, append_empty_r.
  - simpl in H. apply orb_false_iff in H as [Hc Ha]. rewrite Hc, IH by exact Ha.
    now rewrite snoc_append.
Qed.

Lemma split_with_mask addr mask :
  contains_char "/"%char addr = false -> contains_char "/"%char mask = false ->
  split "/"%char (with_mask addr mask) = [addr; mask].
Proof.
  intros Ha Hm. unfold split, with_mask. change ("/" ++ mask) with (String "/"%char mask).
  rewrite split_from_at by exact Ha. now rewrite split_from_without by exact Hm.
Qed.

Lemma IPv4Address_without_slash x n : IPv4Address x = Some n -> contains_char "/"%char x = false.
Proof. unfold IPv4Address. destruct (contains_char "/"%char x); [discriminate|reflexivity]. Qed.

(** X8.  A segment whose address has bits set after the prefix length is no
    network for [ipaddress.ip_network], which is strict: the record is left
    out of the segments, and no prefix is asked for. *)
Theorem segment_with_host_bits_is_left_out (name addr mask : string) (packed prefixlen : N) :
  IPv4Address addr = Some packed ->
  contains_char "/"%char mask = false ->
  make_netmask4 mask = Some prefixlen ->
  no_host_bits ALL_ONES4 packed prefixlen = false ->
  is_ip_network (with_mask addr mask) = false
  /\ segments_of [segment_item name (with_mask addr mask)] = [].
Proof.
  intros Ha Hm Hmask Hbits.
  assert (E : is_ip_network (with_mask addr mask) = false).
  { unfold is_ip_network, ip_network_ok, IPv4Network_ok, IPv6Network_ok.
    rewrite split_with_mask by eauto using IPv4Address_without_slash.
    now rewrite Ha, Hmask, Hbits, (ipv4_not_ipv6 addr packed Ha). }
  split; [exact E|]. unfold segments_of, segment_item. cbn [flat_map].
  rewrite E. rewrite andb_false_r. reflexivity.
Qed.

Lemma segment_with_host_bits_is_left_out_witness :
  is_ip_network (with_mask "10.0.0.1" "8") = false
  /\ segments_of [segment_item "lan" (with_mask "10.0.0.1" "8")] = [].
Proof.
  apply (segment_with_host_bits_is_left_out "lan" "10.0.0.1" "8" 167772161 8);
    reflexivity.
Defined.

Lemma elements_of_no_object l :
  Forall (fun x => is_dict x = false) l ->
  elements_of l = Some (map (fun _ : json => NotAnObject) l).
Proof.
  induction 1 as [|x l Hx Hl IH]; [reflexivity|].
  cbn [elements_of map]. rewrite IH. now destruct x.
Qed.

Lemma get_iterable_no_object netMap :
  (forall items, netMap <> JArray items) ->
  Forall (fun x => is_dict x = false) (get_iterable netMap).
Proof.
  intros H. destruct netMap; cbn [get_iterable]; try (repeat constructor).
  - now elim (H items).
  - induction (dict_of String.eqb members) as [|kv d IH]; [constructor|].
    now constructor.
Qed.

Lemma no_object_no_segment l : segments_of (map (fun _ : json => NotAnObject) l) = [].
Proof. induction l as [|x l IH]; [reflexivity|exact IH]. Qed.

Lemma no_object_no_host {V} l (pre : dict string V) :
  new_hosts_of (map (fun _ : json => NotAnObject) l) pre = []
  /\ ip_hosts_of (map (fun _ : json => NotAnObject) l) pre = [].
Proof. induction l as [|x l IH]; [now split|exact IH]. Qed.

Section NoList.
Variable rejects : Store -> request -> bool.
Variable site_lt : Site -> Site -> option bool.
Variable device_type_lt : DeviceType -> DeviceType -> option bool.
Variable role_lt : Role -> Role -> option bool.

(** X5.  A net map that is no list gives nothing.  [get_iterable] returns a
    JSON object as it is, and the loops go over its keys, which are texts; it
    puts any other value that is no list into a tuple of its own.  No element
    of the iteration passes [isinstance(x, dict)], and so the stage of the net
    map sends no request and leaves the store as it is, whatever the object
    holds. *)
Theorem get_iterable_of_object_has_no_record
        (netMap : json) (args : Args) (sites : dict string Site)
        (deviceTypes : dict string DeviceType) (roles : dict string Role) (w : World) :
  (forall items, netMap <> JArray items) ->
  netMapJson args = net_map_items netMap ->
  filter is_dict (get_iterable netMap) = []
  /\ net_map_stage rejects site_lt device_type_lt role_lt args sites deviceTypes roles w
     = (Ok tt, w).
Proof.
  intros Hl Ha. pose proof (get_iterable_no_object netMap Hl) as Hn. split.
  - induction Hn as [|x l Hx _ IH]; [reflexivity|]. cbn [filter]. now rewrite Hx.
  - unfold net_map_stage. rewrite Ha. unfold net_map_items.
    rewrite (elements_of_no_object _ Hn).
    unfold prefixes_stage, devices_stage, ip_addresses_stage, bind, fetch, read.
    rewrite no_object_no_segment. cbn [for_each ret].
    rewrite (proj1 (no_object_no_host _ _)). cbn [for_each ret fst snd].
    rewrite (proj2 (no_object_no_host _ _)). reflexivity.
Qed.

End NoList.

Lemma get_iterable_of_object_has_no_record_witness :
  filter is_dict (get_iterable single_host_object) = []
  /\ net_map_stage accept_all (by_id site_id) (by_id dtype_id) (by_id role_id)
       (args_of_json single_host_object) seeded_sites seeded_device_types seeded_roles
       (start seeded_store)
     = (Ok tt, start seeded_store).
Proof.
  apply (get_iterable_of_object_has_no_record accept_all (by_id site_id) (by_id dtype_id)
           (by_id role_id) single_host_object (args_of_json single_host_object)).
  - discriminate.
  - reflexivity.
Defined.

Lemma extends_refl {A} (l : list A) : extends l l.
Proof. exists []. now rewrite app_nil_r. Qed.

Lemma extends_trans {A} (a b c : list A) : extends a b -> extends b c -> extends a c.
Proof. intros [x ->] [y ->]. exists (x ++ y)%list. now rewrite app_assoc. Qed.

Lemma extends_snoc {A} (l : list A) x : extends l (l ++ [x]).
Proof. now exists [x]. Qed.

Lemma append_only_refl s : append_only s s.
Proof. unfold append_only. repeat split; apply extends_refl. Qed.

Lemma append_only_trans a b c : append_only a b -> append_only b c -> append_only a c.
Proof.
  unfold append_only.
  intros (A1 & A2 & A3 & A4 & A5 & A6 & A7 & A8 & A9 & A10 & A11)
         (B1 & B2 & B3 & B4 & B5 & B6 & B7 & B8 & B9 & B10 & B11).
  repeat split; try (eapply extends_trans; eassumption). congruence.
Qed.

Lemma map_identity_set_primary_ip4 dev ip l :
  map device_identity (map (set_primary_ip4 dev ip) l) = map device_identity l.
Proof.
  rewrite map_map. apply map_ext. intros d. unfold set_primary_ip4, device_identity.
  destruct (device_id d =? dev)%Z; reflexivity.
Qed.

Lemma map_identity_set_primary_ip dev ip l :
  map device_identity (map (set_primary_ip dev ip) l) = map device_identity l.
Proof.
  rewrite map_map. apply map_ext. intros d. unfold set_primary_ip, device_identity.
  destruct (device_id d =? dev)%Z; reflexivity.
Qed.

Lemma map_identity_set_description pfx description l :
  map prefix_identity (map (set_description pfx description) l) = map prefix_identity l.
Proof.
  rewrite map_map. apply map_ext. intros p. unfold set_description, prefix_identity.
  destruct (prefix_id p =? pfx)%Z; reflexivity.
Qed.

Lemma append_only_apply r s : append_only s (fst (apply_request r s)).
Proof.
  unfold append_only.
  destruct r; cbn [apply_request fst with_groups with_permissions with_manufacturers
                   with_roles with_device_types with_sites with_prefixes with_devices
                   with_interfaces with_ip_addresses groups_of permissions_of
                   content_types_of manufacturers_of roles_of device_types_of sites_of
                   prefixes_of devices_of interfaces_of ip_addresses_of];
    rewrite ?map_app, ?map_identity_set_primary_ip4, ?map_identity_set_primary_ip,
      ?map_identity_set_description;
    repeat split; first [apply extends_refl | apply extends_snoc].
Qed.

Section Whole.
Variable slugify : string -> string.
Variable rand_color : nat -> string.
Variable rejects : Store -> request -> bool.
Variable manufacturer_lt : Manufacturer -> Manufacturer -> option bool.
Variable site_lt : Site -> Site -> option bool.
Variable device_type_lt : DeviceType -> DeviceType -> option bool.
Variable role_lt : Role -> Role -> option bool.

Local Abbreviation main' :=
  (main slugify rand_color rejects manufacturer_lt site_lt device_type_lt role_lt).

(** A relation that every request keeps is kept by the whole of [main]. *)
Lemma main_step (R : World -> World -> Prop) (sendable : request -> Prop) args :
  step_facts rand_color rejects R sendable -> (forall r, sendable r) ->
  step R (main' args).
Proof.
  intros F S. unfold main.
  repeat (eapply step_bind; [exact F| |intros ?]);
    try (eapply step_try_stage; [exact F|]).
  - eapply groups_stage_step; [exact F|auto].
  - eapply permissions_stage_step; [exact F|auto].
  - eapply manufacturers_stage_step; [exact F|auto].
  - eapply roles_stage_step; [exact F|auto].
  - eapply device_types_stage_step; [exact F|auto].
  - eapply sites_stage_step; [exact F|auto].
  - unfold net_map_stage. destruct (netMapJson args) as [netMap|];
      [|eapply step_ret; exact F].
    eapply step_bind; [exact F| |intros ?].
    + eapply prefixes_stage_step; [exact F|auto].
    + eapply step_bind; [exact F| |intros ?].
      * eapply devices_stage_step; [exact F|auto|auto].
      * eapply step_bind; [exact F| |intros ?; eapply step_ret; exact F].
        eapply ip_addresses_stage_step; [exact F|auto|auto|auto].
  - eapply vrf_stage_step; [exact F|auto].
Qed.

Lemma append_only_facts :
  step_facts rand_color rejects (fun w w' => append_only (store w) (store w'))
             (fun _ => True).
Proof.
  constructor.
  - intros w. apply append_only_refl.
  - intros a b c. apply append_only_trans.
  - intros e w _. apply append_only_refl.
  - intros w. apply append_only_refl.
  - intros r w _. unfold send. destruct (rejects (store w) r || negb (well_formed r)); [apply append_only_refl|].
    pose proof (append_only_apply r (store w)) as H.
    destruct (apply_request r (store w)) as [s' i]. exact H.
Qed.

(** X9.  No exception leaves [main]: each stage is inside its own [try], and the
    run comes to its end whatever the store turns down and whatever cannot be
    ordered or found. *)
Theorem main_never_raises (args : Args) (w : World) : fst (main' args w) = Ok tt.
Proof.
  unfold main, bind.
  destruct (try_stage_ok "groups" [] (groups_stage rejects args) w) as (g & w1 & ->).
  destruct (try_stage_ok "permissions" [] (permissions_stage rejects args g) w1)
    as (p & w2 & ->).
  destruct (try_stage_ok "manufacturers" [] (manufacturers_stage slugify rejects args) w2)
    as (m & w3 & ->).
  destruct (try_stage_ok "roles" [] (roles_stage slugify rand_color rejects args) w3)
    as (r & w4 & ->).
  destruct (try_stage_ok "device types" []
              (device_types_stage slugify rejects manufacturer_lt args m) w4)
    as (t & w5 & ->).
  destruct (try_stage_ok "sites" [] (sites_stage slugify rejects args) w5)
    as (s & w6 & ->).
  destruct (try_stage_ok "net map" tt
              (net_map_stage rejects site_lt device_type_lt role_lt args s t r) w6)
    as (u & w7 & ->).
  destruct (try_stage_ok "prefix descriptions" tt (vrf_stage rejects) w7)
    as ([] & w8 & ->).
  reflexivity.
Qed.

(** X10.  The run only adds: after [main] every collection of the store begins
    with what it held before, record by record, and the records that were
    there differ at most in the primary addresses of a device and the
    description of a prefix. *)
Theorem main_is_append_only (args : Args) (w : World) :
  append_only (store w) (store (snd (main' args w))).
Proof.
  apply (main_step _ (fun _ => True) args append_only_facts). auto.
Qed.

(** X11.  What the store accepted at any point of the run is in the store when
    the run ends, and so is what was there before. *)
Theorem main_keeps_what_was_accepted (args : Args) (w : World) :
  (forall r, stored r (store w) -> stored r (store (snd (main' args w))))
  /\ exists evs, emitted w (snd (main' args w)) evs
                 /\ accepted_stored evs (store (snd (main' args w))).
Proof.
  apply (main_step persists (fun _ => True) args (persists_facts rand_color rejects)).
  auto.
Qed.


Lemma one_each_app a b c d : one_each a b -> one_each c d -> one_each (a ++ c) (b ++ d).
Proof. intros H. induction H; intros Hc; simpl; [exact Hc| |]; constructor; auto. Qed.

Lemma paired_refl w : paired w w.
Proof. exists [], []. rewrite !app_nil_r. repeat split. constructor. Qed.

Lemma paired_trans a b c : paired a b -> paired b c -> paired a c.
Proof.
  intros (d1 & i1 & D1 & I1 & H1) (d2 & i2 & D2 & I2 & H2).
  exists (d1 ++ d2)%list, (i1 ++ i2)%list.
  rewrite D2, D1, I2, I1, !app_assoc. repeat split. now apply one_each_app.
Qed.

Lemma paired_same_store w w' : store w' = store w -> paired w w'.
Proof. intros E. exists [], []. rewrite E, !app_nil_r. repeat split. constructor. Qed.

Lemma paired_facts : step_facts rand_color rejects paired (fun _ => False).
Proof.
  constructor.
  - apply paired_refl.
  - apply paired_trans.
  - intros e w _. now apply paired_same_store.
  - intros w. now apply paired_same_store.
  - intros r w [].
Qed.

Local Abbreviation create_device' :=
  (create_device rejects site_lt device_type_lt role_lt).

Lemma create_device_paired sites deviceTypes roles host :
  step paired (create_device' sites deviceTypes roles host).
Proof.
  intros w. unfold create_device.
  destruct (min_hash_value_by_value site_lt sites) as [site|];
    [|now apply paired_same_store].
  destruct (min_hash_value_by_value device_type_lt deviceTypes) as [dType|];
    [|now apply paired_same_store].
  destruct (min_hash_value_by_value role_lt roles) as [role|];
    [|now apply paired_same_store].
  cbn [lift_sort]. rewrite !bind_ret. unfold try_request, bind, send.
  destruct (rejects (store w) _); [now apply paired_same_store|].
  cbn [apply_request].
  set (d := {| device_id := _ |}).
  assert (D : forall w', devices_of (store w') = (devices_of (store w) ++ [d])%list ->
                         interfaces_of (store w') = interfaces_of (store w) ->
                         paired w w').
  { intros w' Hd Hi. exists [d], []. rewrite app_nil_r. repeat split; auto.
    repeat constructor. }
  destruct (is_ip_address (host_address host)).
  - cbn. destruct (rejects _ _); cbn; [now apply D|].
    exists [d], [{| iface_id := next_id (map iface_id (interfaces_of (store w)));
                   iface_device := device_id d; iface_name := "default";
                   iface_type := "other"; iface_mac_address := None |}].
    repeat split. repeat constructor.
  - destruct (host_address host) as [| | | |address| |]; try (cbn; now apply D).
    destruct (re_mac (lower address)); cbn; [|now apply D].
    destruct (rejects _ _); cbn; [now apply D|].
    exists [d], [{| iface_id := next_id (map iface_id (interfaces_of (store w)));
                   iface_device := device_id d; iface_name := "default";
                   iface_type := "other";
                   iface_mac_address := Some (lower address) |}].
    repeat split. repeat constructor.
Qed.

(** X13.  The device stage adds devices at the end of the devices and interfaces
    at the end of the interfaces, and nothing else to them: each new
    interface belongs to a new device, in the order of the devices, and no new
    device has two. *)
Theorem devices_stage_one_interface_each
        (netMap : list map_item) (sites : dict string Site)
        (deviceTypes : dict string DeviceType) (roles : dict string Role) (w : World) :
  paired w (snd (devices_stage rejects site_lt device_type_lt role_lt netMap sites
                   deviceTypes roles w)).
Proof.
  revert w. change (step paired (devices_stage rejects site_lt device_type_lt role_lt netMap
                                   sites deviceTypes roles)).
  pose proof paired_facts as F. unfold devices_stage, fetch.
  eapply step_bind; [exact F|eapply step_read; exact F|intros pre].
  eapply step_bind; [exact F| |intros _].
  - eapply step_for_each; [exact F|]. intros host. apply create_device_paired.
  - eapply step_bind; [exact F|eapply step_read; exact F|intros devices].
    eapply step_bind; [exact F|eapply step_read; exact F|intros interfaces].
    eapply step_ret. exact F.
Qed.

(** X14.  For a host whose address is an IP address or a MAC address, once the
    fillers are selected and the store has accepted the device, the loop asks
    for one interface [default] of type [other] on the device just created;
    the interface carries the address in lower case when it is a MAC address,
    and no MAC address when it is an IP address.  A rejected interface leaves
    the device without one, with a warning. *)
Theorem interface_request_follows_address_class
        (sites : dict string Site) (deviceTypes : dict string DeviceType)
        (roles : dict string Role) (host : Host) (w : World)
        (site : option Site) (dType : option DeviceType) (role : option Role) :
  min_hash_value_by_value site_lt sites = Some site ->
  min_hash_value_by_value device_type_lt deviceTypes = Some dType ->
  min_hash_value_by_value role_lt roles = Some role ->
  rejects (store w)
          (CreateDevice (host_name host) (id_or_none site_id site)
             (id_or_none dtype_id dType) (id_or_none role_id role)) = false ->
  classify (host_address host) = IsIp \/ classify (host_address host) = IsMac ->
  exists ok,
    emitted w (snd (create_device' sites deviceTypes roles host w))
      (Requested (CreateDevice (host_name host) (id_or_none site_id site)
                    (id_or_none dtype_id dType) (id_or_none role_id role)) true
       :: Requested (CreateInterface (next_id (map device_id (devices_of (store w))))
                       "default" "other" (interface_mac (host_address host))) ok
       :: (if ok then [] else [Warned (host_name host)])).
Proof.
  intros Es Et Er Hd Hc. unfold create_device. rewrite Es, Et, Er.
  cbn [lift_sort]. rewrite !bind_ret. unfold try_request, bind, send. rewrite Hd.
  cbn [apply_request]. unfold interface_mac, classify in *. clear Hd.
  destruct (is_ip_address (host_address host)).
  - cbn. destruct (rejects _ _); [exists false|exists true]; unfold emitted; cbn;
      rewrite <- ?app_assoc; reflexivity.
  - destruct (host_address host) as [| | | |address| |];
      try (destruct Hc; discriminate).
    destruct (re_mac (lower address)); [|destruct Hc; discriminate]. cbn.
    destruct (rejects _ _); [exists false|exists true]; unfold emitted; cbn;
      rewrite <- ?app_assoc; reflexivity.
Qed.

End Whole.


Section Lookups.
Variable rejects : Store -> request -> bool.



Lemma default_permissions_groups args kv :
  In kv (DEFAULT_PERMISSIONS args) ->
  forall x, In x (pc_groups (snd kv)) -> x = staffGroupName args \/ x = defaultGroupName args.
Proof.
  unfold DEFAULT_PERMISSIONS, sdict_of, dict_of. cbn.
  destruct (_ =? _)%string; cbn; intros H x Hx.
  - destruct H as [<-|[]]. cbn in Hx. destruct Hx as [<-|[]]. now right.
  - destruct H as [<-|[<-|[]]]; cbn in Hx; destruct Hx as [<-|[]]; auto.
Qed.

Lemma group_ids_value groups names w :
  (forall x, In x names -> sdict_mem x groups = true) ->
  group_ids groups names w = (Ok (ids_of_groups groups names), w).
Proof.
  intros H. induction names as [|x names IH]; [reflexivity|].
  cbn [group_ids ids_of_groups flat_map]. unfold subscript.
  pose proof (H x (or_introl eq_refl)) as Hx.
  unfold sdict_mem, dict_mem in Hx. unfold sdict_get.
  destruct (dict_get String.eqb x groups) as [g|]; [|discriminate].
  rewrite bind_ret. unfold bind.
  rewrite IH by (intros y Hy; apply H; now right). reflexivity.
Qed.

(** X16.  With both groups in the mapping, the permission stage does not raise,
    and every permission of [DEFAULT_PERMISSIONS] that the store did not hold
    when the stage began has its request in the trace: with its name, its
    actions, the identifiers that the mapping gives for its groups, and the
    content types of the store but for the excluded ones. *)
Theorem permissions_stage_attempts_with_groups
        (args : Args) (groups : dict string Group) (w : World) :
  sdict_mem (staffGroupName args) groups = true ->
  sdict_mem (defaultGroupName args) groups = true ->
  (exists permissions, fst (permissions_stage rejects args groups w) = Ok permissions)
  /\ exists evs,
      emitted w (snd (permissions_stage rejects args groups w)) evs
      /\ all_attempted
           (permissions_to_create args (index_of permissions_of perm_name (store w)))
           (fun kv r =>
              r = CreatePermission (pc_name (snd kv)) (pc_enabled (snd kv))
                    (ids_of_groups groups (pc_groups (snd kv)))
                    (pc_actions (snd kv)) (object_types_of (store w) (snd kv)))
           evs.
Proof.
  intros Hs Hd.
  set (pre := index_of permissions_of perm_name (store w)).
  set (body := fun kv : string * PermConfig =>
         ids <- group_ids groups (pc_groups (snd kv)) ;;
         try_request (pc_name (snd kv))
           (x <- send rejects
                   (CreatePermission (pc_name (snd kv)) (pc_enabled (snd kv)) ids
                      (pc_actions (snd kv)) (object_types_of (store w) (snd kv))) ;;
            ret tt)).
  assert (Es : permissions_stage rejects args groups w
               = (for_each (permissions_to_create args pre) body ;;;
                  fetch permissions_of perm_name) w) by reflexivity.
  rewrite Es. clear Es.
  assert (Hb : forall kv w0,
             In kv (permissions_to_create args pre) ->
             fst (body kv w0) = Ok tt
             /\ exists evs, emitted w0 (snd (body kv w0)) evs
                            /\ (true = true ->
                                exists r ok,
                                  r = CreatePermission (pc_name (snd kv))
                                        (pc_enabled (snd kv))
                                        (ids_of_groups groups (pc_groups (snd kv)))
                                        (pc_actions (snd kv))
                                        (object_types_of (store w) (snd kv))
                                  /\ In (Requested r ok) evs)).
  { intros kv w0 Hin. apply filter_In in Hin as [Hin _].
    assert (Hids : group_ids groups (pc_groups (snd kv)) w0
                   = (Ok (ids_of_groups groups (pc_groups (snd kv))), w0)).
    { apply group_ids_value. intros x Hx.
      destruct (default_permissions_groups args kv Hin x Hx) as [->| ->]; assumption. }
    set (r := CreatePermission (pc_name (snd kv)) (pc_enabled (snd kv))
                (ids_of_groups groups (pc_groups (snd kv)))
                (pc_actions (snd kv)) (object_types_of (store w) (snd kv))).
    assert (Eb : body kv w0
                 = try_request (pc_name (snd kv)) (x <- send rejects r ;; ret tt) w0)
      by (unfold body, bind at 1; now rewrite Hids).
    rewrite Eb.
    destruct (send_once_attempts rejects (pc_name (snd kv)) r w0)
      as (Hok & evs & E & ok & Hin').
    split; [exact Hok|]. exists evs. split; [exact E|]. intros _.
    exists r, ok. split; [reflexivity|exact Hin']. }
  destruct (for_each_attempts_where (fun _ => true)
              (fun (kv : string * PermConfig) r =>
                 r = CreatePermission (pc_name (snd kv)) (pc_enabled (snd kv))
                       (ids_of_groups groups (pc_groups (snd kv)))
                       (pc_actions (snd kv)) (object_types_of (store w) (snd kv)))
              body (permissions_to_create args pre) Hb w) as (Hok & evs & E & Hall).
  unfold bind.
  destruct (for_each (permissions_to_create args pre) body w) as [[[]|e] w1];
    simpl in Hok; [|discriminate].
  split; [eexists; reflexivity|]. exists evs. split; [exact E|].
  intros kv Hkv. apply Hall. apply filter_In. now split.
Qed.

Lemma length_append (a b : string) :
  String.length (a ++ b) = String.length a + String.length b.
Proof. induction a as [|c a IH]; simpl; [reflexivity|now rewrite IH]. Qed.

Lemma append_inj_suffix (a b p : string) : a ++ p = b ++ p -> a = b.
Proof.
  revert b. induction a as [|c a IH]; intros [|c' b] H; simpl in H.
  - reflexivity.
  - apply (f_equal String.length) in H. simpl in H. rewrite length_append in H. lia.
  - apply (f_equal String.length) in H. simpl in H. rewrite length_append in H. lia.
  - injection H as -> H. f_equal. now apply IH.
Qed.

Lemma group_ids_missing groups x names w :
  sdict_mem x groups = false -> group_ids groups (x :: names) w = (Raise KeyError, w).
Proof.
  intros H. cbn [group_ids]. unfold subscript, bind. unfold sdict_mem, dict_mem in H.
  destruct (dict_get String.eqb x groups); [discriminate|reflexivity].
Qed.

Lemma default_permissions_head args :
  exists cfg rest,
    DEFAULT_PERMISSIONS args = (staffGroupName args ++ "_permission", cfg) :: rest
    /\ pc_name cfg = staffGroupName args ++ "_permission"
    /\ pc_groups cfg = [staffGroupName args].
Proof.
  unfold DEFAULT_PERMISSIONS, sdict_of, dict_of. cbn [fold_left fst snd dict_set].
  destruct (String.eqb_spec (staffGroupName args ++ "_permission")
                            (defaultGroupName args ++ "_permission")) as [E|E].
  - pose proof (append_inj_suffix _ _ _ E) as E'.
    eexists _, _. split; [reflexivity|]. cbn. now rewrite E, E'.
  - eexists _, _. split; [reflexivity|]. cbn. auto.
Qed.

(** X17.  Without the staff group in the mapping, as when its creation was
    rejected, and with the staff permission still to create, the permission
    stage raises [KeyError] at the first permission and asks the store for
    nothing. *)
Theorem permissions_stage_without_staff_group
        (args : Args) (groups : dict string Group) (w : World) :
  sdict_mem (staffGroupName args) groups = false ->
  sdict_mem (staffGroupName args ++ "_permission")
            (index_of permissions_of perm_name (store w)) = false ->
  permissions_stage rejects args groups w = (Raise KeyError, w).
Proof.
  intros Hg Hp.
  set (pre := index_of permissions_of perm_name (store w)) in *.
  set (body := fun kv : string * PermConfig =>
         ids <- group_ids groups (pc_groups (snd kv)) ;;
         try_request (pc_name (snd kv))
           (x <- send rejects
                   (CreatePermission (pc_name (snd kv)) (pc_enabled (snd kv)) ids
                      (pc_actions (snd kv))
                      (filter (fun ct => negb (mem_string ct (pc_exclude_objects (snd kv))))
                         (map (fun x => app_label x ++ "." ++ ct_model x)
                            (content_types_of (store w))))) ;;
            ret tt)).
  assert (Es : permissions_stage rejects args groups w
               = (for_each (permissions_to_create args pre) body ;;;
                  fetch permissions_of perm_name) w) by reflexivity.
  rewrite Es. clear Es.
  destruct (default_permissions_head args) as (cfg & rest & Ed & En & Eg).
  unfold permissions_to_create. rewrite Ed. cbn [filter snd]. rewrite En, Hp.
  assert (T : truthy (staffGroupName args ++ "_permission") = true)
    by (unfold truthy; destruct (staffGroupName args); reflexivity).
  rewrite T. cbn [andb negb for_each]. unfold bind at 1 2. unfold body at 1.
  unfold bind at 1. cbn [snd]. rewrite Eg, group_ids_missing by exact Hg. reflexivity.
Qed.

End Lookups.

(** ** generate-recipe.py: substitution *)

Lemma startswith_app p a b : startswith p a = true -> startswith p (a ++ b) = true.
Proof.
  rewrite !startswith_iff. intros [rest ->]. exists (rest ++ b). now rewrite append_assoc.
Qed.

Lemma startswith_longer p r s : startswith (p ++ r) s = true -> startswith p s = true.
Proof.
  rewrite !startswith_iff. intros [rest ->]. exists (r ++ rest). now rewrite append_assoc.
Qed.

Lemma occurs_cons p c s :
  occurs p (String c s) = startswith p (String c s) || occurs p s.
Proof. reflexivity. Qed.

Lemma occurs_app_r p a b : occurs p b = true -> occurs p (a ++ b) = true.
Proof.
  intros H. induction a as [|c a IH]; [exact H|].
  change (String c a ++ b) with (String c (a ++ b)). rewrite occurs_cons, IH.
  apply orb_true_r.
Qed.

Lemma occurs_app_l p a b : occurs p a = true -> occurs p (a ++ b) = true.
Proof.
  induction a as [|c a IH]; intros H.
  - cbn [occurs] in H. rewrite orb_false_r in H. destruct b as [|c b].
    + exact (eq_trans (f_equal (fun x => x || false) H) eq_refl).
    + change ("" ++ String c b) with (String c b). rewrite occurs_cons.
      pose proof (startswith_app p "" (String c b) H) as H'.
      change ("" ++ String c b) with (String c b) in H'. now rewrite H'.
  - change (occurs p (String c a ++ b))
      with (startswith p (String c a ++ b) || occurs p (a ++ b)).
    rewrite occurs_cons in H. apply orb_true_iff in H as [H|H].
    + now rewrite (startswith_app p (String c a) b H).
    + rewrite (IH H). apply orb_true_r.
Qed.

Lemma occurs_longer p r s : occurs (p ++ r) s = true -> occurs p s = true.
Proof.
  induction s as [|c s IH]; intros H.
  - cbn [occurs] in *. rewrite orb_false_r in *. now apply startswith_longer in H.
  - rewrite occurs_cons in *. apply orb_true_iff in H as [H|H].
    + now rewrite (startswith_longer p r _ H).
    + rewrite (IH H). apply orb_true_r.
Qed.

(** A text in which [old] does not occur is left as it is. *)
Lemma str_replace_absent old new s : occurs old s = false -> str_replace old new s = s.
Proof.
  unfold str_replace. destruct (String.eqb_spec old "") as [->|_].
  - destruct s; discriminate.
  - induction s as [|c s IH]; intros H; [reflexivity|].
    rewrite occurs_cons in H. apply orb_false_iff in H as [H1 H2].
    cbn [replace_from]. rewrite H1. now rewrite IH.
Qed.

Lemma substitute_without_underscores version suite arch linux dtb serial buildtime in_text :
  occurs "__" in_text = false ->
  substitute version suite arch linux dtb serial buildtime in_text = in_text.
Proof.
  intros H. unfold substitute.
  assert (A : forall rest, occurs ("__" ++ rest) in_text = false).
  { intros rest. destruct (occurs ("__" ++ rest) in_text) eqn:E; [|reflexivity].
    apply occurs_longer in E. congruence. }
  repeat match goal with
         | |- context [str_replace ?old ?new in_text] =>
             rewrite (str_replace_absent old new in_text) by apply (A _)
         end.
  reflexivity.
Qed.

(** A line of [splitlines] is a part of the text. *)
Lemma splitlines_from_occurs p n :
  forall s acc l, String.length s <= n -> In l (splitlines_from acc s) ->
                  occurs p l = true -> occurs p (acc ++ s) = true.
Proof.
  induction n as [|n IH]; intros s acc l Hlen Hin Ho.
  - destruct s; [|simpl in Hlen; lia]. simpl in Hin. rewrite append_empty_r.
    destruct (acc =? "")%string; simpl in Hin; [contradiction|].
    destruct Hin as [<-|[]]. exact Ho.
  - destruct s as [|c rest]; simpl in Hin.
    + rewrite append_empty_r. destruct (acc =? "")%string; simpl in Hin; [contradiction|].
      destruct Hin as [<-|[]]. exact Ho.
    + simpl in Hlen. destruct (is_linebreak c).
      * destruct rest as [|c2 rest2].
        -- simpl in Hin. destruct Hin as [<-|[]]. now apply occurs_app_l.
        -- simpl in Hlen.
           destruct (Ascii.eqb c CR && Ascii.eqb c2 LF);
             (destruct Hin as [<-|Hin]; [now apply occurs_app_l|]).
           ++ replace (acc ++ String c (String c2 rest2))
                with ((acc ++ String c (String c2 "")) ++ rest2)
                by (now rewrite append_assoc).
              apply occurs_app_r. apply (IH rest2 "" l); [lia|exact Hin|exact Ho].
           ++ replace (acc ++ String c (String c2 rest2))
                with ((acc ++ String c "") ++ String c2 rest2)
                by (now rewrite append_assoc).
              apply occurs_app_r. apply (IH (String c2 rest2) "" l); [simpl; lia|exact Hin|exact Ho].
      * rewrite <- snoc_append. apply (IH rest (snoc acc c) l); [lia|exact Hin|exact Ho].
Qed.

Lemma splitlines_occurs p s l :
  In l (splitlines s) -> occurs p l = true -> occurs p s = true.
Proof. apply (splitlines_from_occurs p (String.length s) s ""). lia. Qed.

Lemma no_match_without p s :
  occurs p s = false -> forall x, In x (splitlines s) -> re_match_indent p x = None.
Proof.
  intros H x Hx. destruct (re_match_indent p x) as [indent|] eqn:E; [|reflexivity].
  apply re_match_indent_sound in E as (_ & _ & rest & ->).
  assert (Ho : occurs p (indent ++ p ++ rest) = true).
  { apply occurs_app_r, occurs_app_l. destruct p; [reflexivity|].
    rewrite occurs_cons. apply orb_true_iff. left. apply startswith_iff. exists "".
    now rewrite append_empty_r. }
  rewrite (splitlines_occurs p s _ Hx Ho) in H. discriminate.
Qed.

(** The text that [align_replace] makes of a text without a match, split
    again: its lines are lines of the text, or one empty line. *)
Lemma normalised_lines t :
  let n := join_lines (splitlines t) ++ String LF "" in
  (forall x, In x (splitlines n) -> x = "" \/ In x (splitlines t))
  /\ join_lines (splitlines n) ++ String LF "" = n
  /\ written n = written t.
Proof.
  intros n. subst n. destruct (splitlines t) as [|l ls] eqn:E.
  - cbn. unfold written, filtered. rewrite E. cbn. repeat split. intros x [<-|[]]. now left.
  - rewrite <- E. rewrite splitlines_join_lines.
    + repeat split; [now right|]. unfold written, filtered.
      rewrite splitlines_join_lines; [reflexivity|rewrite E; discriminate|].
      apply Forall_forall. intros x. apply splitlines_no_break.
    + rewrite E. discriminate.
    + apply Forall_forall. intros x. apply splitlines_no_break.
Qed.

Lemma align_replace_no_match t p r :
  (forall x, In x (splitlines t) -> re_match_indent p x = None) ->
  align_replace t p r = join_lines (splitlines t) ++ String LF "".
Proof. intros H. unfold align_replace. now rewrite replace_lines_none. Qed.

Lemma re_match_indent_empty p : re_match_indent p "" = None.
Proof. reflexivity. Qed.

Lemma render_blocks_without_blocks t r1 r2 r3 :
  (forall x, In x (splitlines t) ->
             re_match_indent "__EXTRA_ROOT_SHELL_CMDS__" x = None
             /\ re_match_indent "__EXTRA_CHROOT_SHELL_CMDS__" x = None
             /\ re_match_indent "__BACKPORTS__" x = None) ->
  render_blocks t r1 r2 r3 = written t.
Proof.
  intros H. unfold render_blocks. cbv zeta.
  destruct (normalised_lines t) as (Hn & Hj & Hw). cbv zeta in Hn, Hj, Hw.
  rewrite (align_replace_no_match t) by (intros x Hx; apply (H x Hx)).
  set (n := join_lines (splitlines t) ++ String LF "") in *.
  assert (N : forall p r, (forall x, In x (splitlines t) -> re_match_indent p x = None) ->
                          align_replace n p r = n).
  { intros p r Hp. rewrite align_replace_no_match; [exact Hj|].
    intros x Hx. destruct (Hn x Hx) as [->|Hx']; [reflexivity|now apply Hp]. }
  rewrite !N; [exact Hw| |]; intros x Hx; apply (H x Hx).
Qed.

Lemma mem_string_in x l : mem_string x l = true <-> In x l.
Proof.
  unfold mem_string. rewrite existsb_exists. split.
  - intros (y & Hy & E). apply String.eqb_eq in E. now subst.
  - intros H. exists x. split; [exact H|apply String.eqb_refl].
Qed.

Lemma generate_accepted script version suite MALCOLM_DIR buildtime master target_opens :
  In version VERSIONS -> In suite SUITES ->
  exists arch linux dtb serial_console,
    arch_linux_dtb version = Some (arch, linux, dtb)
    /\ serial version = Some serial_console
    /\ generate [script; version; suite] MALCOLM_DIR buildtime master target_opens
       = match master with
         | None => OSError "raspi_master.yaml"
         | Some in_text =>
             if target_opens then
               Written (target_yaml version suite)
                 (render_blocks
                    (substitute version suite arch linux dtb serial_console buildtime
                                in_text)
                    (extra_root_shell_cmds MALCOLM_DIR (path_join MALCOLM_DIR "sensor-iso"))
                    (extra_chroot_shell_cmds version)
                    (splitlines (backports_stanza suite)))
             else OSError (target_yaml version suite)
         end.
Proof.
  intros Hv Hs. unfold generate.
  rewrite (proj2 (mem_string_in version VERSIONS) Hv).
  rewrite (proj2 (mem_string_in suite SUITES) Hs). cbn [negb].
  destruct Hv as [<-|[<-|[<-|[<-|[]]]]]; cbn [arch_linux_dtb serial String.eqb Ascii.eqb
    Bool.eqb mem_string existsb orb]; eexists _, _, _, _; repeat split.
Qed.


(** X19.  A master without two underscores in a row has no placeholder: the
    script writes its lines, with the line ends made LF, without the lines of
    white space and the empty list items, and changes nothing else. *)
Theorem generate_without_placeholder
        (script version suite MALCOLM_DIR buildtime in_text : string) :
  In version VERSIONS -> In suite SUITES -> occurs "__" in_text = false ->
  generate [script; version; suite] MALCOLM_DIR buildtime (Some in_text) true
  = Written (target_yaml version suite) (written in_text).
Proof.
  intros Hv Hs H.
  destruct (generate_accepted script version suite MALCOLM_DIR buildtime (Some in_text)
              true Hv Hs) as (a & l & d & c & _ & _ & ->).
  rewrite substitute_without_underscores by exact H.
  rewrite render_blocks_without_blocks; [reflexivity|].
  assert (A : forall rest, occurs ("__" ++ rest) in_text = false).
  { intros rest. destruct (occurs ("__" ++ rest) in_text) eqn:E; [|reflexivity].
    apply occurs_longer in E. congruence. }
  intros x Hx. repeat split; apply (no_match_without _ in_text); auto; apply (A _).
Qed.

Lemma filter_idempotent {A} (f : A -> bool) l : filter f (filter f l) = filter f l.
Proof.
  induction l as [|x l IH]; [reflexivity|]. simpl. destruct (f x) eqn:E; [|exact IH].
  simpl. now rewrite E, IH.
Qed.

(** X20.  Filtering what was written changes nothing: the text that the script
    writes is a fixed point of its last step. *)
Theorem written_is_idempotent (out_text : string) :
  written (written out_text) = written out_text.
Proof.
  destruct (filtered out_text) as [|l ls] eqn:E.
  - assert (W : written out_text = String LF "") by (unfold written; now rewrite E).
    rewrite W. reflexivity.
  - unfold written at 1. unfold filtered at 1. unfold written at 1.
    rewrite splitlines_join_lines; [|rewrite E; discriminate|apply filtered_no_break].
    unfold filtered at 1. rewrite filter_idempotent. reflexivity.
Qed.

(** ** [str.replace] and the lines of a text *)

Lemma startswith_length p s : startswith p s = true -> String.length p <= String.length s.
Proof.
  rewrite startswith_iff. intros [rest ->]. revert rest.
  induction p as [|c p IH]; intros rest; simpl; [lia|]. specialize (IH rest). lia.
Qed.

(** An occurrence that begins before a character that is not in [old] ends
    before it. *)
Lemma startswith_before old c a b :
  contains_char c old = false ->
  startswith old (a ++ String c b) = true -> startswith old a = true.
Proof.
  unfold startswith. revert a. induction old as [|o old IH]; intros a Hc H.
  - now destruct a.
  - simpl in Hc. apply orb_false_iff in Hc as [Ho Hold].
    destruct a as [|x a]; simpl in *.
    + destruct (Ascii.ascii_dec o c) as [->|Hne]; [|discriminate].
      rewrite Ascii.eqb_refl in Ho. discriminate.
    + destruct (Ascii.ascii_dec o x) as [->|Hne]; [|discriminate]. now apply IH.
Qed.

Lemma replace_from_empty old new k : replace_from old new k "" = "".
Proof. destruct k; reflexivity. Qed.

(** The replacement goes through a character that is not in [old]. *)
Lemma replace_from_through old new c a :
  old <> "" -> contains_char c old = false ->
  forall k b, k <= String.length a ->
    replace_from old new k (a ++ String c b)
    = replace_from old new k a ++ String c (replace_from old new 0 b).
Proof.
  intros Hne Hc. induction a as [|x a IH]; intros k b Hk.
  - simpl in Hk. assert (k = 0) by lia. subst k. cbn [append replace_from].
    destruct (startswith old (String c b)) eqn:E; [|reflexivity].
    apply (startswith_before old c "" b Hc) in E. destruct old; [congruence|discriminate].
  - change (String x a ++ String c b) with (String x (a ++ String c b)).
    destruct k as [|k]; cbn [replace_from].
    + destruct (startswith old (String x (a ++ String c b))) eqn:E.
      * apply (startswith_before old c (String x a) b Hc) in E. rewrite E.
        apply startswith_length in E. simpl in E.
        rewrite IH by lia. now rewrite append_assoc.
      * destruct (startswith old (String x a)) eqn:E'.
        -- apply (startswith_app old (String x a) (String c b)) in E'.
           change (String x a ++ String c b) with (String x (a ++ String c b)) in E'.
           congruence.
        -- rewrite IH by lia. reflexivity.
    + simpl in Hk. apply IH. lia.
Qed.

Lemma str_replace_through old new c a b :
  old <> "" -> contains_char c old = false ->
  str_replace old new (a ++ String c b)
  = str_replace old new a ++ String c (str_replace old new b).
Proof.
  intros Hne Hc. unfold str_replace. apply String.eqb_neq in Hne as E. rewrite E.
  apply replace_from_through; [exact Hne|exact Hc|lia].
Qed.

(** The characters of the result come from the text or from [new]. *)
Lemma replace_from_chars old new c s :
  forall k, contains_char c (replace_from old new k s) = true ->
            contains_char c s = true \/ contains_char c new = true.
Proof.
  induction s as [|x s IH]; intros k H; [now rewrite replace_from_empty in H|].
  destruct k as [|k]; cbn [replace_from] in H.
  - destruct (startswith old (String x s)).
    + rewrite contains_char_app in H. apply orb_true_iff in H as [H|H]; [now right|].
      destruct (IH _ H) as [H'|H']; [left|now right]. simpl. rewrite H'. apply orb_true_r.
    + simpl in H. apply orb_true_iff in H as [H|H].
      * left. simpl. now rewrite H.
      * destruct (IH _ H) as [H'|H']; [left|now right]. simpl. rewrite H'. apply orb_true_r.
  - destruct (IH _ H) as [H'|H']; [left|now right]. simpl. rewrite H'. apply orb_true_r.
Qed.

Lemma str_replace_chars old new c s :
  old <> "" -> contains_char c s = false -> contains_char c new = false ->
  contains_char c (str_replace old new s) = false.
Proof.
  intros Hne Hs Hn. unfold str_replace. apply String.eqb_neq in Hne as E. rewrite E.
  destruct (contains_char c (replace_from old new 0 s)) eqn:H; [|reflexivity].
  apply replace_from_chars in H as [H|H]; congruence.
Qed.

Lemma str_replace_no_break old new s :
  old <> "" -> no_break s -> no_break new -> no_break (str_replace old new s).
Proof.
  intros Hne Hs Hn c Hc. unfold str_replace in Hc. apply String.eqb_neq in Hne as E.
  rewrite E in Hc. apply replace_from_chars in Hc as [H|H]; [now apply Hs|now apply Hn].
Qed.

(** ** netbox_init.py: the files for the initializers *)

Lemma dict_get_set_same {V} k (v : V) d :
  dict_get String.eqb k (dict_set String.eqb k v d) = Some v.
Proof.
  induction d as [|[k' v'] d IH]; simpl.
  - now rewrite String.eqb_refl.
  - destruct (String.eqb k' k) eqn:E; simpl; now rewrite E.
Qed.

Lemma dict_get_set_other {V} k k' (v : V) d :
  k <> k' -> dict_get String.eqb k' (dict_set String.eqb k v d) = dict_get String.eqb k' d.
Proof.
  intros Hne. induction d as [|[k0 v0] d IH]; simpl.
  - apply String.eqb_neq in Hne. now rewrite Hne.
  - destruct (String.eqb_spec k0 k) as [->|H0]; simpl.
    + apply String.eqb_neq in Hne. now rewrite Hne.
    + destruct (String.eqb k0 k'); [reflexivity|exact IH].
Qed.

Lemma written_text_lines old new s :
  old <> "" -> contains_char LF old = false ->
  forall acc, written_text (map (str_replace old new) (lines_from acc s))
              = str_replace old new (acc ++ s).
Proof.
  intros Hne Hc.
  assert (R0 : str_replace old new "" = "").
  { unfold str_replace. apply String.eqb_neq in Hne. now rewrite Hne. }
  induction s as [|c s IH]; intros acc.
  - rewrite append_empty_r. cbn [lines_from].
    destruct (String.eqb_spec acc "") as [->|_]; cbn; [now rewrite R0|apply append_empty_r].
  - cbn [lines_from]. destruct (Ascii.eqb_spec c LF) as [->|Hn].
    + cbn [map written_text fold_right]. fold (written_text (map (str_replace old new)
                                                   (lines_from "" s))).
      rewrite (IH ""). cbn [append]. unfold snoc.
      rewrite !str_replace_through by assumption. rewrite R0.
      now rewrite append_assoc.
    + rewrite IH. now rewrite snoc_append.
Qed.

Lemma preload_defaults_keeps site loadType files name text :
  sdict_get name files = Some text ->
  sdict_get name (preload_defaults site loadType files) = Some text.
Proof.
  intros H. unfold preload_defaults. cbv zeta.
  destruct (sdict_get (loadType ++ "_defaults.yml") files); [|exact H].
  destruct (sdict_mem (loadType ++ ".yml") files) eqn:E; [exact H|].
  unfold sdict_get. rewrite dict_get_set_other; [exact H|].
  intros Heq. subst name. unfold sdict_mem, dict_mem in E. unfold sdict_get in H.
  now rewrite H in E.
Qed.

Lemma preload_defaults_adds site loadType files name :
  sdict_get name files = None -> name <> loadType ++ ".yml" ->
  sdict_get name (preload_defaults site loadType files) = None.
Proof.
  intros H Hne. unfold preload_defaults. cbv zeta.
  destruct (sdict_get (loadType ++ "_defaults.yml") files); [|exact H].
  destruct (sdict_mem (loadType ++ ".yml") files); [exact H|].
  unfold sdict_get. rewrite dict_get_set_other; [exact H|congruence].
Qed.

Lemma preload_defaults_writes site loadType files text :
  sdict_get (loadType ++ "_defaults.yml") files = Some text ->
  sdict_mem (loadType ++ ".yml") files = false ->
  sdict_get (loadType ++ ".yml") (preload_defaults site loadType files)
  = Some (match site with
          | Some name => str_replace "NETBOX_DEFAULT_SITE" name (universal_newlines text)
          | None => ""
          end).
Proof.
  intros Hd Hl. unfold preload_defaults. cbv zeta. rewrite Hd, Hl.
  unfold sdict_get. rewrite dict_get_set_same. destruct site as [name|]; [|reflexivity].
  unfold file_lines. rewrite written_text_lines; [reflexivity|discriminate|reflexivity].
Qed.

(** X21.  The step that prepares the files for the initializers never changes
    a file that is there: every file of the directory keeps its text, and the
    only files that can be new afterwards are [vrfs.yml] and
    [prefixes.yml]. *)
Theorem preload_files_are_never_overwritten
        (preloadPrefixes : bool) (netboxSites : list string) (files : dict string string)
        (name : string) :
  (forall text, sdict_get name files = Some text ->
                sdict_get name (preload_prefixes_files preloadPrefixes netboxSites files)
                = Some text)
  /\ (sdict_get name files = None -> name <> "vrfs.yml" -> name <> "prefixes.yml" ->
      sdict_get name (preload_prefixes_files preloadPrefixes netboxSites files) = None).
Proof.
  unfold preload_prefixes_files. destruct preloadPrefixes; [|now split]. cbv zeta. split.
  - intros text H. now apply preload_defaults_keeps, preload_defaults_keeps.
  - intros H Hv Hp. apply preload_defaults_adds; [|exact Hp].
    apply preload_defaults_adds; [exact H|exact Hv].
Qed.

(** X22.  For [vrfs] and for [prefixes]: when the defaults file is there and
    the file itself is not, and the preload of the prefixes is asked for, the
    file is written as the text of the defaults file, read with its line ends
    CR LF and CR made LF, in which every [NETBOX_DEFAULT_SITE] is replaced by
    the first site name.  Without a site name the file is created and left
    empty. *)
Theorem preload_defaults_get_the_first_site
        (loadType : string) (netboxSites : list string) (files : dict string string)
        (text : string) :
  In loadType ["vrfs"; "prefixes"] ->
  sdict_get (loadType ++ "_defaults.yml") files = Some text ->
  sdict_mem (loadType ++ ".yml") files = false ->
  sdict_get (loadType ++ ".yml") (preload_prefixes_files true netboxSites files)
  = Some (match netboxSites with
          | site :: _ => str_replace "NETBOX_DEFAULT_SITE" site (universal_newlines text)
          | [] => ""
          end).
Proof.
  intros Hin Hd Hl. unfold preload_prefixes_files. cbv zeta.
  assert (E : match netboxSites with
              | site :: _ => str_replace "NETBOX_DEFAULT_SITE" site (universal_newlines text)
              | [] => ""
              end
              = match hd_error netboxSites with
                | Some name => str_replace "NETBOX_DEFAULT_SITE" name (universal_newlines text)
                | None => ""
                end) by (now destruct netboxSites).
  rewrite E. destruct Hin as [<-|[<-|[]]].
  - apply preload_defaults_keeps. now apply preload_defaults_writes.
  - apply preload_defaults_writes.
    + now apply preload_defaults_keeps.
    + unfold sdict_mem, dict_mem.
      change (dict_get String.eqb ("prefixes" ++ ".yml")) with (@sdict_get string ("prefixes" ++ ".yml")).
      rewrite preload_defaults_adds; [reflexivity| |discriminate].
      unfold sdict_mem, dict_mem in Hl. unfold sdict_get.
      destruct (dict_get String.eqb ("prefixes" ++ ".yml") files); [discriminate|reflexivity].
Qed.

(** ** netbox_init.py: the database backup to restore *)

(** X23.  The backup that is restored: the file named by the argument when it
    is a file; otherwise, when the preload directory is there, the file with
    the least modification time among the [.gz] files of the directory that
    are no [.media.tar.gz] archives (the first of them in the order of [glob]
    when several have that time), and the empty name when there is none. *)
Theorem preload_database_file_is_oldest
        (isfile isdir : string -> bool) (glob_gz : string -> list string)
        (getmtime : string -> Z) (preloadBackupFile preloadDir : string) :
  let chosen := preload_database_file isfile isdir glob_gz getmtime
                                      preloadBackupFile preloadDir in
  let candidates := preload_files isfile glob_gz preloadDir in
  (isfile preloadBackupFile = true \/ isdir preloadDir = false ->
   chosen = Some preloadBackupFile)
  /\ (isfile preloadBackupFile = false -> isdir preloadDir = true ->
      (candidates = [] -> chosen = Some "")
      /\ (candidates <> [] ->
          exists before x after,
            chosen = Some x
            /\ candidates = (before ++ x :: after)%list
            /\ isfile x = true /\ endswith ".media.tar.gz" x = false
            /\ Forall (fun y => (getmtime x < getmtime y)%Z) before
            /\ Forall (fun y => (getmtime x <= getmtime y)%Z) after)).
Proof.
  cbv zeta. unfold preload_database_file. split.
  - intros [H|H]; rewrite H; [reflexivity|]. now rewrite andb_false_r.
  - intros Hf Hd. rewrite Hf, Hd. cbn [negb andb]. split.
    + intros ->. reflexivity.
    + intros Hne.
      set (ltb := fun a b : string => (getmtime a <? getmtime b)%Z).
      assert (Ht : forall a b c, ltb b a = false -> ltb c b = false -> ltb c a = false)
        by (unfold ltb; intros a b c; rewrite !Z.ltb_ge; lia).
      assert (Hl : forall a b, ltb a b = true -> ltb b a = false)
        by (unfold ltb; intros a b; rewrite Z.ltb_lt, Z.ltb_ge; lia).
      change (mtime_lt getmtime) with (fun a b => Some (ltb a b)).
      destruct (sorted_total ltb Ht Hl (preload_files isfile glob_gz preloadDir))
        as (s & Hs & Hp & _).
      rewrite Hs. destruct s as [|x t].
      * apply Permutation_sym, Permutation_nil in Hp. congruence.
      * destruct (sorted_total_head ltb Ht Hl _ x t Hs) as (before & after & E & Hb & Ha).
        exists before, x, after. split; [reflexivity|]. split; [exact E|].
        assert (Hin : In x (preload_files isfile glob_gz preloadDir))
          by (rewrite E; apply in_or_app; right; now left).
        unfold preload_files in Hin. apply filter_In in Hin as [Hin Hx].
        apply filter_In in Hin as [_ Hfile]. apply negb_true_iff in Hx.
        repeat split; [exact Hfile|exact Hx| |].
        -- eapply Forall_impl; [|exact Hb]. intros y. unfold ltb. now rewrite Z.ltb_lt.
        -- eapply Forall_impl; [|exact Ha]. intros y. unfold ltb. now rewrite Z.ltb_ge.
Qed.

(** ** netbox_init.py: the descriptions taken from the VRF names *)

Lemma with_prefixes_same s : with_prefixes s (prefixes_of s) = s.
Proof. now destruct s. Qed.

Lemma with_prefixes_twice s a b : with_prefixes (with_prefixes s a) b = with_prefixes s b.
Proof. reflexivity. Qed.

(** The prefixes after the updates for [todo], one after the other. *)
Lemma vrf_loop_store rejects (todo : list Prefix) :
  accepts_descriptions rejects ->
  forall w,
    let body := fun prefix : Prefix =>
                  x <- send rejects
                         (UpdatePrefixDescription (prefix_id prefix)
                            (match prefix_vrf prefix with Some v => v | None => "" end)) ;;
                  ret tt in
    fst (for_each todo body w) = Ok tt
    /\ store (snd (for_each todo body w))
       = with_prefixes (store w)
           (fold_left (fun l q =>
                         map (set_description (prefix_id q)
                                (match prefix_vrf q with Some v => v | None => "" end)) l)
                      todo (prefixes_of (store w))).
Proof.
  intros Ha w body. revert w.
  assert (Hb : forall q w,
             exists w1, body q w = (Ok tt, w1)
                        /\ store w1
                           = with_prefixes (store w)
                               (map (set_description (prefix_id q)
                                       (match prefix_vrf q with Some v => v | None => "" end))
                                    (prefixes_of (store w)))).
  { intros q w. unfold body, bind, send. rewrite Ha. cbn [apply_request].
    eexists. split; reflexivity. }
  induction todo as [|q todo IH]; intros w.
  - split; [reflexivity|]. cbn. now rewrite with_prefixes_same.
  - cbn [for_each fold_left]. unfold bind.
    destruct (Hb q w) as (w1 & -> & Hw1). destruct (IH w1) as [Hok Hst].
    split; [exact Hok|]. rewrite Hst, Hw1. reflexivity.
Qed.

Lemma set_description_other pfx d p : prefix_id p <> pfx -> set_description pfx d p = p.
Proof.
  intros H. unfold set_description. apply Z.eqb_neq in H. now rewrite H.
Qed.

Lemma same_id_same_prefix (l : list Prefix) p q :
  NoDup (map prefix_id l) -> In p l -> In q l -> prefix_id p = prefix_id q -> p = q.
Proof.
  induction l as [|x l IH]; intros Hnd Hp Hq E; [destruct Hp|].
  simpl in Hnd. inversion Hnd as [|? ? Hx Hl]; subst.
  destruct Hp as [->|Hp], Hq as [->|Hq]; auto.
  - exfalso. apply Hx. rewrite E. now apply in_map.
  - exfalso. apply Hx. rewrite <- E. now apply in_map.
Qed.

(** The prefixes of [l] whose identifier is in [ids] are migrated. *)
Lemma vrf_updates_fold (l : list Prefix) :
  NoDup (map prefix_id l) ->
  forall todo ids,
    (forall q, In q todo -> In q l /\ to_migrate q = true) ->
    fold_left (fun l' q =>
                 map (set_description (prefix_id q)
                        (match prefix_vrf q with Some v => v | None => "" end)) l')
              todo
              (map (fun p => if existsb (Z.eqb (prefix_id p)) ids then migrated p else p) l)
    = map (fun p => if existsb (Z.eqb (prefix_id p)) (ids ++ map prefix_id todo)
                    then migrated p else p) l.
Proof.
  intros Hnd. induction todo as [|q todo IH]; intros ids Hq.
  - cbn. now rewrite app_nil_r.
  - cbn [fold_left map]. rewrite map_map.
    replace (ids ++ prefix_id q :: map prefix_id todo)%list
      with ((ids ++ [prefix_id q]) ++ map prefix_id todo)%list
      by (now rewrite <- app_assoc).
    rewrite <- IH by (intros r Hr; apply Hq; now right).
    f_equal. apply map_ext_in. intros p Hp.
    destruct (Hq q (or_introl eq_refl)) as [Hql Hqm].
    rewrite existsb_app. cbn [existsb]. rewrite orb_false_r.
    destruct (Z.eqb_spec (prefix_id p) (prefix_id q)) as [E|E].
    + assert (p = q) by (eapply same_id_same_prefix; eauto). subst p.
      rewrite orb_true_r. unfold migrated. rewrite Hqm.
      destruct (existsb (Z.eqb (prefix_id q)) ids);
        unfold set_description; cbn; now rewrite Z.eqb_refl.
    + rewrite orb_false_r. apply set_description_other.
      destruct (existsb (Z.eqb (prefix_id p)) ids); [|exact E].
      unfold migrated. destruct (to_migrate p); exact E.
Qed.

Lemma vrf_updates_all (l : list Prefix) :
  NoDup (map prefix_id l) ->
  fold_left (fun l' q =>
               map (set_description (prefix_id q)
                      (match prefix_vrf q with Some v => v | None => "" end)) l')
            (filter to_migrate l) l
  = map migrated l.
Proof.
  intros Hnd.
  pose proof (vrf_updates_fold l Hnd (filter to_migrate l) []) as H.
  cbn [existsb app] in H. rewrite map_id in H. rewrite H.
  - apply map_ext_in. intros p Hp.
    destruct (existsb (Z.eqb (prefix_id p)) (map prefix_id (filter to_migrate l))) eqn:E;
      [reflexivity|].
    unfold migrated. destruct (to_migrate p) eqn:Em; [|reflexivity].
    exfalso. assert (Hin : In (prefix_id p) (map prefix_id (filter to_migrate l)))
      by (apply in_map, filter_In; now split).
    assert (T : existsb (Z.eqb (prefix_id p)) (map prefix_id (filter to_migrate l)) = true)
      by (apply existsb_exists; exists (prefix_id p); split; [exact Hin|apply Z.eqb_refl]).
    congruence.
  - intros q Hq. now apply filter_In in Hq.
Qed.

(** X24.  When the identifiers of the prefixes are distinct and the store
    accepts the updates, the last stage gives to every prefix without
    description and with a VRF the name of the VRF as its description, and
    changes nothing else: the other prefixes, and the rest of the store, are
    as before. *)
Theorem vrf_stage_moves_names_to_descriptions
        (rejects : Store -> request -> bool) (w : World) :
  accepts_descriptions rejects ->
  NoDup (map prefix_id (prefixes_of (store w))) ->
  fst (vrf_stage rejects w) = Ok tt
  /\ store (snd (vrf_stage rejects w))
     = with_prefixes (store w) (map migrated (prefixes_of (store w))).
Proof.
  intros Ha Hnd. unfold vrf_stage, prefixes_to_migrate. unfold bind at 1 3. unfold read.
  change (fun x : Prefix =>
            negb (truthy (prefix_description x))
            && match prefix_vrf x with Some _ => true | None => false end)
    with to_migrate.
  destruct (vrf_loop_store rejects (filter to_migrate (prefixes_of (store w))) Ha w)
    as [Hok Hst]. cbv zeta in Hok, Hst.
  split; [exact Hok|]. rewrite Hst. now rewrite vrf_updates_all.
Qed.

Lemma vrf_stage_moves_names_to_descriptions_witness :
  fst (vrf_stage accept_all (start store_with_vrf_prefixes)) = Ok tt
  /\ store (snd (vrf_stage accept_all (start store_with_vrf_prefixes)))
     = with_prefixes (store (start store_with_vrf_prefixes))
         (map migrated (prefixes_of (store (start store_with_vrf_prefixes)))).
Proof.
  apply (vrf_stage_moves_names_to_descriptions accept_all (start store_with_vrf_prefixes)).
  - intros s p d. reflexivity.
  - repeat constructor; simpl; intuition discriminate.
Defined.

Lemma min_hash_value_by_value_first_of_least_witness :
  exists pre k v post,
    ranked_example = (pre ++ (k, v) :: post)%list
    /\ min_hash_value_by_value (by_id tens) ranked_example = Some (Some v)
    /\ Forall (fun e => (tens v < tens (snd e))%Z) pre
    /\ Forall (fun e => (tens v <= tens (snd e))%Z) post.
Proof.
  apply (min_hash_value_by_value_first_of_least tens ranked_example).
  - repeat constructor; simpl; intuition discriminate.
  - discriminate.
Defined.

Lemma min_hash_value_by_value_unorderable_witness :
  min_hash_value_by_value (@never_lt Z) ids_example = None.
Proof.
  apply (proj2 (min_hash_value_by_value_unorderable (@never_lt Z) ids_example)).
  - intros a b. reflexivity.
  - simpl. lia.
Defined.

Lemma max_hash_value_by_value_largest_witness :
  exists k v, max_hash_value_by_value int_lt ids_example = Some v
              /\ In (k, v) ids_example
              /\ forall k' v', In (k', v') ids_example -> (v' <= v)%Z.
Proof.
  apply (proj2 (max_hash_value_by_value_largest ids_example
                  ltac:(repeat constructor; simpl; intuition discriminate))).
  discriminate.
Defined.

Lemma hash_value_by_key_extremes_witness :
  (exists k v, min_hash_value_by_key str_lt ids_example = Some (Some v)
               /\ In (k, v) ids_example
               /\ forall k' v', In (k', v') ids_example -> String.leb k k' = true)
  /\ (exists k v, max_hash_value_by_key str_lt ids_example = Some v
                  /\ In (k, v) ids_example
                  /\ forall k' v', In (k', v') ids_example -> String.leb k' k = true).
Proof.
  apply (hash_value_by_key_extremes ids_example).
  - repeat constructor; simpl; intuition discriminate.
  - discriminate.
Defined.


Lemma ip_address_is_ip_network_witness : is_ip_network "fe80::1" = true.
Proof. apply (ip_address_is_ip_network "fe80::1"). reflexivity. Defined.

Lemma interface_request_follows_address_class_witness :
  exists ok,
    emitted (start seeded_store)
      (snd (create_device accept_all (by_id site_id) (by_id dtype_id) (by_id role_id)
              seeded_sites seeded_device_types seeded_roles host_with_mac
              (start seeded_store)))
      (Requested (CreateDevice "h1" (Some 1%Z) (Some 1%Z) (Some 1%Z)) true
       :: Requested (CreateInterface 1 "default" "other" (Some "aa:bb:cc:dd:ee:ff")) ok
       :: (if ok then [] else [Warned "h1"])).
Proof.
  apply (interface_request_follows_address_class accept_all (by_id site_id) (by_id dtype_id)
           (by_id role_id) seeded_sites seeded_device_types seeded_roles host_with_mac
           (start seeded_store)
           (hd_error (sites_of seeded_store)) (hd_error (device_types_of seeded_store))
           (hd_error (roles_of seeded_store)));
    try reflexivity.
  right. reflexivity.
Defined.


Lemma permissions_stage_attempts_with_groups_witness :
  (exists permissions,
      fst (permissions_stage accept_all (args_with []) both_groups (start empty_store))
      = Ok permissions)
  /\ exists evs,
      emitted (start empty_store)
        (snd (permissions_stage accept_all (args_with []) both_groups (start empty_store)))
        evs
      /\ all_attempted
           (permissions_to_create (args_with [])
              (index_of permissions_of perm_name (store (start empty_store))))
           (fun kv r =>
              r = CreatePermission (pc_name (snd kv)) (pc_enabled (snd kv))
                    (ids_of_groups both_groups (pc_groups (snd kv)))
                    (pc_actions (snd kv))
                    (object_types_of (store (start empty_store)) (snd kv)))
           evs.
Proof.
  apply (permissions_stage_attempts_with_groups accept_all (args_with []) both_groups
           (start empty_store)); reflexivity.
Defined.

Lemma permissions_stage_without_staff_group_witness :
  permissions_stage accept_all (args_with []) [] (start empty_store)
  = (Raise KeyError, start empty_store).
Proof.
  apply (permissions_stage_without_staff_group accept_all (args_with []) []
           (start empty_store)); reflexivity.
Defined.

Lemma generate_without_placeholder_witness :
  generate ["generate-recipe.py"; "4"; "bookworm"] "/opt/malcolm" "2026-01-01 00:00"
           (Some master_without_placeholder) true
  = Written (target_yaml "4" "bookworm") (written master_without_placeholder).
Proof.
  apply (generate_without_placeholder "generate-recipe.py" "4" "bookworm" "/opt/malcolm"
           "2026-01-01 00:00" master_without_placeholder).
  - simpl. tauto.
  - simpl. tauto.
  - reflexivity.
Defined.

Lemma preload_files_are_never_overwritten_witness :
  sdict_get "prefixes.yml" (preload_prefixes_files true ["HQ"] preload_example)
  = Some ("- prefix: 10.0.0.0/8" ++ String LF "").
Proof.
  apply (proj1 (preload_files_are_never_overwritten true ["HQ"] preload_example
                  "prefixes.yml")).
  reflexivity.
Defined.

Lemma preload_defaults_get_the_first_site_witness :
  sdict_get ("vrfs" ++ ".yml") (preload_prefixes_files true ["HQ"; "lab"] preload_example)
  = Some ("- name: HQ" ++ String LF "").
Proof.
  apply (preload_defaults_get_the_first_site "vrfs" ["HQ"; "lab"] preload_example
           ("- name: NETBOX_DEFAULT_SITE" ++ String CR (String LF ""))).
  - now left.
  - reflexivity.
  - reflexivity.
Defined.

Lemma preload_database_file_is_oldest_witness :
  exists before x after,
    preload_database_file isfile_example isdir_example glob_example mtime_example
                          "" "/preload" = Some x
    /\ preload_files isfile_example glob_example "/preload" = (before ++ x :: after)%list
    /\ isfile_example x = true /\ endswith ".media.tar.gz" x = false
    /\ Forall (fun y => (mtime_example x < mtime_example y)%Z) before
    /\ Forall (fun y => (mtime_example x <= mtime_example y)%Z) after.
Proof.
  apply (proj2 (proj2 (preload_database_file_is_oldest isfile_example isdir_example
                         glob_example mtime_example "" "/preload")
                  eq_refl eq_refl)).
  discriminate.
Defined.
